(** * ExcelProcessor: a shallow embedding of [excelprocessor.py]

    The development follows the layout of the Python module: the string
    and path primitives of the standard library the module relies on, the
    element trees of [xml.etree], the archive and the output directory,
    and then the functions of the module under their own names. *)

From Stdlib Require Import Ascii ZArith Lia.
From stdpp Require Import base option strings list gmap pretty.

Local Open Scope Z_scope.
Local Open Scope nat_scope.

(** ** Python [str]

    A [str] is modelled by [string]; each [ascii] is one code point of the
    Latin-1 range. *)
Module Py.

(** [str.isspace] on one code point, for the code points below 256. *)
Definition is_space (c : ascii) : bool :=
  let n := nat_of_ascii c in
  ((9 <=? n) && (n <=? 13)) || ((28 <=? n) && (n <=? 32))
  || (n =? 133) || (n =? 160).

Definition is_empty (s : string) : bool :=
  match s with EmptyString => true | String _ _ => false end.

(** [bool(s)] for a string: non-empty. *)
Definition truthy (s : string) : bool := negb (is_empty s).

Fixpoint lstrip_by (p : ascii -> bool) (s : string) : string :=
  match s with
  | EmptyString => EmptyString
  | String c r => if p c then lstrip_by p r else s
  end.

Fixpoint rstrip_by (p : ascii -> bool) (s : string) : string :=
  match s with
  | EmptyString => EmptyString
  | String c r =>
      let r' := rstrip_by p r in
      if is_empty r' && p c then EmptyString else String c r'
  end.

Definition strip_by (p : ascii -> bool) (s : string) : string :=
  lstrip_by p (rstrip_by p s).

(** [s.strip()], [s.rstrip()] and [s.strip(chars)] for a one-character set. *)
Definition strip : string -> string := strip_by is_space.
Definition rstrip : string -> string := rstrip_by is_space.
Definition strip_char (c : ascii) : string -> string := strip_by (Ascii.eqb c).

(** [c in s] for one character. *)
Fixpoint contains (c : ascii) (s : string) : bool :=
  match s with
  | EmptyString => false
  | String a r => Ascii.eqb a c || contains c r
  end.

(** [s.startswith(p)] *)
Fixpoint startswith (s p : string) : bool :=
  match p, s with
  | EmptyString, _ => true
  | String a p', String b s' => Ascii.eqb a b && startswith s' p'
  | String _ _, EmptyString => false
  end.

Fixpoint drop (n : nat) (s : string) : string :=
  match n, s with
  | S n', String _ r => drop n' r
  | _, _ => s
  end.

(** [s.endswith(p)] *)
Definition endswith (s p : string) : bool :=
  (String.length p <=? String.length s)
  && String.eqb (drop (String.length s - String.length p) s) p.

(** [sep.join(l)] *)
Fixpoint join (sep : string) (l : list string) : string :=
  match l with
  | [] => EmptyString
  | [x] => x
  | x :: r => x +:+ sep +:+ join sep r
  end.

(** [s.split(c)] for a one-character separator: never the empty list. *)
Fixpoint split (c : ascii) (s : string) : list string :=
  match s with
  | EmptyString => [EmptyString]
  | String a r =>
      if Ascii.eqb a c then EmptyString :: split c r
      else match split c r with
           | x :: l => String a x :: l
           | [] => [String a EmptyString]
           end
  end.

(** [s.replace(old, new)] for a non-empty [old]: the occurrences are
    replaced from left to right, without overlap.  The fuel is the number
    of characters still to be scanned. *)
Fixpoint replace_go (fuel : nat) (old new s : string) : string :=
  match fuel with
  | 0 => s
  | S f =>
      if startswith s old
      then new +:+ replace_go (f - (String.length old - 1)) old new
                    (drop (String.length old) s)
      else match s with
           | EmptyString => EmptyString
           | String a r => String a (replace_go f old new r)
           end
  end.

Definition replace (s old new : string) : string :=
  replace_go (String.length s) old new s.

(** [re.sub("[^...]+", repl, s)] for a negated character class: every
    maximal run of characters outside the class [keep] becomes one [repl]. *)
Fixpoint sub_runs (keep : ascii -> bool) (repl : string) (in_run : bool)
    (s : string) : string :=
  match s with
  | EmptyString => EmptyString
  | String a r =>
      if keep a then String a (sub_runs keep repl false r)
      else if in_run then sub_runs keep repl true r
      else repl +:+ sub_runs keep repl true r
  end.

Definition between (lo hi : nat) (c : ascii) : bool :=
  (lo <=? nat_of_ascii c) && (nat_of_ascii c <=? hi).

Definition is_upper_az (c : ascii) : bool := between 65 90 c.
Definition is_lower_az (c : ascii) : bool := between 97 122 c.
Definition is_digit (c : ascii) : bool := between 48 57 c.

(** [s.lower()] on the Latin-1 range: A-Z and the accented capitals
    (0xC0-0xDE, the multiplication sign apart) move up by 32. *)
Definition lower_char (c : ascii) : ascii :=
  let n := nat_of_ascii c in
  if is_upper_az c || (between 192 222 c && negb (n =? 215))
  then ascii_of_nat (n + 32) else c.

Fixpoint lower (s : string) : string :=
  match s with
  | EmptyString => EmptyString
  | String a r => String (lower_char a) (lower r)
  end.

(** [s.rfind(c) + 1]: the length of the prefix that ends with the last
    occurrence of [c], [0] when there is none. *)
Fixpoint rfind_succ (c : ascii) (s : string) : nat :=
  match s with
  | EmptyString => 0
  | String a r =>
      match rfind_succ c r with
      | 0 => if Ascii.eqb a c then 1 else 0
      | S k => S (S k)
      end
  end.

Fixpoint take (n : nat) (s : string) : string :=
  match n, s with
  | S n', String a r => String a (take n' r)
  | _, _ => EmptyString
  end.

(** [str(n)] for an [int]. *)
Definition str_of_nat (n : nat) : string := pretty n.
Definition str_of_Z (z : Z) : string := pretty z.

(** [int(s)] for a [str]: surrounding white space is dropped, a sign is
    optional, the digits may be grouped by single underscores.  [None]
    stands for [ValueError], which the interpreter also raises for a text
    of more than [sys.get_int_max_str_digits()] digits (4300 unless the
    interpreter is told otherwise; the sign and the underscores do not
    count). *)
Definition digit_val (c : ascii) : Z := Z.of_nat (nat_of_ascii c - 48).

Definition int_max_str_digits : nat := 4300.

Fixpoint count_digits (s : string) : nat :=
  match s with
  | EmptyString => 0
  | String a r => (if is_digit a then 1 else 0) + count_digits r
  end.

Fixpoint digits_go (acc : Z) (after_digit : bool) (s : string) : option Z :=
  match s with
  | EmptyString => if after_digit then Some acc else None
  | String a r =>
      if is_digit a then digits_go (10 * acc + digit_val a)%Z true r
      else if Ascii.eqb a "_" && after_digit
           then match r with
                | String b _ => if is_digit b then digits_go acc false r else None
                | EmptyString => None
                end
           else None
  end.

Definition int_of_str (s : string) : option Z :=
  if int_max_str_digits <? count_digits (strip s) then None
  else
    match strip s with
    | String "-" r => Z.opp <$> digits_go 0%Z false r
    | String "+" r => digits_go 0%Z false r
    | t => digits_go 0%Z false t
    end.

End Py.

(** ** [posixpath] *)
Module posixpath.

Definition sep : ascii := "/"%char.

(** [posixpath.join(a, b)] *)
Definition join (a b : string) : string :=
  if Py.startswith b "/" then b
  else if Py.is_empty a || Py.endswith a "/" then a +:+ b
  else a +:+ "/" +:+ b.

(** The loop of [normpath] over the components; [new_comps] grows and
    shrinks at its end. *)
Fixpoint normpath_loop (initial_slashes : nat) (comps new_comps : list string)
    : list string :=
  match comps with
  | [] => new_comps
  | comp :: rest =>
      if bool_decide (comp = "") || bool_decide (comp = ".")
      then normpath_loop initial_slashes rest new_comps
      else if negb (bool_decide (comp = ".."))
              || ((initial_slashes =? 0) && bool_decide (new_comps = []))
              || (negb (bool_decide (new_comps = []))
                  && bool_decide (last new_comps = Some ".."))
      then normpath_loop initial_slashes rest (new_comps ++ [comp])
      else if negb (bool_decide (new_comps = []))
      then normpath_loop initial_slashes rest (removelast new_comps)
      else normpath_loop initial_slashes rest new_comps
  end.

Definition initial_slashes (path : string) : nat :=
  if Py.startswith path "/"
  then if Py.startswith path "//" && negb (Py.startswith path "///")
       then 2 else 1
  else 0.

Definition slashes (n : nat) : string :=
  match n with 0 => "" | 1 => "/" | _ => "//" end.

(** [posixpath.normpath(path)] *)
Definition normpath (path : string) : string :=
  if Py.is_empty path then "."
  else
    let i := initial_slashes path in
    let comps := normpath_loop i (Py.split sep path) [] in
    let path' := slashes i +:+ Py.join "/" comps in
    if Py.is_empty path' then "." else path'.

(** [posixpath.dirname(p)] *)
Definition dirname (p : string) : string :=
  let head := Py.take (Py.rfind_succ sep p) p in
  if Py.truthy head && negb (Py.is_empty (Py.lstrip_by (Ascii.eqb sep) head))
  then Py.rstrip_by (Ascii.eqb sep) head
  else head.

(** [posixpath.basename(p)] *)
Definition basename (p : string) : string :=
  Py.drop (Py.rfind_succ sep p) p.

(** [posixpath.splitext(p)[1]]: the extension starts at the last dot of
    the last component, unless only dots precede it there. *)
Definition splitext_ext (p : string) : string :=
  let sep_succ := Py.rfind_succ sep p in
  let dot_succ := Py.rfind_succ "."%char p in
  if sep_succ <? dot_succ
  then
    let stem := Py.take (dot_succ - 1 - sep_succ) (Py.drop sep_succ p) in
    if Py.is_empty (Py.lstrip_by (Ascii.eqb ".") stem) then ""
    else Py.drop (dot_succ - 1) p
  else "".

Definition isabs (p : string) : bool := Py.startswith p "/".

(** [posixpath.abspath(p)], with the working directory as a parameter. *)
Definition abspath (cwd p : string) : string :=
  if isabs p then normpath p else normpath (join cwd p).

Fixpoint common_prefix_len (a b : list string) : nat :=
  match a, b with
  | x :: a', y :: b' =>
      if bool_decide (x = y) then S (common_prefix_len a' b') else 0
  | _, _ => 0
  end.

Definition path_list (cwd p : string) : list string :=
  let tail := Py.lstrip_by (Ascii.eqb sep) (abspath cwd p) in
  if Py.is_empty tail then [] else Py.split sep tail.

(** [posixpath.relpath(path, start)] for a non-empty [path]. *)
Definition relpath (cwd path start : string) : string :=
  let start_list := path_list cwd start in
  let plist := path_list cwd path in
  let i := common_prefix_len start_list plist in
  let rel_list := replicate (length start_list - i) ".." ++ list.drop i plist in
  match rel_list with
  | [] => "."
  | _ => Py.join "/" rel_list
  end.

End posixpath.

(** ** Exceptions

    A call either returns a value or raises.  Every exception class met in
    the module derives from [Exception], which is what its handlers catch. *)
Inductive exn : Type :=
  | KeyError (key : string)
  | ParseError
  | ValueError
  | RecursionError.

Inductive outcome (A : Type) : Type :=
  | Ok (a : A)
  | Raise (e : exn).
Arguments Ok {A} a.
Arguments Raise {A} e.

Global Instance outcome_ret : MRet outcome := fun _ a => Ok a.
Global Instance outcome_bind : MBind outcome := fun _ _ k m =>
  match m with
  | Ok a => k a
  | Raise e => Raise e
  end.

(** [try: m except Exception: h] *)
Definition try_except {A} (m : outcome A) (h : outcome A) : outcome A :=
  match m with
  | Ok a => Ok a
  | Raise _ => h
  end.

(** [[f(x) for x in l]] where [f] may raise: the first failure ends the
    comprehension. *)
Fixpoint omapM {A B} (f : A -> outcome B) (l : list A) : outcome (list B) :=
  match l with
  | [] => Ok []
  | x :: r => y ← f x; ys ← omapM f r; Ok (y :: ys)
  end.

(** A loop whose body may raise, threading an accumulator. *)
Fixpoint ofoldM {A S} (f : S -> A -> outcome S) (s : S) (l : list A) : outcome S :=
  match l with
  | [] => Ok s
  | x :: r => s' ← f s x; ofoldM f s' r
  end.

(** ** Python [dict] with string keys

    Insertion order is observable through iteration: assigning to a key
    that is present keeps its position, a new key goes to the end. *)
Module PyDict.

Definition t (V : Type) : Type := list (string * V).

Fixpoint get {V} (d : t V) (k : string) : option V :=
  match d with
  | [] => None
  | (k', v) :: r => if bool_decide (k' = k) then Some v else get r k
  end.

Fixpoint set {V} (d : t V) (k : string) (v : V) : t V :=
  match d with
  | [] => [(k, v)]
  | (k', v') :: r =>
      if bool_decide (k' = k) then (k, v) :: r else (k', v') :: set r k v
  end.

Definition keys {V} (d : t V) : list string := d.*1.
Definition items {V} (d : t V) : list (string * V) := d.
Definition mem {V} (d : t V) (k : string) : bool := bool_decide (is_Some (get d k)).

End PyDict.

(** ** Element trees ([xml.etree.ElementTree])

    A tag is the universal name ["{uri}local"]; [text] is [None] when the
    element has no character data before its first child. *)
Module ET.

#[warnings="-register-all"]
Inductive Element : Type :=
  mkElement {
    tag : string;
    attrib : gmap string string;
    text : option string;
    children : list Element
  }.

(** Document order below [e], [e] itself excluded. *)
Fixpoint descendants (e : Element) : list Element :=
  (fix go (l : list Element) : list Element :=
     match l with
     | [] => []
     | c :: r => c :: descendants c ++ go r
     end) (children e).

Definition has_tag (name : string) (e : Element) : bool :=
  bool_decide (tag e = name).

(** [e.findall("p:name")] and [e.find("p:name")]: direct children. *)
Definition findall (e : Element) (name : string) : list Element :=
  List.filter (has_tag name) (children e).
Definition find (e : Element) (name : string) : option Element :=
  head (findall e name).

(** [e.findall(".//p:name")] and [e.find(".//p:name")]: all levels. *)
Definition findall_desc (e : Element) (name : string) : list Element :=
  List.filter (has_tag name) (descendants e).
Definition find_desc (e : Element) (name : string) : option Element :=
  head (findall_desc e name).

End ET.
Import ET.

(** The [NAMESPACES] table; [qn ns local] is the name that the prefixed
    path [p:local] denotes. *)
Module NAMESPACES.
Definition xdr : string := "http://schemas.openxmlformats.org/drawingml/2006/spreadsheetDrawing".
Definition a : string := "http://schemas.openxmlformats.org/drawingml/2006/main".
Definition r : string := "http://schemas.openxmlformats.org/officeDocument/2006/relationships".
Definition dgm : string := "http://schemas.openxmlformats.org/drawingml/2006/diagram".
Definition c : string := "http://schemas.openxmlformats.org/drawingml/2006/chart".
Definition s : string := "http://schemas.openxmlformats.org/spreadsheetml/2006/main".
Definition pr : string := "http://schemas.openxmlformats.org/package/2006/relationships".
End NAMESPACES.

Definition qn (ns local : string) : string := "{" +:+ ns +:+ "}" +:+ local.

(** ** The records of the module *)

(** The dict [{"col": .., "colOff": .., "row": .., "rowOff": ..}]. *)
Module Anchor.
Record t : Type := mk { col : Z; colOff : Z; row : Z; rowOff : Z }.
Definition zero : t := mk 0 0 0 0.
End Anchor.

Module ImageInfo.
Record t : Type := mk {
  sheet_name : string;
  image_filename : string;
  original_part : string;
  anchor : Anchor.t
}.
End ImageInfo.

Module ShapeText.
Record t : Type := mk {
  sheet_name : string;
  text : string;
  anchor : Anchor.t
}.
End ShapeText.

Module SmartArtNode.
#[warnings="-register-all"]
Inductive t : Type := mk {
  id : string;
  text : string;
  children : list t
}.
End SmartArtNode.

(** One entry of the cell-value reader: [{"cell": .., "text": ..}]. *)
Record CellText : Type := mkCellText { cell : string; cell_text : string }.

(** The per-sheet entry and the whole document built by [process_excel].
    The [text_content] and [links] placeholders of the document and the
    [hierarchy] placeholder of a sheet are constant and left out. *)
Record SheetEntry : Type := mkSheetEntry {
  name : string;
  text_content : list CellText;
  images : list ImageInfo.t;
  shapes_text : list ShapeText.t;
  smartart : list SmartArtNode.t;
  structure_sheet_part : string
}.

Record Metadata : Type := mkMetadata {
  filename : string;
  created : string;
  sheet_names : list string
}.

Record Result : Type := mkResult {
  result_images : list ImageInfo.t;
  result_smartart : list SmartArtNode.t;
  metadata : Metadata;
  sheets : list SheetEntry
}.

(** ** The archive and the output directory

    A member of the archive is its bytes together with the tree that
    [ET.fromstring] builds from them, [None] when the parser rejects them.
    The output side maps a path to what was last written there: copied
    bytes, the document handed to [json.dump], or text.  Reading a
    listed member and writing a file are assumed to succeed: a member
    whose stored data is corrupt and the failures of the file system are
    outside the model. *)
Definition bytes : Type := list Byte.byte.

Record member : Type := mkMember {
  content : bytes;
  tree : option Element
}.

Inductive file : Type :=
  | Binary (data : bytes)
  | Json (doc : Result)
  | Text (s : string).

Abbreviation ZipFile := (gmap string member).
Abbreviation FS := (gmap string file).

(** Code that writes files: the output directory is threaded through. *)
Definition M (A : Type) : Type := FS -> outcome A * FS.

Global Instance M_ret : MRet M := fun _ a fs => (Ok a, fs).
Global Instance M_bind : MBind M := fun _ _ k m fs =>
  match m fs with
  | (Ok a, fs') => k a fs'
  | (Raise e, fs') => (Raise e, fs')
  end.

Definition lift {A} (o : outcome A) : M A := fun fs => (o, fs).

Definition write_file (path : string) (f : file) : M unit :=
  fun fs => (Ok tt, <[path := f]> fs).

Fixpoint foldM {A S} (f : S -> A -> M S) (s : S) (l : list A) : M S :=
  match l with
  | [] => mret s
  | x :: r => s' ← f s x; foldM f s' r
  end.

Definition in_namelist (zipf : ZipFile) (path : string) : bool :=
  bool_decide (is_Some (zipf !! path)).

(** [zipf.open(path)] and [ET.fromstring(data)] *)
Definition zip_open (zipf : ZipFile) (path : string) : outcome member :=
  match zipf !! path with
  | None => Raise (KeyError path)
  | Some m => Ok m
  end.

Definition fromstring (m : member) : outcome Element :=
  match tree m with
  | Some root => Ok root
  | None => Raise ParseError
  end.

(** ** The functions of the module *)

(** [load_xml(zipf, path)] *)
Definition load_xml (zipf : ZipFile) (path : string) : outcome Element :=
  m ← zip_open zipf path;
  fromstring m.

(** [read_text_nodes(elem)] *)
Definition read_text_nodes (elem : Element) : list string :=
  omap text (findall_desc elem (qn NAMESPACES.a "t")).

(** The [while joined.startswith("./")] loop of [normalize_rel_target]. *)
Fixpoint strip_dot_slash (fuel : nat) (joined : string) : string :=
  match fuel with
  | 0 => joined
  | S f =>
      if Py.startswith joined "./" then strip_dot_slash f (Py.drop 2 joined)
      else joined
  end.

(** [normalize_rel_target(base_dir_in_zip, target)] *)
Definition normalize_rel_target (base_dir_in_zip target : string) : string :=
  let joined := posixpath.normpath (posixpath.join base_dir_in_zip target) in
  strip_dot_slash (String.length joined) joined.

(** [e.attrib.get(k, d)] and [e.attrib[k]] *)
Definition attr_or (e : Element) (k d : string) : string :=
  default d (attrib e !! k).
Definition attr_item (e : Element) (k : string) : outcome string :=
  match attrib e !! k with
  | Some v => Ok v
  | None => Raise (KeyError k)
  end.

(** [rid and rid in d] for [rid = e.attrib.get(k)] *)
Definition present_in {V} (rid : option string) (d : PyDict.t V) : option (string * V) :=
  match rid with
  | Some r =>
      if Py.truthy r
      then match PyDict.get d r with Some v => Some (r, v) | None => None end
      else None
  | None => None
  end.

(** [parse_workbook_sheets(zipf)] *)
Definition parse_workbook_sheets (zipf : ZipFile) : outcome (list (string * string)) :=
  workbook_root ← load_xml zipf "xl/workbook.xml";
  rels_root ← load_xml zipf "xl/_rels/workbook.xml.rels";
  rid_to_target ←
    ofoldM (fun (d : PyDict.t string) rel =>
              if Py.endswith (attr_or rel "Type" "") "/worksheet"
              then
                let target_path := normalize_rel_target "xl" (attr_or rel "Target" "") in
                rid ← attr_item rel "Id";
                Ok (PyDict.set d rid target_path)
              else Ok d)
           [] (findall_desc rels_root (qn NAMESPACES.pr "Relationship"));
  Ok (omap (fun sheet =>
              let name := attr_or sheet "name" "Sheet" in
              match present_in (attrib sheet !! qn NAMESPACES.r "id") rid_to_target with
              | Some (_, target) => Some (name, posixpath.normpath target)
              | None => None
              end)
           (findall_desc workbook_root (qn NAMESPACES.s "sheet"))).

(** A relationship entry: the dict [{"Type": .., "Target": ..}]. *)
Record rel : Type := mkRel { Type_ : string; Target : string }.

(** The loop shared by [read_sheet_relationships] and [read_rels]. *)
Definition load_rels (zipf : ZipFile) (rels_path : string) : outcome (PyDict.t rel) :=
  if in_namelist zipf rels_path
  then
    root ← load_xml zipf rels_path;
    ofoldM (fun (rels : PyDict.t rel) r =>
              rid ← attr_item r "Id";
              Ok (PyDict.set rels rid
                    (mkRel (attr_or r "Type" "") (attr_or r "Target" ""))))
           [] (findall_desc root (qn NAMESPACES.pr "Relationship"))
  else Ok [].

(** [read_sheet_relationships(zipf, sheet_path)] *)
Definition read_sheet_relationships (zipf : ZipFile) (sheet_path : string)
    : outcome (PyDict.t rel) :=
  let rels_dir := Py.replace (posixpath.dirname sheet_path)
                    "xl/worksheets" "xl/worksheets/_rels" in
  let rels_filename := posixpath.basename sheet_path +:+ ".rels" in
  load_rels zipf (posixpath.join rels_dir rels_filename).

(** [read_rels(zipf, part_path)] *)
Definition read_rels (zipf : ZipFile) (part_path : string) : outcome (PyDict.t rel) :=
  let base_dir := posixpath.dirname part_path in
  let rels_dir := posixpath.join base_dir "_rels" in
  load_rels zipf (posixpath.join rels_dir (posixpath.basename part_path +:+ ".rels")).

(** [int(text)], raising [ValueError] *)
Definition py_int (s : string) : outcome Z :=
  match Py.int_of_str s with
  | Some z => Ok z
  | None => Raise ValueError
  end.

(** [read_child(name)] inside [extract_anchor] *)
Definition read_child (from_elem : Element) (name : string) : outcome Z :=
  match find from_elem (qn NAMESPACES.xdr name) with
  | None => Ok 0%Z
  | Some child =>
      match text child with
      | None => Ok 0%Z
      | Some t => try_except (py_int t) (Ok 0%Z)
      end
  end.

Definition read_pos (from_elem : Element) : outcome Anchor.t :=
  col ← read_child from_elem "col";
  colOff ← read_child from_elem "colOff";
  row ← read_child from_elem "row";
  rowOff ← read_child from_elem "rowOff";
  Ok (Anchor.mk col colOff row rowOff).

(** [extract_anchor(anchor_elem)] *)
Definition extract_anchor (anchor_elem : Element) : outcome Anchor.t :=
  match find anchor_elem (qn NAMESPACES.xdr "from") with
  | Some from_pos => read_pos from_pos
  | None => Ok (Anchor.mk 0 0 0 0)
  end.

(** [" ".join(t.strip() for t in texts).strip()] *)
Definition join_stripped (texts : list string) : string :=
  Py.strip (Py.join " " (Py.strip <$> texts)).

(** [re.sub(r"[^A-Za-z0-9_-]+", "_", sheet_name)] *)
Definition safe_char (c : ascii) : bool :=
  Py.is_upper_az c || Py.is_lower_az c || Py.is_digit c
  || Ascii.eqb c "_" || Ascii.eqb c "-".
Definition safe_sheet_of (sheet_name : string) : string :=
  Py.sub_runs safe_char "_" false sheet_name.

Definition smartart_ref : Type := Anchor.t * string * string.

(** The variables that the anchor loop of [extract_images_and_shapes]
    updates. *)
Record loop_vars : Type := mkVars {
  image_counter : nat;
  images_acc : list ImageInfo.t;
  shapes_acc : list ShapeText.t;
  smartart_refs_acc : list smartart_ref
}.

(** [iter_anchors()]: the two-cell anchors first, then the one-cell ones. *)
Definition iter_anchors (drawing_root : Element) : list Element :=
  findall drawing_root (qn NAMESPACES.xdr "twoCellAnchor")
  ++ findall drawing_root (qn NAMESPACES.xdr "oneCellAnchor").

(** The [for key in ("lo", "qs", "cs")] loop. *)
Definition fallback_refs (rels : PyDict.t rel) (base_dir_in_zip : string)
    (anchor_pos : Anchor.t) (rel_ids : Element) (refs : list smartart_ref)
    : list smartart_ref :=
  foldl (fun refs key =>
           match present_in (attrib rel_ids !! qn NAMESPACES.r key) rels with
           | Some (rid, rl) =>
               refs ++ [(anchor_pos, rid,
                         normalize_rel_target base_dir_in_zip (Target rl))]
           | None => refs
           end)
        refs ["lo"; "qs"; "cs"].

(** The body of the anchor loop. *)
Definition anchor_body (cwd : string) (zipf : ZipFile) (rels : PyDict.t rel)
    (base_dir_in_zip output_images_dir sheet_name : string)
    (v : loop_vars) (anchor : Element) : M loop_vars :=
  anchor_pos ← lift (extract_anchor anchor);
  match find anchor (qn NAMESPACES.xdr "pic") with
  | Some pic =>
      match find_desc pic (qn NAMESPACES.a "blip") with
      | Some blip =>
          match present_in (attrib blip !! qn NAMESPACES.r "embed") rels with
          | Some (rid, rl) =>
              let part_in_zip := normalize_rel_target base_dir_in_zip (Target rl) in
              if in_namelist zipf part_in_zip
              then
                let image_counter := S (image_counter v) in
                let ext :=
                  let e := posixpath.splitext_ext part_in_zip in
                  if Py.truthy e then e else ".bin" in
                let safe_sheet := safe_sheet_of sheet_name in
                let out_name :=
                  safe_sheet +:+ "_img_" +:+ Py.str_of_nat image_counter +:+ ext in
                let out_path := posixpath.join output_images_dir out_name in
                src ← lift (zip_open zipf part_in_zip);
                _ ← write_file out_path (Binary (content src));
                mret (mkVars image_counter
                        (images_acc v ++
                           [ImageInfo.mk sheet_name
                              (posixpath.relpath cwd out_path
                                 (posixpath.dirname output_images_dir))
                              part_in_zip anchor_pos])
                        (shapes_acc v) (smartart_refs_acc v))
              else mret v
          | None => mret v
          end
      | None => mret v
      end
  | None =>
      match find anchor (qn NAMESPACES.xdr "sp") with
      | Some sp =>
          match find sp (qn NAMESPACES.xdr "txBody") with
          | Some tx_body =>
              let text_content := join_stripped (read_text_nodes tx_body) in
              if Py.truthy text_content
              then mret (mkVars (image_counter v) (images_acc v)
                           (shapes_acc v ++
                              [ShapeText.mk sheet_name text_content anchor_pos])
                           (smartart_refs_acc v))
              else mret v
          | None => mret v
          end
      | None =>
          match find anchor (qn NAMESPACES.xdr "graphicFrame") with
          | Some gframe =>
              match find_desc gframe (qn NAMESPACES.a "graphicData") with
              | Some gdata =>
                  if Py.endswith (attr_or gdata "uri" "") "/diagram"
                  then
                    match find gdata (qn NAMESPACES.dgm "relIds") with
                    | Some rel_ids =>
                        let refs :=
                          match present_in (attrib rel_ids !! qn NAMESPACES.r "dm") rels with
                          | Some (dm_rid, rl) =>
                              smartart_refs_acc v ++
                                [(anchor_pos, dm_rid,
                                  normalize_rel_target base_dir_in_zip (Target rl))]
                          | None => smartart_refs_acc v
                          end in
                        mret (mkVars (image_counter v) (images_acc v) (shapes_acc v)
                                (fallback_refs rels base_dir_in_zip anchor_pos rel_ids refs))
                    | None => mret v
                    end
                  else mret v
              | None => mret v
              end
          | None => mret v
          end
      end
  end.

(** [extract_images_and_shapes(zipf, drawing_path, output_images_dir, sheet_name)] *)
Definition extract_images_and_shapes (cwd : string) (zipf : ZipFile)
    (drawing_path output_images_dir sheet_name : string)
    : M (list ImageInfo.t * list ShapeText.t * list smartart_ref) :=
  drawing_root ← lift (load_xml zipf drawing_path);
  rels ← lift (read_rels zipf drawing_path);
  let base_dir_in_zip := posixpath.dirname drawing_path in
  v ← foldM (anchor_body cwd zipf rels base_dir_in_zip output_images_dir sheet_name)
        (mkVars 0 [] [] []) (iter_anchors drawing_root);
  mret (images_acc v, shapes_acc v, smartart_refs_acc v).

(** The text of one point in [build_smartart_hierarchy]. *)
Definition point_text (pt : Element) : string :=
  let text_value := join_stripped (read_text_nodes pt) in
  if Py.truthy text_value then text_value
  else
    match find pt (qn NAMESPACES.dgm "prSet") with
    | Some pr =>
        match attrib pr !! "name" with
        | Some name_attr => if Py.truthy name_attr then name_attr else text_value
        | None => text_value
        end
    | None => text_value
    end.

(** The points loop: [id_to_text]. *)
Definition read_points (root : Element) : PyDict.t string :=
  foldl (fun id_to_text pt =>
           let model_id := attr_or pt "modelId" "" in
           if Py.truthy model_id
           then PyDict.set id_to_text model_id (point_text pt)
           else id_to_text)
        [] (findall_desc root (qn NAMESPACES.dgm "pt")).

(** The source and destination of a connection that has both. *)
Definition cxn_edge (cxn : Element) : option (string * string) :=
  match attrib cxn !! "srcId", attrib cxn !! "destId" with
  | Some src, Some dst =>
      if Py.truthy src && Py.truthy dst then Some (src, dst) else None
  | _, _ => None
  end.

(** The body of the connections loop on [children_map] and [indegree]. *)
Definition add_connection (acc : gmap string (list string) * gmap string nat)
    (cxn : Element) : gmap string (list string) * gmap string nat :=
  let '(children_map, indegree) := acc in
  match cxn_edge cxn with
  | Some (src, dst) =>
      let children_map :=
        <[src := default [] (children_map !! src) ++ [dst]]> children_map in
      let indegree :=
        <[dst := S (default 0 (indegree !! dst))]> indegree in
      let indegree :=
        match indegree !! src with
        | Some _ => indegree
        | None => <[src := 0]> indegree
        end in
      (children_map, indegree)
  | None => (children_map, indegree)
  end.

Definition read_connections (root : Element)
    : gmap string (list string) * gmap string nat :=
  foldl add_connection (∅, ∅) (findall_desc root (qn NAMESPACES.dgm "cxn")).

(** [build_node(node_id)]; [depth] is the number of nested calls that the
    interpreter still allows, and running out of it is [RecursionError]. *)
Fixpoint build_node (id_to_text : PyDict.t string)
    (children_map : gmap string (list string))
    (depth : nat) (node_id : string) : outcome SmartArtNode.t :=
  match depth with
  | 0 => Raise RecursionError
  | S d =>
      let text := default "" (PyDict.get id_to_text node_id) in
      let child_ids := default [] (children_map !! node_id) in
      children ← omapM (build_node id_to_text children_map d) child_ids;
      Ok (SmartArtNode.mk node_id text children)
  end.

Definition roots_of (id_to_text : PyDict.t string) (indegree : gmap string nat)
    : list string :=
  List.filter (fun node_id => default 0 (indegree !! node_id) =? 0)
    (PyDict.keys id_to_text).

(** [build_smartart_hierarchy(zipf, data_model_path)] *)
Definition build_smartart_hierarchy (depth : nat) (zipf : ZipFile)
    (data_model_path : string) : outcome (list SmartArtNode.t) :=
  root ← load_xml zipf data_model_path;
  let id_to_text := read_points root in
  let '(children_map, indegree) := read_connections root in
  let roots := roots_of id_to_text indegree in
  match roots with
  | _ :: _ => omapM (build_node id_to_text children_map depth) roots
  | [] => omapM (build_node id_to_text children_map depth) (PyDict.keys id_to_text)
  end.

(** ** Rendering *)

Definition nl : string := String (ascii_of_nat 10) "".

(** [re.sub(r"[^a-z0-9]+", "-", sheet_name.lower()).strip("-")] *)
Definition slug (sheet_name : string) : string :=
  Py.strip_char "-"
    (Py.sub_runs (fun c => Py.is_lower_az c || Py.is_digit c) "-" false
       (Py.lower sheet_name)).

(** ["  " * depth] *)
Fixpoint indent (depth : nat) : string :=
  match depth with
  | 0 => ""
  | S d => "  " +:+ indent d
  end.

(** [walk(nodes, depth)] inside [generate_markdown] *)
Fixpoint walk_node (depth : nat) (node : SmartArtNode.t) : list string :=
  let bullet := indent depth +:+ "- " in
  let stripped := Py.strip (SmartArtNode.text node) in
  let text :=
    if Py.truthy stripped then stripped
    else "(id: " +:+ SmartArtNode.id node +:+ ")" in
  (bullet +:+ text)
    :: (fix walk (nodes : list SmartArtNode.t) : list string :=
          match nodes with
          | [] => []
          | n :: r => walk_node (S depth) n ++ walk r
          end) (SmartArtNode.children node).

Definition walk (nodes : list SmartArtNode.t) (depth : nat) : list string :=
  flat_map (walk_node depth) nodes.

Definition row_col (a : Anchor.t) (between : string) : string :=
  "r" +:+ Py.str_of_Z (Anchor.row a) +:+ between +:+ "c" +:+ Py.str_of_Z (Anchor.col a).

(** The lines that one sheet adds in the second loop. *)
Definition sheet_lines (sheet : SheetEntry) : list string :=
  ["## " +:+ name sheet]
  ++ (match text_content sheet with
      | [] => []
      | cell_texts =>
          [""; "### Cell Text"]
          ++ ((fun item => "- " +:+ cell item +:+ ": " +:+ cell_text item) <$> cell_texts)
      end)
  ++ (match shapes_text sheet with
      | [] => []
      | shapes =>
          [""; "### Shapes Text"]
          ++ ((fun st => "- (" +:+ row_col (ShapeText.anchor st) ", " +:+ "): "
                          +:+ ShapeText.text st) <$> shapes)
      end)
  ++ (match images sheet with
      | [] => []
      | ims =>
          [""; "### Images"]
          ++ ((fun im => "![Image at " +:+ row_col (ImageInfo.anchor im) " "
                          +:+ "](" +:+ ImageInfo.image_filename im +:+ ")") <$> ims)
      end)
  ++ (match smartart sheet with
      | [] => []
      | smartarts => [""; "### SmartArt"] ++ walk smartarts 0
      end)
  ++ [""].

(** [generate_markdown(output_json)]; [now] is the clock reading formatted
    by [strftime('%Y-%m-%d %H:%M:%S')]. *)
Definition generate_markdown (now : string) (output_json : Result) : string :=
  let lines :=
    ["# Excel to Markdown Conversion"; "Generated on: " +:+ now; "";
     "## Table of Contents"]
    ++ ((fun sheet => "- [" +:+ name sheet +:+ "](#" +:+ slug (name sheet) +:+ ")")
          <$> sheets output_json)
    ++ [""]
    ++ flat_map sheet_lines (sheets output_json) in
  Py.rstrip (Py.join nl lines) +:+ nl.

(** ** Aggregation *)

(** What the loops of [process_excel] accumulate: the two rollups of the
    document and the entry of the sheet at hand. *)
Record agg : Type := mkAgg {
  all_images : list ImageInfo.t;
  all_smartart : list SmartArtNode.t;
  sheet_entry : SheetEntry
}.

(** The [for anchor, rid, data_model_path in smartart_refs] loop. *)
Definition smartart_loop (depth : nat) (zipf : ZipFile)
    (refs : list smartart_ref) (acc : list SmartArtNode.t) : list SmartArtNode.t :=
  foldl (fun acc '(_, _, data_model_path) =>
           match build_smartart_hierarchy depth zipf data_model_path with
           | Ok nodes => acc ++ nodes
           | Raise _ => acc
           end)
        acc refs.

(** The body of the [for rel_id, rel in s_rels.items()] loop. *)
Definition drawing_body (cwd : string) (depth : nat) (zipf : ZipFile)
    (images_dir sheet_name sheet_part : string)
    (acc : agg) (item : string * rel) : M agg :=
  let rl := item.2 in
  if Py.endswith (Type_ rl) "/drawing"
  then
    let drawing_part :=
      posixpath.normpath
        (Py.replace (normalize_rel_target (posixpath.dirname sheet_part) (Target rl))
           "worksheets/../" "xl/") in
    if in_namelist zipf drawing_part
    then
      '(ims, shape_texts, smartart_refs) ←
        extract_images_and_shapes cwd zipf drawing_part images_dir sheet_name;
      let e := sheet_entry acc in
      mret (mkAgg (all_images acc ++ ims)
              (smartart_loop depth zipf smartart_refs (all_smartart acc))
              (mkSheetEntry (name e) (text_content e)
                 (images e ++ ims)
                 (shapes_text e ++ shape_texts)
                 (smartart_loop depth zipf smartart_refs (smartart e))
                 (structure_sheet_part e)))
    else mret acc
  else mret acc.

(** The body of the [for sheet_name, sheet_part in sheets] loop. *)
Definition sheet_body (cwd : string) (depth : nat) (zipf : ZipFile)
    (cells_by_sheet : gmap string (list CellText)) (images_dir : string)
    (acc : list ImageInfo.t * list SmartArtNode.t * list SheetEntry)
    (sheet : string * string) : M (list ImageInfo.t * list SmartArtNode.t * list SheetEntry) :=
  let '(sheet_name, sheet_part) := sheet in
  let '(ims, arts, entries) := acc in
  let entry :=
    mkSheetEntry sheet_name (default [] (cells_by_sheet !! sheet_name))
      [] [] [] sheet_part in
  s_rels ← lift (read_sheet_relationships zipf sheet_part);
  a ← foldM (drawing_body cwd depth zipf images_dir sheet_name sheet_part)
        (mkAgg ims arts entry) (PyDict.items s_rels);
  mret (all_images a, all_smartart a, entries ++ [sheet_entry a]).

(** [process_excel(input_path, output_dir)].  The archive is the opened
    input file, [cells_by_sheet] what the cell-value reader returned for
    it, [now] the clock reading in ISO format, [depth] the call depth
    left to [build_node]. *)
Definition process_excel (cwd : string) (depth : nat) (now : string)
    (cells_by_sheet : gmap string (list CellText)) (zipf : ZipFile)
    (input_path output_dir : string) : M Result :=
  let images_dir := posixpath.join output_dir "images" in
  let sheets :=
    match parse_workbook_sheets zipf with
    | Ok sheets => sheets
    | Raise _ => [("Sheet1", "xl/worksheets/sheet1.xml")]
    end in
  '(ims, arts, entries) ←
    foldM (sheet_body cwd depth zipf cells_by_sheet images_dir) ([], [], []) sheets;
  mret (mkResult ims arts
          (mkMetadata (posixpath.basename input_path) now sheets.*1)
          entries).

(** [main()] after the arguments are parsed and the input file is found:
    [now_iso] and [now_fmt] are the two clock readings. *)
Definition main (cwd : string) (depth : nat) (now_iso now_fmt : string)
    (cells_by_sheet : gmap string (list CellText)) (zipf : ZipFile)
    (input_path output_dir : string) : M Z :=
  data ← process_excel cwd depth now_iso cells_by_sheet zipf input_path output_dir;
  _ ← write_file (posixpath.join output_dir "extracted_data.json") (Json data);
  _ ← write_file (posixpath.join output_dir "converted.md")
        (Text (generate_markdown now_fmt data));
  mret 0%Z.

(** ** Vocabulary of the statements

    What one anchor contributes, read off the drawing alone. *)

(** The position of an anchor once [extract_anchor] has returned. *)
Definition anchor_pos_of (anchor : Element) : Anchor.t :=
  match extract_anchor anchor with
  | Ok pos => pos
  | Raise _ => Anchor.zero
  end.

(** A positional field of the anchor is missing: the [from] element, the
    child of that name, or the child's text is absent. *)
Definition missing_field (anchor_elem : Element) (field : string) : Prop :=
  forall from_pos child t,
    find anchor_elem (qn NAMESPACES.xdr "from") = Some from_pos ->
    find from_pos (qn NAMESPACES.xdr field) = Some child ->
    text child <> Some t.

(** The media part of a picture anchor whose relationship resolves to a
    member of the archive. *)
Definition picture_part (zipf : ZipFile) (rels : PyDict.t rel)
    (base_dir_in_zip : string) (anchor : Element) : option string :=
  pic ← find anchor (qn NAMESPACES.xdr "pic");
  blip ← find_desc pic (qn NAMESPACES.a "blip");
  '(_, rl) ← present_in (attrib blip !! qn NAMESPACES.r "embed") rels;
  let part := normalize_rel_target base_dir_in_zip (Target rl) in
  if in_namelist zipf part then Some part else None.

(** The text body of a shape anchor (an anchor without picture). *)
Definition shape_body (anchor : Element) : option Element :=
  match find anchor (qn NAMESPACES.xdr "pic") with
  | Some _ => None
  | None =>
      sp ← find anchor (qn NAMESPACES.xdr "sp");
      find sp (qn NAMESPACES.xdr "txBody")
  end.

(** The [relIds] element of a graphic frame that references a diagram. *)
Definition frame_rel_ids (anchor : Element) : option Element :=
  match find anchor (qn NAMESPACES.xdr "pic"), find anchor (qn NAMESPACES.xdr "sp") with
  | None, None =>
      gframe ← find anchor (qn NAMESPACES.xdr "graphicFrame");
      gdata ← find_desc gframe (qn NAMESPACES.a "graphicData");
      if Py.endswith (attr_or gdata "uri" "") "/diagram"
      then find gdata (qn NAMESPACES.dgm "relIds")
      else None
  | _, _ => None
  end.

(** The reference that one relationship id of a [relIds] element yields. *)
Definition key_ref (rels : PyDict.t rel) (base_dir_in_zip : string)
    (anchor_pos : Anchor.t) (rel_ids : Element) (key : string) : list smartart_ref :=
  match present_in (attrib rel_ids !! qn NAMESPACES.r key) rels with
  | Some (rid, rl) =>
      [(anchor_pos, rid, normalize_rel_target base_dir_in_zip (Target rl))]
  | None => []
  end.

(** The name under which the [counter]-th image of a drawing is saved. *)
Definition image_ext (part_in_zip : string) : string :=
  let e := posixpath.splitext_ext part_in_zip in
  if Py.truthy e then e else ".bin".
Definition image_out_name (sheet_name : string) (counter : nat) (part_in_zip : string)
    : string :=
  safe_sheet_of sheet_name +:+ "_img_" +:+ Py.str_of_nat counter +:+ image_ext part_in_zip.

(** The images that the anchors [l] save when [counter] images were saved
    before them: counter value, media part and anchor of each. *)
Fixpoint saved_images (zipf : ZipFile) (rels : PyDict.t rel) (base_dir_in_zip : string)
    (counter : nat) (l : list Element) : list (nat * string * Element) :=
  match l with
  | [] => []
  | anchor :: r =>
      match picture_part zipf rels base_dir_in_zip anchor with
      | Some part =>
          (S counter, part, anchor)
            :: saved_images zipf rels base_dir_in_zip (S counter) r
      | None => saved_images zipf rels base_dir_in_zip counter r
      end
  end.

Definition image_path (output_images_dir sheet_name : string)
    (w : nat * string * Element) : string :=
  posixpath.join output_images_dir (image_out_name sheet_name w.1.1 w.1.2).

Definition image_info (cwd output_images_dir sheet_name : string)
    (w : nat * string * Element) : ImageInfo.t :=
  ImageInfo.mk sheet_name
    (posixpath.relpath cwd (image_path output_images_dir sheet_name w)
       (posixpath.dirname output_images_dir))
    w.1.2 (anchor_pos_of w.2).

Definition copy_image (zipf : ZipFile) (output_images_dir sheet_name : string)
    (fs : FS) (w : nat * string * Element) : FS :=
  match zipf !! w.1.2 with
  | Some m => <[image_path output_images_dir sheet_name w := Binary (content m)]> fs
  | None => fs
  end.

(** The item that a shape anchor yields. *)
Definition shape_item (sheet_name : string) (anchor : Element) : option ShapeText.t :=
  tx_body ← shape_body anchor;
  let text_content := join_stripped (read_text_nodes tx_body) in
  if Py.truthy text_content
  then Some (ShapeText.mk sheet_name text_content (anchor_pos_of anchor))
  else None.

(** The references that a diagram frame yields. *)
Definition frame_refs (rels : PyDict.t rel) (base_dir_in_zip : string)
    (anchor : Element) : list smartart_ref :=
  match frame_rel_ids anchor with
  | Some rel_ids =>
      flat_map (key_ref rels base_dir_in_zip (anchor_pos_of anchor) rel_ids)
        ["dm"; "lo"; "qs"; "cs"]
  | None => []
  end.

(** The known point ids of a data model, in document order, and its
    directed edges, in connection order. *)
Definition points (root : Element) : list string :=
  PyDict.keys (read_points root).
Definition edges (root : Element) : list (string * string) :=
  omap cxn_edge (findall_desc root (qn NAMESPACES.dgm "cxn")).

(** The destinations of the edges that leave [src], in connection order. *)
Definition successors (root : Element) (src : string) : list string :=
  (List.filter (fun e => bool_decide (e.1 = src)) (edges root)).*2.

(** A component that [normpath] keeps, and a component list as [normpath]
    leaves it: [..] only in front, and not at all below a root. *)
Definition plain_comp (comp : string) : Prop :=
  comp <> "" /\ comp <> "." /\ Py.contains "/" comp = false.
Definition normal_comps (initial_slashes : nat) (comps : list string) : Prop :=
  Forall plain_comp comps
  /\ exists k rest,
       comps = replicate k ".." ++ rest
       /\ (".." ∉ rest)
       /\ (initial_slashes <> 0 -> k = 0).

(** The path that [normpath] writes from the number of leading slashes
    and the components it kept. *)
Definition written_path (initial_slashes : nat) (comps : list string) : string :=
  let path := posixpath.slashes initial_slashes +:+ Py.join "/" comps in
  if Py.is_empty path then "." else path.

(** The segments of a path. *)
Definition segments (path : string) : list string := Py.split "/" path.

(** The drawing part that a relationship of a sheet designates, and the
    relationships that the drawing loop of [process_excel] acts on. *)
Definition drawing_part_of (sheet_part : string) (rl : rel) : string :=
  posixpath.normpath
    (Py.replace (normalize_rel_target (posixpath.dirname sheet_part) (Target rl))
       "worksheets/../" "xl/").
Definition is_drawing_rel (zipf : ZipFile) (sheet_part : string)
    (item : string * rel) : bool :=
  Py.endswith (Type_ item.2) "/drawing"
  && in_namelist zipf (drawing_part_of sheet_part item.2).

(** A computation whose outcome does not depend on what the output
    directory holds. *)
Definition fs_independent {A} (m : M A) : Prop :=
  forall fs fs', (m fs).1 = (m fs').1.

(** The document with another creation time, the two files that [main]
    writes, and the head of the Markdown file up to the clock reading. *)
Definition with_created (now : string) (doc : Result) : Result :=
  mkResult (result_images doc) (result_smartart doc)
    (mkMetadata (filename (metadata doc)) now (sheet_names (metadata doc)))
    (sheets doc).
Definition json_path (output_dir : string) : string :=
  posixpath.join output_dir "extracted_data.json".
Definition md_path (output_dir : string) : string :=
  posixpath.join output_dir "converted.md".
Definition md_head : string :=
  "# Excel to Markdown Conversion" +:+ nl +:+ "Generated on: ".

(** The connections as a relation on ids, and the ids from which
    [build_smartart_hierarchy] starts: the roots, or every point when
    there is no root. *)
Definition edge (root : Element) (src dst : string) : Prop :=
  (src, dst) ∈ edges root.
Definition start_ids (root : Element) : list string :=
  match roots_of (read_points root) (read_connections root).2 with
  | [] => points root
  | roots => roots
  end.

(** A computation that writes only to paths in [allowed], whatever its
    outcome. *)
Definition only_writes {A} (allowed : string -> Prop) (m : M A) : Prop :=
  forall fs o fs', m fs = (o, fs') ->
    forall path, ~ allowed path -> fs' !! path = fs !! path.

(** The relationship elements of a relationships part, and the last one
    that carries a given id. *)
Definition relationship_elements (root : Element) : list Element :=
  findall_desc root (qn NAMESPACES.pr "Relationship").
Definition last_with_id (elems : list Element) (rid : string) : option Element :=
  last (List.filter (fun e => bool_decide (attrib e !! "Id" = Some rid)) elems).

(** A file directly inside the images directory. *)
Definition in_images_dir (images_dir path : string) : Prop :=
  exists file_name,
    Py.contains "/" file_name = false /\ path = posixpath.join images_dir file_name.

(** The entry that a relationship element yields, and the relationships
    part that [read_rels] looks for. *)
Definition rel_of_element (e : Element) : rel :=
  mkRel (attr_or e "Type" "") (attr_or e "Target" "").
Definition rels_path_of (part_path : string) : string :=
  posixpath.join (posixpath.join (posixpath.dirname part_path) "_rels")
    (posixpath.basename part_path +:+ ".rels").

(** The sheet elements of the workbook part and the relationships of the
    worksheet type. *)
Definition sheet_elements (workbook_root : Element) : list Element :=
  findall_desc workbook_root (qn NAMESPACES.s "sheet").
Definition is_worksheet_rel (e : Element) : bool :=
  Py.endswith (attr_or e "Type" "") "/worksheet".

(** Every node of a tree, the root first. *)
Fixpoint all_nodes (n : SmartArtNode.t) : list SmartArtNode.t :=
  n :: (fix go (l : list SmartArtNode.t) : list SmartArtNode.t :=
          match l with
          | [] => []
          | c :: r => all_nodes c ++ go r
          end) (SmartArtNode.children n).

(** An id from which the connections lead into a cycle. *)
Definition reaches_cycle (root : Element) (node_id : string) : Prop :=
  exists x, rtc (edge root) node_id x /\ tc (edge root) x x.

(** The sheets that [process_excel] goes through: those of the workbook
    part, or the default mapping when the workbook cannot be read. *)
Definition discovered_sheets (zipf : ZipFile) : list (string * string) :=
  match parse_workbook_sheets zipf with
  | Ok sheets => sheets
  | Raise _ => [("Sheet1", "xl/worksheets/sheet1.xml")]
  end.

(** The entry of the document that belongs to a sheet [(name, part)]. *)
Definition entry_of (cells_by_sheet : gmap string (list CellText))
    (sheet : string * string) (entry : SheetEntry) : Prop :=
  name entry = sheet.1
  /\ structure_sheet_part entry = sheet.2
  /\ text_content entry = default [] (cells_by_sheet !! sheet.1)
  /\ Forall (fun im => ImageInfo.sheet_name im = sheet.1) (images entry)
  /\ Forall (fun st => ShapeText.sheet_name st = sheet.1) (shapes_text entry).

(** [pos[field]] for the dict that [extract_anchor] returns. *)
Definition anchor_field (pos : Anchor.t) (field : string) : Z :=
  if bool_decide (field = "col") then Anchor.col pos
  else if bool_decide (field = "colOff") then Anchor.colOff pos
  else if bool_decide (field = "row") then Anchor.row pos
  else Anchor.rowOff pos.

(** A chain of [n] connections that starts at [node_id], and a call
    depth above every chain that starts at an id of [l].  The call depth
    counts the nested calls of [build_node] that the recursion limit
    still allows: a chain of [n] connections needs [n + 1] of them. *)
Definition chain (root : Element) (node_id : string) (n : nat) : Prop :=
  exists last_id, nsteps (edge root) n node_id last_id.
Definition above_chains (root : Element) (l : list string) (depth : nat) : Prop :=
  forall node_id n, node_id ∈ l -> chain root node_id n -> n < depth.

(** [main()] from the test of the input path on: [input_is_file] is what
    [os.path.isfile(input_path)] returns; the message on the error stream
    is not modelled. *)
Definition main_checked (input_is_file : bool) (cwd : string) (depth : nat)
    (now_iso now_fmt : string) (cells_by_sheet : gmap string (list CellText))
    (zipf : ZipFile) (input_path output_dir : string) : M Z :=
  if input_is_file
  then main cwd depth now_iso now_fmt cells_by_sheet zipf input_path output_dir
  else mret 2%Z.

(** ** Concrete parts used by the examples *)
Module Fixtures.

Definition elem (tag : string) (attrs : list (string * string))
    (text : option string) (children : list Element) : Element :=
  mkElement tag (list_to_map attrs) text children.

Definition xml (e : Element) : member := mkMember [] (Some e).

Definition xdr (local : string) := qn NAMESPACES.xdr local.

(** An anchor whose [from] element carries a column, an unreadable row
    and nothing else. *)
Definition partial_anchor : Element :=
  elem (xdr "oneCellAnchor") [] None
    [elem (xdr "from") [] None
       [elem (xdr "col") [] (Some "3") [];
        elem (xdr "row") [] (Some "x") [];
        elem (xdr "rowOff") [] None []]].

Definition a_ (local : string) := qn NAMESPACES.a local.
Definition r_ (local : string) := qn NAMESPACES.r local.
Definition dgm (local : string) := qn NAMESPACES.dgm local.

(** A relationships part. *)
Definition relationships (l : list (string * string * string)) : Element :=
  elem (qn NAMESPACES.pr "Relationships") [] None
    ((fun '(i, t, g) =>
        elem (qn NAMESPACES.pr "Relationship")
          [("Id", i); ("Type", t); ("Target", g)] None []) <$> l).

Definition rel_type (kind : string) : string :=
  "http://schemas.openxmlformats.org/officeDocument/2006/relationships/" +:+ kind.

Definition from_pos (col row : string) : Element :=
  elem (xdr "from") [] None
    [elem (xdr "col") [] (Some col) []; elem (xdr "colOff") [] (Some "0") [];
     elem (xdr "row") [] (Some row) []; elem (xdr "rowOff") [] (Some "0") []].

(** A two-cell anchor that holds a picture embedded through [rid]. *)
Definition pic_anchor (rid : string) : Element :=
  elem (xdr "twoCellAnchor") [] None
    [from_pos "1" "2";
     elem (xdr "pic") [] None
       [elem (xdr "blipFill") [] None
          [elem (a_ "blip") [(r_ "embed", rid)] None []]]].

(** A shape whose text body holds the runs [runs], one paragraph. *)
Definition text_body (runs : list string) : Element :=
  elem (xdr "txBody") [] None
    [elem (a_ "p") [] None
       ((fun t => elem (a_ "r") [] None [elem (a_ "t") [] (Some t) []]) <$> runs)].

Definition shape_anchor (runs : list string) : Element :=
  elem (xdr "twoCellAnchor") [] None
    [from_pos "4" "5"; elem (xdr "sp") [] None [text_body runs]].

(** A graphic frame that references a diagram through [ids]. *)
Definition frame_anchor (ids : list (string * string)) : Element :=
  elem (xdr "oneCellAnchor") [] None
    [from_pos "0" "7";
     elem (xdr "graphicFrame") [] None
       [elem (a_ "graphic") [] None
          [elem (a_ "graphicData")
             [("uri", "http://schemas.openxmlformats.org/drawingml/2006/diagram")] None
             [elem (dgm "relIds") ((fun '(k, v) => (r_ k, v)) <$> ids) None []]]]].

Definition drawing (anchors : list Element) : Element :=
  elem (xdr "wsDr") [] None anchors.

Definition png1 : bytes := [Byte.x89; Byte.x50; Byte.x4e; Byte.x47; Byte.x01].
Definition png2 : bytes := [Byte.x89; Byte.x50; Byte.x4e; Byte.x47; Byte.x02].

(** An archive with three drawings: a picture, a shape with the runs
    "Hello", " ", "World", and a diagram frame with a data-model id and a
    layout id. *)
Definition parts : ZipFile :=
  list_to_map
    [("xl/drawings/drawing1.xml", xml (drawing [pic_anchor "rId1"]));
     ("xl/drawings/_rels/drawing1.xml.rels",
      xml (relationships [("rId1", rel_type "image", "../media/image1.png")]));
     ("xl/media/image1.png", mkMember png1 None);
     ("xl/drawings/drawing2.xml",
      xml (drawing [shape_anchor ["Hello"; " "; "World"]]));
     ("xl/drawings/drawing3.xml",
      xml (drawing [frame_anchor [("dm", "rId1"); ("lo", "rId2")]]));
     ("xl/drawings/_rels/drawing3.xml.rels",
      xml (relationships
             [("rId1", rel_type "diagramData", "../diagrams/data1.xml");
              ("rId2", rel_type "diagramLayout", "../diagrams/layout1.xml")]))].

(** A diagram data model with the points [ids] and the connections [cxns]. *)
Definition data_model (ids : list string) (cxns : list (string * string)) : Element :=
  elem (dgm "dataModel") [] None
    [elem (dgm "ptLst") [] None
       ((fun i => elem (dgm "pt") [("modelId", i)] None
                    [elem (dgm "t") [] None
                       [elem (a_ "p") [] None
                          [elem (a_ "r") [] None
                             [elem (a_ "t") [] (Some ("Node " +:+ i)) []]]]]) <$> ids);
     elem (dgm "cxnLst") [] None
       ((fun '(s, d) => elem (dgm "cxn") [("srcId", s); ("destId", d)] None []) <$> cxns)].

(** Every point has an incoming edge, and the edges have no cycle: the
    source of the edge into A is not a point. *)
Definition rootless : Element := data_model ["A"; "B"] [("X", "A"); ("A", "B")].
(** A point connected to itself. *)
Definition self_loop : Element := data_model ["A"] [("A", "A")].
(** A root with two children. *)
Definition tree3 : Element := data_model ["A"; "B"; "C"] [("A", "B"); ("A", "C")].

Definition diagrams : ZipFile :=
  list_to_map
    [("xl/diagrams/data1.xml", xml rootless);
     ("xl/diagrams/data2.xml", xml self_loop);
     ("xl/diagrams/data3.xml", xml tree3)].

Definition rank_abc (node_id : string) : nat :=
  if bool_decide (node_id = "X") then 2
  else if bool_decide (node_id = "A") then 1 else 0.

(** [xl/workbook.xml] and its relationships for the sheets [names]:
    sheet number [i] is [xl/worksheets/sheet<i>.xml]. *)
Definition workbook (names : list string) : Element :=
  elem (qn NAMESPACES.s "workbook") [] None
    [elem (qn NAMESPACES.s "sheets") [] None
       (imap (fun i n =>
                elem (qn NAMESPACES.s "sheet")
                  [("name", n); (r_ "id", "rId" +:+ Py.str_of_nat (S i))] None [])
          names)].
Definition workbook_rels (names : list string) : Element :=
  relationships
    (imap (fun i (_ : string) =>
             ("rId" +:+ Py.str_of_nat (S i), rel_type "worksheet",
              "worksheets/sheet" +:+ Py.str_of_nat (S i) +:+ ".xml"))
       names).

Definition sheet_xml : member := xml (elem (qn NAMESPACES.s "worksheet") [] None []).
Definition malformed : member := mkMember [Byte.x3c; Byte.x61] None.

(** Two sheets with one drawing each: the first drawing does not parse,
    the second holds a picture. *)
Definition broken_drawing_book : ZipFile :=
  list_to_map
    [("xl/workbook.xml", xml (workbook ["First"; "Second"]));
     ("xl/_rels/workbook.xml.rels", xml (workbook_rels ["First"; "Second"]));
     ("xl/worksheets/sheet1.xml", sheet_xml);
     ("xl/worksheets/sheet2.xml", sheet_xml);
     ("xl/worksheets/_rels/sheet1.xml.rels",
      xml (relationships [("rId1", rel_type "drawing", "../drawings/drawing1.xml")]));
     ("xl/worksheets/_rels/sheet2.xml.rels",
      xml (relationships [("rId1", rel_type "drawing", "../drawings/drawing2.xml")]));
     ("xl/drawings/drawing1.xml", malformed);
     ("xl/drawings/drawing2.xml", xml (drawing [pic_anchor "rId1"]));
     ("xl/drawings/_rels/drawing2.xml.rels",
      xml (relationships [("rId1", rel_type "image", "../media/image1.png")]));
     ("xl/media/image1.png", mkMember png1 None)].

(** The same two sheets, the first with a diagram frame whose data model
    does not parse. *)
Definition broken_diagram_book : ZipFile :=
  <["xl/drawings/drawing1.xml" := xml (drawing [frame_anchor [("dm", "rId1")]])]>
    (<["xl/drawings/_rels/drawing1.xml.rels" :=
         xml (relationships [("rId1", rel_type "diagramData", "../diagrams/data1.xml")])]>
       (<["xl/diagrams/data1.xml" := malformed]> broken_drawing_book)).

(** One sheet "Sales" with two drawings of one picture each; the second
    picture is [xl/media/image2<ext2>]. *)
Definition two_drawings_book (ext2 : string) : ZipFile :=
  list_to_map
    [("xl/workbook.xml", xml (workbook ["Sales"]));
     ("xl/_rels/workbook.xml.rels", xml (workbook_rels ["Sales"]));
     ("xl/worksheets/sheet1.xml", sheet_xml);
     ("xl/worksheets/_rels/sheet1.xml.rels",
      xml (relationships
             [("rId1", rel_type "drawing", "../drawings/drawing1.xml");
              ("rId2", rel_type "drawing", "../drawings/drawing2.xml")]));
     ("xl/drawings/drawing1.xml", xml (drawing [pic_anchor "rId1"]));
     ("xl/drawings/_rels/drawing1.xml.rels",
      xml (relationships [("rId1", rel_type "image", "../media/image1.png")]));
     ("xl/drawings/drawing2.xml", xml (drawing [pic_anchor "rId1"]));
     ("xl/drawings/_rels/drawing2.xml.rels",
      xml (relationships [("rId1", rel_type "image", "../media/image2" +:+ ext2)]));
     ("xl/media/image1.png", mkMember png1 None);
     ("xl/media/image2" +:+ ext2, mkMember png2 None)].

Definition second_sheet_image : ImageInfo.t :=
  ImageInfo.mk "Second" "images/Second_img_1.png" "xl/media/image1.png"
    (Anchor.mk 1 0 2 0).

(** The shapes and the diagram references of a call that returned. *)
Definition shapes_of (r : outcome (list ImageInfo.t * list ShapeText.t * list smartart_ref) * FS)
    : list ShapeText.t :=
  match r.1 with Ok (_, shapes, _) => shapes | Raise _ => [] end.
Definition refs_of (r : outcome (list ImageInfo.t * list ShapeText.t * list smartart_ref) * FS)
    : list smartart_ref :=
  match r.1 with Ok (_, _, refs) => refs | Raise _ => [] end.

End Fixtures.

(** * Properties *)

(** ** The two monads *)

Lemma bind_Ok {A B} (a : A) (k : A -> outcome B) : (Ok a ≫= k) = k a.
Proof. reflexivity. Qed.

Lemma bind_lift_Ok {A B} (a : A) (k : A -> M B) (fs : FS) :
  (lift (Ok a) ≫= k) fs = k a fs.
Proof. reflexivity. Qed.

Lemma bind_lift_Raise {A B} (e : exn) (k : A -> M B) (fs : FS) :
  (lift (Raise e) ≫= k) fs = (Raise e, fs).
Proof. reflexivity. Qed.

Lemma foldM_cons {A S} (f : S -> A -> M S) (s : S) (x : A) (r : list A) (fs : FS) :
  foldM f s (x :: r) fs =
  match f s x fs with
  | (Ok s', fs') => foldM f s' r fs'
  | (Raise e, fs') => (Raise e, fs')
  end.
Proof. reflexivity. Qed.

(** ** [extract_anchor] *)

Lemma try_except_Ok {A} (m : outcome A) (a : A) : exists b, try_except m (Ok a) = Ok b.
Proof. destruct m; simpl; eauto. Qed.

Lemma read_child_returns (from_elem : Element) (field : string) :
  exists z, read_child from_elem field = Ok z
    /\ ((forall child t, find from_elem (qn NAMESPACES.xdr field) = Some child ->
           text child <> Some t) -> z = 0%Z).
Proof.
  unfold read_child.
  destruct (find from_elem (qn NAMESPACES.xdr field)) as [child|]; [|eauto].
  destruct (text child) as [t|] eqn:Ht; [|eauto].
  destruct (try_except_Ok (py_int t) 0%Z) as [b Hb].
  exists b. split; [exact Hb|].
  intros Hmiss. exfalso. exact (Hmiss child t eq_refl Ht).
Qed.

Lemma extract_anchor_returns (anchor_elem : Element) :
  exists pos, extract_anchor anchor_elem = Ok pos.
Proof.
  unfold extract_anchor.
  destruct (find anchor_elem (qn NAMESPACES.xdr "from")) as [from_pos|]; [|eauto].
  unfold read_pos.
  destruct (read_child_returns from_pos "col") as (c & -> & _).
  destruct (read_child_returns from_pos "colOff") as (co & -> & _).
  destruct (read_child_returns from_pos "row") as (r & -> & _).
  destruct (read_child_returns from_pos "rowOff") as (ro & -> & _).
  simpl. eauto.
Qed.

Lemma extract_anchor_pos (anchor_elem : Element) :
  extract_anchor anchor_elem = Ok (anchor_pos_of anchor_elem).
Proof.
  unfold anchor_pos_of.
  destruct (extract_anchor_returns anchor_elem) as [pos ->]. reflexivity.
Qed.

(** C9: [extract_anchor] returns a record of the four fields for every
    element and never raises; a field whose [from] element, child or text
    is absent is 0, and with no [from] element at all the record is all
    zeros. *)
Theorem extract_anchor_defaults (anchor_elem : Element) :
  exists pos,
    extract_anchor anchor_elem = Ok pos
    /\ (missing_field anchor_elem "col" -> Anchor.col pos = 0%Z)
    /\ (missing_field anchor_elem "colOff" -> Anchor.colOff pos = 0%Z)
    /\ (missing_field anchor_elem "row" -> Anchor.row pos = 0%Z)
    /\ (missing_field anchor_elem "rowOff" -> Anchor.rowOff pos = 0%Z)
    /\ (find anchor_elem (qn NAMESPACES.xdr "from") = None -> pos = Anchor.mk 0 0 0 0).
Proof.
  unfold extract_anchor, missing_field.
  destruct (find anchor_elem (qn NAMESPACES.xdr "from")) as [from_pos|].
  - unfold read_pos.
    destruct (read_child_returns from_pos "col") as (c & -> & Hc).
    destruct (read_child_returns from_pos "colOff") as (co & -> & Hco).
    destruct (read_child_returns from_pos "row") as (r & -> & Hr).
    destruct (read_child_returns from_pos "rowOff") as (ro & -> & Hro).
    simpl. eexists. split; [reflexivity|]. simpl.
    repeat split; try discriminate; intros H;
      [apply Hc|apply Hco|apply Hr|apply Hro]; intros child t; exact (H _ child t eq_refl).
  - eexists. split; [reflexivity|]. simpl. repeat split; reflexivity.
Qed.

(** The anchor of the fixtures: its column is read, its unreadable row,
    its empty row offset and its absent column offset are 0. *)
Example extract_anchor_partial :
  extract_anchor Fixtures.partial_anchor = Ok (Anchor.mk 3 0 0 0).
Proof. vm_compute. reflexivity. Qed.

(** ** The anchor loop of [extract_images_and_shapes] *)
Section AnchorLoop.
Context (cwd : string) (zipf : ZipFile) (rels : PyDict.t rel).
Context (base_dir_in_zip output_images_dir sheet_name : string).

Let body := anchor_body cwd zipf rels base_dir_in_zip output_images_dir sheet_name.
Let saved := saved_images zipf rels base_dir_in_zip.
Let info := image_info cwd output_images_dir sheet_name.
Let copy := copy_image zipf output_images_dir sheet_name.

Lemma fallback_refs_app (pos : Anchor.t) (rel_ids : Element) (refs : list smartart_ref) :
  fallback_refs rels base_dir_in_zip pos rel_ids refs =
  refs ++ flat_map (key_ref rels base_dir_in_zip pos rel_ids) ["lo"; "qs"; "cs"].
Proof.
  unfold fallback_refs, key_ref. simpl.
  destruct (present_in (attrib rel_ids !! qn NAMESPACES.r "lo") rels) as [[? ?]|];
  destruct (present_in (attrib rel_ids !! qn NAMESPACES.r "qs") rels) as [[? ?]|];
  destruct (present_in (attrib rel_ids !! qn NAMESPACES.r "cs") rels) as [[? ?]|];
  simpl; rewrite <- ?app_assoc, ?app_nil_r; reflexivity.
Qed.

Lemma in_namelist_open (path : string) :
  in_namelist zipf path = true -> exists m, zipf !! path = Some m.
Proof.
  unfold in_namelist. intros H%bool_decide_eq_true. destruct H as [m Hm]. eauto.
Qed.

(** One turn of the loop, as three independent contributions. *)
Lemma anchor_body_spec (v : loop_vars) (anchor : Element) (fs : FS) :
  let w := saved (image_counter v) [anchor] in
  body v anchor fs =
  (Ok (mkVars (image_counter v + length w)
         (images_acc v ++ (info <$> w))
         (shapes_acc v ++ option_list (shape_item sheet_name anchor))
         (smartart_refs_acc v ++ frame_refs rels base_dir_in_zip anchor)),
   foldl copy fs w).
Proof.
  subst body saved info copy. destruct v as [n ims shs refs]. simpl.
  unfold anchor_body, shape_item, shape_body, frame_refs, frame_rel_ids, picture_part.
  rewrite (extract_anchor_pos anchor), bind_lift_Ok. simpl.
  destruct (find anchor (qn NAMESPACES.xdr "pic")) as [pic|]; simpl.
  - destruct (find_desc pic (qn NAMESPACES.a "blip")) as [blip|]; simpl;
      [|rewrite Nat.add_0_r, !app_nil_r; reflexivity].
    destruct (present_in (attrib blip !! qn NAMESPACES.r "embed") rels) as [[rid rl]|]; simpl;
      [|rewrite Nat.add_0_r, !app_nil_r; reflexivity].
    destruct (in_namelist zipf (normalize_rel_target base_dir_in_zip (Target rl))) eqn:Hin;
      simpl; [|rewrite Nat.add_0_r, !app_nil_r; reflexivity].
    destruct (in_namelist_open _ Hin) as [m Hm].
    unfold zip_open, copy_image, image_info, image_path, image_out_name, image_ext. simpl.
    rewrite Hm, bind_lift_Ok. unfold mbind, M_bind, write_file, mret, M_ret. simpl.
    rewrite !app_nil_r, Nat.add_1_r. reflexivity.
  - destruct (find anchor (qn NAMESPACES.xdr "sp")) as [sp|]; simpl.
    + destruct (find sp (qn NAMESPACES.xdr "txBody")) as [tx|]; simpl;
        [|rewrite Nat.add_0_r, !app_nil_r; reflexivity].
      destruct (Py.truthy (join_stripped (read_text_nodes tx))); simpl;
        rewrite Nat.add_0_r, !app_nil_r; reflexivity.
    + destruct (find anchor (qn NAMESPACES.xdr "graphicFrame")) as [gf|]; simpl;
        [|rewrite Nat.add_0_r, !app_nil_r; reflexivity].
      destruct (find_desc gf (qn NAMESPACES.a "graphicData")) as [gd|]; simpl;
        [|rewrite Nat.add_0_r, !app_nil_r; reflexivity].
      destruct (Py.endswith (attr_or gd "uri" "") "/diagram"); simpl;
        [|rewrite Nat.add_0_r, !app_nil_r; reflexivity].
      destruct (find gd (qn NAMESPACES.dgm "relIds")) as [ri|]; simpl;
        [|rewrite Nat.add_0_r, !app_nil_r; reflexivity].
      rewrite fallback_refs_app. unfold mret, M_ret.
      rewrite Nat.add_0_r, !app_nil_r.
      change (flat_map ?f ["dm"; "lo"; "qs"; "cs"])
        with (f "dm" ++ flat_map f ["lo"; "qs"; "cs"]).
      unfold key_ref at 2.
      destruct (present_in (attrib ri !! qn NAMESPACES.r "dm") rels) as [[? ?]|];
        simpl; rewrite <- ?app_assoc, ?app_nil_r; reflexivity.
Qed.

Lemma saved_images_app (n : nat) (l1 l2 : list Element) :
  saved n (l1 ++ l2) = saved n l1 ++ saved (n + length (saved n l1)) l2.
Proof.
  subst saved. revert n. induction l1 as [|a l1 IH]; intros n; simpl.
  - rewrite Nat.add_0_r. reflexivity.
  - destruct (picture_part zipf rels base_dir_in_zip a); simpl.
    + rewrite IH. do 3 f_equal. lia.
    + apply IH.
Qed.

(** The whole loop. *)
Lemma anchor_loop_spec (l : list Element) (v : loop_vars) (fs : FS) :
  let w := saved (image_counter v) l in
  foldM body v l fs =
  (Ok (mkVars (image_counter v + length w)
         (images_acc v ++ (info <$> w))
         (shapes_acc v ++ omap (shape_item sheet_name) l)
         (smartart_refs_acc v ++ flat_map (frame_refs rels base_dir_in_zip) l)),
   foldl copy fs w).
Proof.
  revert v fs. induction l as [|a l IH]; intros v fs.
  - simpl. rewrite Nat.add_0_r, !app_nil_r. destruct v; reflexivity.
  - rewrite foldM_cons, anchor_body_spec. cbv zeta. rewrite IH. cbv zeta.
    cbn [image_counter images_acc shapes_acc smartart_refs_acc].
    pose proof (saved_images_app (image_counter v) [a] l) as E.
    change ([a] ++ l) with (a :: l) in E. rewrite E.
    assert (Hs : omap (shape_item sheet_name) (a :: l) =
                 option_list (shape_item sheet_name a) ++ omap (shape_item sheet_name) l).
    { simpl. destruct (shape_item sheet_name a); reflexivity. }
    change (flat_map (frame_refs rels base_dir_in_zip) (a :: l))
      with (frame_refs rels base_dir_in_zip a ++ flat_map (frame_refs rels base_dir_in_zip) l).
    rewrite Hs, length_app, fmap_app, foldl_app, !app_assoc, Nat.add_assoc.
    reflexivity.
Qed.

End AnchorLoop.

(** [extract_images_and_shapes] as three comprehensions over the anchors,
    once the drawing and its relationships are loaded. *)
Lemma extract_images_and_shapes_spec (cwd : string) (zipf : ZipFile)
    (drawing_path output_images_dir sheet_name : string)
    (drawing_root : Element) (rels : PyDict.t rel) (fs : FS) :
  load_xml zipf drawing_path = Ok drawing_root ->
  read_rels zipf drawing_path = Ok rels ->
  let base := posixpath.dirname drawing_path in
  let w := saved_images zipf rels base 0 (iter_anchors drawing_root) in
  extract_images_and_shapes cwd zipf drawing_path output_images_dir sheet_name fs =
  (Ok (image_info cwd output_images_dir sheet_name <$> w,
       omap (shape_item sheet_name) (iter_anchors drawing_root),
       flat_map (frame_refs rels base) (iter_anchors drawing_root)),
   foldl (copy_image zipf output_images_dir sheet_name) fs w).
Proof.
  intros Hroot Hrels. unfold extract_images_and_shapes.
  rewrite Hroot, bind_lift_Ok, Hrels, bind_lift_Ok.
  unfold mbind at 1, M_bind at 1. rewrite anchor_loop_spec. reflexivity.
Qed.

(** ** Shape text *)

(** C1, as the specification words it, fails: the runs "Hello", " ",
    "World" are each stripped before they are joined, so the blank run
    leaves two spaces between the words. *)
Lemma shape_text_hello_world_differs :
  exists tx_body st,
    shape_body (Fixtures.shape_anchor ["Hello"; " "; "World"]) = Some tx_body
    /\ read_text_nodes tx_body = ["Hello"; " "; "World"]
    /\ Fixtures.shapes_of
         (extract_images_and_shapes "/" Fixtures.parts "xl/drawings/drawing2.xml"
            "/out/images" "Sheet1" ∅) = [st]
    /\ ShapeText.text st = "Hello  World"
    /\ ShapeText.text st <> "Hello World".
Proof.
  eexists _, _. split; [vm_compute; reflexivity|].
  split; [vm_compute; reflexivity|].
  split; [vm_compute; reflexivity|].
  split; [reflexivity|]. discriminate.
Qed.

Lemma elem_of_omap_shape (sheet_name : string) (l : list Element) (st : ShapeText.t) :
  st ∈ omap (shape_item sheet_name) l <->
  exists anchor, anchor ∈ l /\ shape_item sheet_name anchor = Some st.
Proof. apply list_elem_of_omap. Qed.

Lemma truthy_nonempty (s : string) : Py.truthy s = true <-> s <> "".
Proof. destruct s; unfold Py.truthy; simpl; split; intros; congruence. Qed.

(** C1, amended: every run is stripped, the stripped runs are joined by
    single spaces and the result is stripped again; a shape anchor yields
    an item exactly when that text is not empty.  The runs "Hello", " ",
    "World" give "Hello  World". *)
Theorem shape_text_extraction (cwd : string) (zipf : ZipFile)
    (drawing_path output_images_dir sheet_name : string)
    (drawing_root : Element) (rels : PyDict.t rel) (fs : FS) :
  load_xml zipf drawing_path = Ok drawing_root ->
  read_rels zipf drawing_path = Ok rels ->
  exists images shapes refs fs',
    extract_images_and_shapes cwd zipf drawing_path output_images_dir sheet_name fs
      = (Ok (images, shapes, refs), fs')
    /\ (forall st, st ∈ shapes <->
          exists anchor tx_body,
            anchor ∈ iter_anchors drawing_root
            /\ shape_body anchor = Some tx_body
            /\ ShapeText.text st
               = Py.strip (Py.join " " (Py.strip <$> read_text_nodes tx_body))
            /\ ShapeText.text st <> ""
            /\ ShapeText.sheet_name st = sheet_name
            /\ extract_anchor anchor = Ok (ShapeText.anchor st))
    /\ (forall anchor tx_body,
          anchor ∈ iter_anchors drawing_root ->
          shape_body anchor = Some tx_body ->
          read_text_nodes tx_body = ["Hello"; " "; "World"] ->
          exists st, st ∈ shapes /\ ShapeText.text st = "Hello  World").
Proof.
  intros Hroot Hrels.
  rewrite (extract_images_and_shapes_spec _ _ _ _ _ _ _ _ Hroot Hrels). cbv zeta.
  eexists _, _, _, _. split; [reflexivity|].
  assert (Hchar : forall st, st ∈ omap (shape_item sheet_name) (iter_anchors drawing_root) <->
          exists anchor tx_body,
            anchor ∈ iter_anchors drawing_root
            /\ shape_body anchor = Some tx_body
            /\ ShapeText.text st
               = Py.strip (Py.join " " (Py.strip <$> read_text_nodes tx_body))
            /\ ShapeText.text st <> ""
            /\ ShapeText.sheet_name st = sheet_name
            /\ extract_anchor anchor = Ok (ShapeText.anchor st)).
  { intros st. rewrite elem_of_omap_shape. split.
    - intros (anchor & Hin & Hitem). unfold shape_item in Hitem.
      destruct (shape_body anchor) as [tx|] eqn:Hb; [|discriminate]. simpl in Hitem.
      destruct (Py.truthy (join_stripped (read_text_nodes tx))) eqn:Ht; [|discriminate].
      injection Hitem as <-. exists anchor, tx. simpl.
      repeat split; try assumption; try reflexivity.
      + apply truthy_nonempty, Ht.
      + apply extract_anchor_pos.
    - intros (anchor & tx & Hin & Hb & Htext & Hne & Hsheet & Hpos).
      exists anchor. split; [assumption|]. unfold shape_item. rewrite Hb. simpl.
      fold (join_stripped (read_text_nodes tx)) in Htext.
      rewrite <- Htext. apply truthy_nonempty in Hne. rewrite Hne.
      f_equal. destruct st as [sn tx' an]. simpl in *. subst sn.
      rewrite extract_anchor_pos in Hpos. injection Hpos as <-. reflexivity. }
  split; [exact Hchar|].
  intros anchor tx Hin Hb Hruns.
  exists (ShapeText.mk sheet_name "Hello  World" (anchor_pos_of anchor)).
  split; [|reflexivity].
  apply Hchar. exists anchor, tx. rewrite Hruns. simpl.
  repeat split; try assumption; try reflexivity; try discriminate.
  apply extract_anchor_pos.
Qed.

Lemma shape_text_extraction_witness :
  exists images shapes refs fs',
    extract_images_and_shapes "/" Fixtures.parts "xl/drawings/drawing2.xml"
      "/out/images" "Sheet1" ∅ = (Ok (images, shapes, refs), fs')
    /\ exists st, st ∈ shapes /\ ShapeText.text st = "Hello  World".
Proof.
  destruct (shape_text_extraction "/" Fixtures.parts "xl/drawings/drawing2.xml"
              "/out/images" "Sheet1"
              (Fixtures.drawing [Fixtures.shape_anchor ["Hello"; " "; "World"]]) [] ∅)
    as (images & shapes & refs & fs' & Hrun & _ & Hhello).
  - vm_compute. reflexivity.
  - vm_compute. reflexivity.
  - exists images, shapes, refs, fs'. split; [exact Hrun|].
    apply (Hhello (Fixtures.shape_anchor ["Hello"; " "; "World"])
             (Fixtures.text_body ["Hello"; " "; "World"])).
    + vm_compute. apply list_elem_of_here.
    + vm_compute. reflexivity.
    + vm_compute. reflexivity.
Defined.

(** ** Diagram references *)

(** C7, as the specification words it, fails: a frame with a resolvable
    data-model id and a resolvable layout id yields two references. *)
Lemma frame_dm_and_layout_yields_two :
  Fixtures.refs_of
    (extract_images_and_shapes "/" Fixtures.parts "xl/drawings/drawing3.xml"
       "/out/images" "Sheet1" ∅)
  = [(Anchor.mk 0 0 7 0, "rId1", "xl/diagrams/data1.xml");
     (Anchor.mk 0 0 7 0, "rId2", "xl/diagrams/layout1.xml")]
  /\ Fixtures.refs_of
       (extract_images_and_shapes "/" Fixtures.parts "xl/drawings/drawing3.xml"
          "/out/images" "Sheet1" ∅)
     <> [(Anchor.mk 0 0 7 0, "rId1", "xl/diagrams/data1.xml")].
Proof.
  assert (E : Fixtures.refs_of
    (extract_images_and_shapes "/" Fixtures.parts "xl/drawings/drawing3.xml"
       "/out/images" "Sheet1" ∅)
  = [(Anchor.mk 0 0 7 0, "rId1", "xl/diagrams/data1.xml");
     (Anchor.mk 0 0 7 0, "rId2", "xl/diagrams/layout1.xml")]).
  { vm_compute. reflexivity. }
  split; [exact E|]. rewrite E. discriminate.
Qed.

(** C7, amended: the references of a drawing are those of its diagram
    frames in anchor order, and a frame yields one reference per
    resolvable id among dm, lo, qs, cs, in that order.  With resolvable
    data-model and layout ids the frame yields the data-model reference
    followed by the layout reference; the layout, quick-style and
    color-style ids are the only references when the data-model id does
    not resolve. *)
Theorem diagram_references (cwd : string) (zipf : ZipFile)
    (drawing_path output_images_dir sheet_name : string)
    (drawing_root : Element) (rels : PyDict.t rel) (fs : FS) :
  load_xml zipf drawing_path = Ok drawing_root ->
  read_rels zipf drawing_path = Ok rels ->
  let base := posixpath.dirname drawing_path in
  exists images shapes refs fs',
    extract_images_and_shapes cwd zipf drawing_path output_images_dir sheet_name fs
      = (Ok (images, shapes, refs), fs')
    /\ refs = flat_map (frame_refs rels base) (iter_anchors drawing_root)
    /\ forall anchor rel_ids pos,
         frame_rel_ids anchor = Some rel_ids ->
         extract_anchor anchor = Ok pos ->
         let others := flat_map (key_ref rels base pos rel_ids) ["lo"; "qs"; "cs"] in
         (forall dm_rid dm_rel,
            present_in (attrib rel_ids !! qn NAMESPACES.r "dm") rels = Some (dm_rid, dm_rel) ->
            frame_refs rels base anchor
            = (pos, dm_rid, normalize_rel_target base (Target dm_rel)) :: others)
         /\ (present_in (attrib rel_ids !! qn NAMESPACES.r "dm") rels = None ->
             frame_refs rels base anchor = others)
         /\ (forall lo_rid lo_rel,
               present_in (attrib rel_ids !! qn NAMESPACES.r "lo") rels = Some (lo_rid, lo_rel) ->
               exists rest,
                 others = (pos, lo_rid, normalize_rel_target base (Target lo_rel)) :: rest).
Proof.
  intros Hroot Hrels base.
  rewrite (extract_images_and_shapes_spec _ _ _ _ _ _ _ _ Hroot Hrels). cbv zeta.
  eexists _, _, _, _. split; [reflexivity|]. split; [reflexivity|].
  intros anchor rel_ids pos Hframe Hpos.
  assert (anchor_pos_of anchor = pos) as Hp.
  { rewrite extract_anchor_pos in Hpos. congruence. }
  unfold frame_refs. rewrite Hframe, Hp.
  change (flat_map ?f ["dm"; "lo"; "qs"; "cs"])
    with (f "dm" ++ flat_map f ["lo"; "qs"; "cs"]).
  set (others := flat_map (key_ref rels base pos rel_ids) ["lo"; "qs"; "cs"]).
  repeat split.
  - intros dm_rid dm_rel Hdm. unfold key_ref at 1. rewrite Hdm. reflexivity.
  - intros Hdm. unfold key_ref at 1. rewrite Hdm. reflexivity.
  - intros lo_rid lo_rel Hlo. subst others.
    change (flat_map ?f ["lo"; "qs"; "cs"]) with (f "lo" ++ flat_map f ["qs"; "cs"]).
    unfold key_ref at 1. rewrite Hlo. simpl. eauto.
Qed.

Lemma diagram_references_witness :
  exists images shapes refs fs',
    extract_images_and_shapes "/" Fixtures.parts "xl/drawings/drawing3.xml"
      "/out/images" "Sheet1" ∅ = (Ok (images, shapes, refs), fs')
    /\ refs = flat_map
                (frame_refs
                   [("rId1", mkRel (Fixtures.rel_type "diagramData") "../diagrams/data1.xml");
                    ("rId2", mkRel (Fixtures.rel_type "diagramLayout") "../diagrams/layout1.xml")]
                   "xl/drawings")
                [Fixtures.frame_anchor [("dm", "rId1"); ("lo", "rId2")]].
Proof.
  destruct (diagram_references "/" Fixtures.parts "xl/drawings/drawing3.xml"
              "/out/images" "Sheet1"
              (Fixtures.drawing [Fixtures.frame_anchor [("dm", "rId1"); ("lo", "rId2")]])
              [("rId1", mkRel (Fixtures.rel_type "diagramData") "../diagrams/data1.xml");
               ("rId2", mkRel (Fixtures.rel_type "diagramLayout") "../diagrams/layout1.xml")]
              ∅)
    as (images & shapes & refs & fs' & Hrun & Hrefs & _).
  - vm_compute. reflexivity.
  - vm_compute. reflexivity.
  - exists images, shapes, refs, fs'. split; [exact Hrun|exact Hrefs].
Defined.

(** ** Picture extraction *)

(** C8: a drawing whose only anchor is a two-cell anchor with a picture
    that resolves to a member of the archive yields exactly one image
    record, carrying the sheet name, the media part and the anchor
    position; the file is saved in the images directory under
    [<safe sheet>_img_1<ext>] and holds exactly the bytes of the media
    part.  For sheet "Sales" and part [xl/media/image1.png] the name is
    [Sales_img_1.png]; a part without extension is saved as [.bin]. *)
Theorem basic_picture_extraction (cwd : string) (zipf : ZipFile)
    (drawing_path output_images_dir sheet_name : string)
    (drawing_root : Element) (rels : PyDict.t rel) (fs : FS)
    (anchor pic blip : Element) (rid part : string) (rl : rel) (media : member) :
  load_xml zipf drawing_path = Ok drawing_root ->
  read_rels zipf drawing_path = Ok rels ->
  findall drawing_root (qn NAMESPACES.xdr "twoCellAnchor") = [anchor] ->
  findall drawing_root (qn NAMESPACES.xdr "oneCellAnchor") = [] ->
  find anchor (qn NAMESPACES.xdr "pic") = Some pic ->
  find_desc pic (qn NAMESPACES.a "blip") = Some blip ->
  attrib blip !! qn NAMESPACES.r "embed" = Some rid ->
  rid <> "" ->
  PyDict.get rels rid = Some rl ->
  normalize_rel_target (posixpath.dirname drawing_path) (Target rl) = part ->
  zipf !! part = Some media ->
  exists pos,
    extract_anchor anchor = Ok pos
    /\ extract_images_and_shapes cwd zipf drawing_path output_images_dir sheet_name fs
       = (Ok ([ImageInfo.mk sheet_name
                 (posixpath.relpath cwd
                    (posixpath.join output_images_dir (image_out_name sheet_name 1 part))
                    (posixpath.dirname output_images_dir))
                 part pos],
              [], []),
          <[posixpath.join output_images_dir (image_out_name sheet_name 1 part)
              := Binary (content media)]> fs)
    /\ image_out_name sheet_name 1 part
       = safe_sheet_of sheet_name +:+ "_img_1" +:+ image_ext part
    /\ image_out_name "Sales" 1 "xl/media/image1.png" = "Sales_img_1.png"
    /\ image_ext "xl/media/image1" = ".bin".
Proof.
  intros Hroot Hrels Htwo Hone Hpic Hblip Hembed Hrid Hget Hpart Hmedia.
  exists (anchor_pos_of anchor). split; [apply extract_anchor_pos|].
  split; [|split; [reflexivity|split; vm_compute; reflexivity]].
  rewrite (extract_images_and_shapes_spec _ _ _ _ _ _ _ _ Hroot Hrels). cbv zeta.
  unfold iter_anchors. rewrite Htwo, Hone. simpl.
  assert (Hpp : picture_part zipf rels (posixpath.dirname drawing_path) anchor = Some part).
  { unfold picture_part. rewrite Hpic. simpl. rewrite Hblip. simpl.
    rewrite Hembed. unfold present_in.
    apply truthy_nonempty in Hrid. rewrite Hrid, Hget. simpl. rewrite Hpart.
    unfold in_namelist. rewrite Hmedia.
    rewrite bool_decide_eq_true_2 by eauto. reflexivity. }
  rewrite Hpp. simpl.
  unfold shape_item, shape_body, frame_refs, frame_rel_ids. rewrite Hpic. simpl.
  unfold copy_image, image_info, image_path. simpl. rewrite Hmedia. reflexivity.
Qed.

Lemma basic_picture_extraction_witness :
  extract_images_and_shapes "/home/u" Fixtures.parts "xl/drawings/drawing1.xml"
    "/out/images" "Sales" ∅
  = (Ok ([ImageInfo.mk "Sales" "images/Sales_img_1.png" "xl/media/image1.png"
            (Anchor.mk 1 0 2 0)], [], []),
     {["/out/images/Sales_img_1.png" := Binary Fixtures.png1]}).
Proof.
  destruct (basic_picture_extraction "/home/u" Fixtures.parts "xl/drawings/drawing1.xml"
              "/out/images" "Sales"
              (Fixtures.drawing [Fixtures.pic_anchor "rId1"])
              [("rId1", mkRel (Fixtures.rel_type "image") "../media/image1.png")]
              ∅ (Fixtures.pic_anchor "rId1")
              (Fixtures.elem (Fixtures.xdr "pic") [] None
                 [Fixtures.elem (Fixtures.xdr "blipFill") [] None
                    [Fixtures.elem (Fixtures.a_ "blip") [(Fixtures.r_ "embed", "rId1")] None []]])
              (Fixtures.elem (Fixtures.a_ "blip") [(Fixtures.r_ "embed", "rId1")] None [])
              "rId1" "xl/media/image1.png"
              (mkRel (Fixtures.rel_type "image") "../media/image1.png")
              (mkMember Fixtures.png1 None))
    as (pos & Hpos & Hrun & _).
  1-7, 9-11: vm_compute; reflexivity.
  - discriminate.
  - rewrite Hrun. vm_compute in Hpos. injection Hpos as <-.
    vm_compute. reflexivity.
Defined.

(** ** The hierarchy builder *)

Lemma omapM_Forall2 {A B} (f : A -> outcome B) (l : list A) (ys : list B) :
  omapM f l = Ok ys <-> Forall2 (fun x y => f x = Ok y) l ys.
Proof.
  revert ys. induction l as [|x l IH]; intros ys; simpl.
  - split.
    + intros [= <-]. constructor.
    + intros H. inversion H. reflexivity.
  - split.
    + destruct (f x) as [y|] eqn:Hy; [|discriminate]. simpl.
      destruct (omapM f l) as [ys'|] eqn:Hl; [|discriminate]. simpl.
      intros [= <-]. constructor; [exact Hy|]. apply IH. reflexivity.
    + intros H. inversion H as [|? y ? ys' Hy Hl]; subst.
      rewrite Hy. simpl. apply IH in Hl. rewrite Hl. reflexivity.
Qed.

Lemma omapM_returns {A B} (f : A -> outcome B) (l : list A) :
  (forall x, x ∈ l -> exists y, f x = Ok y) -> exists ys, omapM f l = Ok ys.
Proof.
  induction l as [|x l IH]; intros H; simpl; [eauto|].
  destruct (H x) as [y ->]; [left|]. simpl.
  destruct IH as [ys ->]; [intros; apply H; right; assumption|]. simpl. eauto.
Qed.

Section Connections.
Context (root : Element).

Lemma add_connections_spec (l : list Element)
    (cm : gmap string (list string)) (ind : gmap string nat) :
  (forall s, default [] ((foldl add_connection (cm, ind) l).1 !! s)
             = default [] (cm !! s)
               ++ (List.filter (fun e => bool_decide (e.1 = s)) (omap cxn_edge l)).*2)
  /\ (forall d, default 0 ((foldl add_connection (cm, ind) l).2 !! d)
                = default 0 (ind !! d)
                  + length (List.filter (fun e => bool_decide (e.2 = d)) (omap cxn_edge l))).
Proof.
  revert cm ind. induction l as [|cxn l IH]; intros cm ind.
  - simpl. split; intros; [rewrite app_nil_r|rewrite Nat.add_0_r]; reflexivity.
  - simpl. destruct (cxn_edge cxn) as [[src dst]|] eqn:He; [|apply IH].
    match goal with |- context [foldl add_connection (?c, ?i) l] =>
      destruct (IH c i) as [IHc IHi] end.
    split.
    + intros s. rewrite IHc. simpl.
      destruct (decide (src = s)) as [->|Hne].
      * rewrite lookup_insert_eq. case_bool_decide; [|congruence]. simpl.
        rewrite <- app_assoc. reflexivity.
      * rewrite lookup_insert_ne by assumption. case_bool_decide; [congruence|].
        reflexivity.
    + intros d. rewrite IHi. simpl.
      assert (Hd : default 0
                (match <[dst:=S (default 0 (ind !! dst))]> ind !! src with
                 | Some _ => <[dst:=S (default 0 (ind !! dst))]> ind
                 | None => <[src:=0]> (<[dst:=S (default 0 (ind !! dst))]> ind)
                 end !! d)
              = default 0 (<[dst:=S (default 0 (ind !! dst))]> ind !! d)).
      { destruct (<[dst:=S (default 0 (ind !! dst))]> ind !! src) eqn:Hs; [reflexivity|].
        destruct (decide (src = d)) as [->|Hne].
        - rewrite lookup_insert_eq, Hs. reflexivity.
        - rewrite lookup_insert_ne by assumption. reflexivity. }
      rewrite Hd.
      destruct (decide (dst = d)) as [->|Hne].
      * rewrite lookup_insert_eq. case_bool_decide; [|congruence]. simpl. rewrite Nat.add_succ_r. reflexivity.
      * rewrite lookup_insert_ne by assumption. case_bool_decide; [congruence|].
        reflexivity.
Qed.

Lemma children_map_successors (src : string) :
  default [] ((read_connections root).1 !! src) = successors root src.
Proof.
  unfold read_connections, successors, edges.
  destruct (add_connections_spec (findall_desc root (qn NAMESPACES.dgm "cxn")) ∅ ∅) as [H _].
  rewrite H, lookup_empty. reflexivity.
Qed.

Lemma indegree_incoming (dst : string) :
  default 0 ((read_connections root).2 !! dst)
  = length (List.filter (fun e => bool_decide (e.2 = dst)) (edges root)).
Proof.
  unfold read_connections, edges.
  destruct (add_connections_spec (findall_desc root (qn NAMESPACES.dgm "cxn")) ∅ ∅) as [_ H].
  rewrite H, lookup_empty. reflexivity.
Qed.

Lemma successors_edge (src dst : string) :
  dst ∈ successors root src -> (src, dst) ∈ edges root.
Proof.
  unfold successors. intros H. apply list_elem_of_fmap in H as ([s d] & -> & H).
  apply list_elem_of_In, filter_In in H as [H Hs].
  apply bool_decide_eq_true in Hs. simpl in Hs. subst s.
  apply list_elem_of_In. exact H.
Qed.

Lemma indegree_zero_no_edge (dst : string) :
  default 0 ((read_connections root).2 !! dst) = 0 <->
  forall src, (src, dst) ∉ edges root.
Proof.
  rewrite indegree_incoming. split.
  - intros Hlen src Hin.
    apply length_zero_iff_nil in Hlen.
    assert (In (src, dst) (List.filter (fun e => bool_decide (e.2 = dst)) (edges root))) as Hf.
    { apply filter_In. split; [apply list_elem_of_In, Hin|].
      apply bool_decide_eq_true. reflexivity. }
    rewrite Hlen in Hf. destruct Hf.
  - intros Hno. apply length_zero_iff_nil.
    destruct (List.filter _ (edges root)) as [|[s d] r] eqn:Hf; [reflexivity|].
    assert (In (s, d) (List.filter (fun e => bool_decide (e.2 = dst)) (edges root))) as Hin.
    { rewrite Hf. left. reflexivity. }
    apply filter_In in Hin as [Hin Hd]. apply bool_decide_eq_true in Hd. simpl in Hd.
    subst d. exfalso. apply (Hno s), list_elem_of_In, Hin.
Qed.

Local Abbreviation id_to_text := (read_points root).
Local Abbreviation children_map := ((read_connections root).1).
Local Abbreviation node := (build_node id_to_text children_map).

Lemma build_node_id (depth : nat) (node_id : string) (n : SmartArtNode.t) :
  node depth node_id = Ok n -> SmartArtNode.id n = node_id.
Proof.
  destruct depth as [|d]; simpl; [discriminate|].
  destruct (omapM _ _); simpl; [|discriminate]. intros [= <-]. reflexivity.
Qed.

Lemma build_node_children (depth : nat) (node_id : string) (n : SmartArtNode.t) :
  node depth node_id = Ok n ->
  SmartArtNode.id <$> SmartArtNode.children n = successors root node_id.
Proof.
  destruct depth as [|d]; simpl; [discriminate|].
  destruct (omapM _ _) as [cs|] eqn:Hcs; simpl; [|discriminate]. intros [= <-]. simpl.
  apply omapM_Forall2 in Hcs.
  rewrite children_map_successors in Hcs.
  induction Hcs as [|c n' l cs Hc _ IH]; simpl; [reflexivity|].
  f_equal; [|exact IH]. apply (build_node_id d). exact Hc.
Qed.

Lemma build_node_mono (d d' : nat) (node_id : string) (n : SmartArtNode.t) :
  d <= d' -> node d node_id = Ok n -> node d' node_id = Ok n.
Proof.
  revert d' node_id n.
  induction d as [|d IH]; intros d' node_id n Hle; simpl; [discriminate|].
  destruct d' as [|d']; [lia|]. simpl.
  destruct (omapM (build_node id_to_text children_map d) _) as [cs|] eqn:Hcs;
    simpl; [|discriminate].
  intros [= <-].
  assert (omapM (build_node id_to_text children_map d')
            (default [] (children_map !! node_id)) = Ok cs) as ->; [|reflexivity].
  apply omapM_Forall2. apply omapM_Forall2 in Hcs.
  eapply Forall2_impl; [exact Hcs|]. intros c n' Hc. apply IH; [lia|exact Hc].
Qed.

(** With a rank that decreases along every edge, the recursion is
    bounded by the rank of the node it starts from. *)
Lemma build_node_acyclic (rank : string -> nat) :
  (forall src dst, (src, dst) ∈ edges root -> rank dst < rank src) ->
  forall depth node_id, rank node_id < depth -> exists n, node depth node_id = Ok n.
Proof.
  intros Hrank. induction depth as [|d IH]; intros node_id Hlt; [lia|].
  simpl.
  destruct (omapM_returns (build_node id_to_text children_map d)
              (default [] (children_map !! node_id))) as [cs ->]; [|simpl; eauto].
  intros c Hc. apply IH.
  rewrite children_map_successors in Hc.
  apply successors_edge, Hrank in Hc. lia.
Qed.

Lemma build_forest_ids (depth : nat) (l : list string) (forest : list SmartArtNode.t) :
  Forall2 (fun x n => node depth x = Ok n) l forest -> SmartArtNode.id <$> forest = l.
Proof.
  induction 1 as [|x n l' f' Hn _ IH]; simpl; [reflexivity|].
  f_equal; [apply (build_node_id depth), Hn|exact IH].
Qed.

(** The forest built from the ids [l], for every depth above their ranks. *)
Lemma build_forest_acyclic (rank : string -> nat) (l : list string) :
  (forall src dst, (src, dst) ∈ edges root -> rank dst < rank src) ->
  exists depth forest,
    (forall depth', depth <= depth' -> omapM (node depth') l = Ok forest)
    /\ SmartArtNode.id <$> forest = l
    /\ forall n, n ∈ forest ->
         SmartArtNode.id <$> SmartArtNode.children n = successors root (SmartArtNode.id n).
Proof.
  intros Hrank. set (depth := S (list_max (rank <$> l))).
  assert (Hall : forall x, x ∈ l -> exists n, node depth x = Ok n).
  { intros x Hx. apply (build_node_acyclic rank Hrank). subst depth.
    apply Nat.lt_succ_r.
    assert (Forall (fun k => k <= list_max (rank <$> l)) (rank <$> l)) as Hmax
      by (apply list_max_le; lia).
    rewrite Forall_forall in Hmax. apply Hmax.
    apply list_elem_of_fmap. eauto. }
  destruct (omapM_returns _ _ Hall) as [forest Hforest].
  exists depth, forest. apply omapM_Forall2 in Hforest. split; [|split].
  - intros depth' Hle. apply omapM_Forall2.
    eapply Forall2_impl; [exact Hforest|]. intros x n Hn.
    apply (build_node_mono depth); assumption.
  - apply (build_forest_ids depth). exact Hforest.
  - intros n Hn.
    destruct (proj1 (list_elem_of_lookup _ _) Hn) as [i Hi].
    destruct (Forall2_lookup_r _ _ _ _ _ Hforest Hi) as (x & _ & Hx).
    rewrite (build_node_id _ _ _ Hx). apply (build_node_children depth). exact Hx.
Qed.

End Connections.

(** ** Chains of connections *)

Lemma all_nodes_unfold (n : SmartArtNode.t) :
  all_nodes n = n :: flat_map all_nodes (SmartArtNode.children n).
Proof.
  destruct n as [i t cs]. reflexivity.
Qed.

Lemma edge_successor (root : Element) (src dst : string) :
  edge root src dst -> dst ∈ successors root src.
Proof.
  unfold edge, successors. intros H.
  apply list_elem_of_fmap. exists (src, dst). split; [reflexivity|].
  apply list_elem_of_In, filter_In. split; [apply list_elem_of_In, H|].
  apply bool_decide_eq_true. reflexivity.
Qed.

Section Chains.
Context (root : Element).

Local Abbreviation node := (build_node (read_points root) (read_connections root).1).

Lemma build_node_facts (depth : nat) (node_id : string) (n : SmartArtNode.t) :
  node depth node_id = Ok n ->
  Forall (fun m =>
            SmartArtNode.text m = default "" (PyDict.get (read_points root) (SmartArtNode.id m))
            /\ SmartArtNode.id <$> SmartArtNode.children m
               = successors root (SmartArtNode.id m))
    (all_nodes n).
Proof.
  revert node_id n. induction depth as [|d IH]; intros node_id n Hn; [discriminate|].
  rewrite all_nodes_unfold. constructor.
  - split; [|rewrite (build_node_id root _ _ _ Hn);
              apply (build_node_children root (S d)), Hn].
    simpl in Hn. destruct (omapM _ _); simpl in Hn; [|discriminate].
    injection Hn as <-. reflexivity.
  - simpl in Hn. destruct (omapM _ _) as [cs|] eqn:Hcs; simpl in Hn; [|discriminate].
    injection Hn as <-. simpl. apply omapM_Forall2 in Hcs.
    induction Hcs as [|c n' l cs Hc _ IHcs]; simpl; [constructor|].
    apply Forall_app. split; [exact (IH _ _ Hc)|exact IHcs].
Qed.

Lemma chain_zero (node_id : string) : chain root node_id 0.
Proof. exists node_id. constructor. Qed.

Lemma chain_step (node_id child : string) (n : nat) :
  edge root node_id child -> chain root child n -> chain root node_id (S n).
Proof. intros Hedge [last_id Hn]. exists last_id. econstructor; eassumption. Qed.

Lemma chain_inv (node_id : string) (n : nat) :
  chain root node_id (S n) -> exists child, edge root node_id child /\ chain root child n.
Proof.
  intros [last_id H]. inversion H as [|? ? child ? Hedge Hrest]; subst.
  exists child. split; [exact Hedge|]. exists last_id. exact Hrest.
Qed.

(** A rank that decreases along every connection bounds the chains. *)
Lemma chain_rank (rank : string -> nat) :
  (forall src dst, (src, dst) ∈ edges root -> rank dst < rank src) ->
  forall node_id n, chain root node_id n -> n <= rank node_id.
Proof.
  intros Hrank node_id n. revert node_id.
  induction n as [|n IH]; intros node_id Hc; [lia|].
  apply chain_inv in Hc as (child & Hedge & Hc).
  apply IH in Hc. apply Hrank in Hedge. lia.
Qed.

(** [build_node] returns exactly at the call depths above every chain
    that starts at its argument. *)
Lemma build_node_above (depth : nat) (node_id : string) :
  (forall n, chain root node_id n -> n < depth) -> exists n, node depth node_id = Ok n.
Proof.
  revert node_id. induction depth as [|d IH]; intros node_id Habove.
  - specialize (Habove 0 (chain_zero node_id)). lia.
  - simpl.
    destruct (omapM_returns (build_node (read_points root) (read_connections root).1 d)
                (default [] ((read_connections root).1 !! node_id))) as [cs ->];
      [|simpl; eauto].
    intros child Hchild. apply IH. intros n Hc.
    rewrite children_map_successors in Hchild. apply successors_edge in Hchild.
    specialize (Habove (S n) (chain_step _ _ _ Hchild Hc)). lia.
Qed.

Lemma build_node_chain (depth : nat) (node_id : string) (n : SmartArtNode.t) :
  node depth node_id = Ok n -> forall k, chain root node_id k -> k < depth.
Proof.
  revert node_id n. induction depth as [|d IH]; intros node_id n Hn; [discriminate|].
  intros [|k] Hc; [lia|].
  apply chain_inv in Hc as (child & Hedge & Hc).
  simpl in Hn. destruct (omapM _ _) as [cs|] eqn:Hcs; simpl in Hn; [|discriminate].
  apply omapM_Forall2 in Hcs. rewrite children_map_successors in Hcs.
  apply edge_successor in Hedge.
  destruct (proj1 (list_elem_of_lookup _ _) Hedge) as [i Hi].
  destruct (Forall2_lookup_l _ _ _ _ _ Hcs Hi) as (n' & _ & Hn').
  specialize (IH _ _ Hn' k Hc). lia.
Qed.

(** The forest built from the ids [l] is the same at every call depth
    above their chains. *)
Lemma build_forest_above (l : list string) (depth : nat) :
  above_chains root l depth -> exists forest, omapM (node depth) l = Ok forest.
Proof.
  intros Habove. apply omapM_returns. intros x Hx. apply build_node_above.
  intros n. apply Habove, Hx.
Qed.

Lemma build_forest_agree (l : list string) (d d' : nat) (forest forest' : list SmartArtNode.t) :
  omapM (node d) l = Ok forest -> omapM (node d') l = Ok forest' -> forest = forest'.
Proof.
  intros H H'.
  assert (Hup : forall k f, k <= d `max` d' -> omapM (node k) l = Ok f ->
                  omapM (node (d `max` d')) l = Ok f).
  { intros k f Hk Hf. apply omapM_Forall2. apply omapM_Forall2 in Hf.
    eapply Forall2_impl; [exact Hf|]. intros x n Hn.
    apply (build_node_mono root k); assumption. }
  apply Hup in H; [|lia]. apply Hup in H'; [|lia]. congruence.
Qed.

Lemma build_forest_chains (l : list string) (depth : nat) (forest : list SmartArtNode.t) :
  omapM (node depth) l = Ok forest -> above_chains root l depth.
Proof.
  intros Hf x n Hx Hc. apply omapM_Forall2 in Hf.
  destruct (proj1 (list_elem_of_lookup _ _) Hx) as [i Hi].
  destruct (Forall2_lookup_l _ _ _ _ _ Hf Hi) as (n' & _ & Hn').
  exact (build_node_chain depth x n' Hn' n Hc).
Qed.

Lemma build_forest_facts (l : list string) (depth : nat) (forest : list SmartArtNode.t) :
  omapM (node depth) l = Ok forest ->
  forall n m, n ∈ forest -> m ∈ all_nodes n ->
    SmartArtNode.text m = default "" (PyDict.get (read_points root) (SmartArtNode.id m))
    /\ SmartArtNode.id <$> SmartArtNode.children m = successors root (SmartArtNode.id m).
Proof.
  intros Hf n m Hn Hm. apply omapM_Forall2 in Hf.
  destruct (proj1 (list_elem_of_lookup _ _) Hn) as [i Hi].
  destruct (Forall2_lookup_r _ _ _ _ _ Hf Hi) as (x & _ & Hx).
  pose proof (build_node_facts depth x n Hx) as Hall.
  rewrite Forall_forall in Hall. exact (Hall m Hm).
Qed.

Lemma above_rank (rank : string -> nat) (l : list string) :
  (forall src dst, (src, dst) ∈ edges root -> rank dst < rank src) ->
  above_chains root l (S (list_max (rank <$> l))).
Proof.
  intros Hrank x n Hx Hc. apply (chain_rank rank Hrank) in Hc.
  assert (Forall (fun k => k <= list_max (rank <$> l)) (rank <$> l)) as Hmax
    by (apply list_max_le; lia).
  rewrite Forall_forall in Hmax.
  assert (rank x <= list_max (rank <$> l)) by (apply Hmax, list_elem_of_fmap; eauto).
  lia.
Qed.

End Chains.

Lemma build_smartart_hierarchy_unfold (depth : nat) (zipf : ZipFile)
    (data_model_path : string) (root : Element) :
  load_xml zipf data_model_path = Ok root ->
  build_smartart_hierarchy depth zipf data_model_path =
  omapM (build_node (read_points root) (read_connections root).1 depth)
    (match roots_of (read_points root) (read_connections root).2 with
     | [] => points root
     | roots => roots
     end).
Proof.
  intros Hroot. unfold build_smartart_hierarchy. rewrite Hroot, bind_Ok.
  destruct (read_connections root) as [cm ind]. simpl.
  destruct (roots_of (read_points root) ind); reflexivity.
Qed.

Lemma roots_of_points (root : Element) (node_id : string) :
  node_id ∈ roots_of (read_points root) (read_connections root).2 <->
  node_id ∈ points root /\ forall src, (src, node_id) ∉ edges root.
Proof.
  unfold roots_of, points. rewrite list_elem_of_In, filter_In, <- list_elem_of_In.
  rewrite Nat.eqb_eq, indegree_zero_no_edge. reflexivity.
Qed.

(** C2, as the specification words it, fails: in a data model where
    every point has an incoming edge, so that no point is a root, the
    fallback still follows the outgoing edges, and the point A keeps its
    child B. *)
Lemma fallback_root_keeps_child :
  points Fixtures.rootless = ["A"; "B"]
  /\ roots_of (read_points Fixtures.rootless) (read_connections Fixtures.rootless).2 = []
  /\ build_smartart_hierarchy 2 Fixtures.diagrams "xl/diagrams/data1.xml"
     = Ok [SmartArtNode.mk "A" "Node A" [SmartArtNode.mk "B" "Node B" []];
           SmartArtNode.mk "B" "Node B" []]
  /\ build_smartart_hierarchy 2 Fixtures.diagrams "xl/diagrams/data1.xml"
     <> Ok [SmartArtNode.mk "A" "Node A" []; SmartArtNode.mk "B" "Node B" []].
Proof.
  split; [vm_compute; reflexivity|]. split; [vm_compute; reflexivity|].
  assert (E : build_smartart_hierarchy 2 Fixtures.diagrams "xl/diagrams/data1.xml"
     = Ok [SmartArtNode.mk "A" "Node A" [SmartArtNode.mk "B" "Node B" []];
           SmartArtNode.mk "B" "Node B" []]) by (vm_compute; reflexivity).
  split; [exact E|]. rewrite E. discriminate.
Qed.

(** C2, amended: when the point list is not empty, no point has
    indegree zero and the edges have no cycle (some rank decreases along
    every edge, which bounds every chain of connections), every point
    becomes a root of the forest, in point order, and every node of the
    forest, at every level, keeps as children the destinations of its
    outgoing edges, in connection order; the same forest is returned at
    every call depth, counted in nested calls of [build_node], that is
    greater than the number of connections of every chain that starts at
    a point. *)
Theorem fallback_roots (zipf : ZipFile) (data_model_path : string) (root : Element)
    (rank : string -> nat) :
  load_xml zipf data_model_path = Ok root ->
  (forall src dst, (src, dst) ∈ edges root -> rank dst < rank src) ->
  points root <> [] ->
  (forall node_id, node_id ∈ points root -> exists src, (src, node_id) ∈ edges root) ->
  (forall node_id n, chain root node_id n -> n <= rank node_id)
  /\ exists forest,
       (forall depth, above_chains root (points root) depth ->
          build_smartart_hierarchy depth zipf data_model_path = Ok forest)
       /\ SmartArtNode.id <$> forest = points root
       /\ forall n m, n ∈ forest -> m ∈ all_nodes n ->
            SmartArtNode.id <$> SmartArtNode.children m
            = successors root (SmartArtNode.id m).
Proof.
  intros Hroot Hrank _ Hin.
  assert (Hnoroots : roots_of (read_points root) (read_connections root).2 = []).
  { destruct (roots_of _ _) as [|r l] eqn:E; [reflexivity|]. exfalso.
    assert (r ∈ roots_of (read_points root) (read_connections root).2) as Hr
      by (rewrite E; left).
    apply roots_of_points in Hr as [Hp Hno].
    destruct (Hin r Hp) as [src Hsrc]. exact (Hno src Hsrc). }
  split; [exact (chain_rank root rank Hrank)|].
  destruct (build_forest_above root (points root) _ (above_rank root rank _ Hrank))
    as [forest Hforest].
  exists forest. split; [|split].
  - intros depth Habove.
    rewrite (build_smartart_hierarchy_unfold _ _ _ _ Hroot), Hnoroots.
    destruct (build_forest_above root (points root) depth Habove) as [forest' Hforest'].
    rewrite Hforest'. f_equal. exact (build_forest_agree root _ _ _ _ _ Hforest' Hforest).
  - apply omapM_Forall2 in Hforest. exact (build_forest_ids root _ _ _ Hforest).
  - intros n m Hn Hm. exact (proj2 (build_forest_facts root _ _ _ Hforest n m Hn Hm)).
Qed.

Lemma rank_abc_rootless (src dst : string) :
  (src, dst) ∈ edges Fixtures.rootless -> Fixtures.rank_abc dst < Fixtures.rank_abc src.
Proof.
  intros H. vm_compute in H.
  apply elem_of_cons in H as [[= -> ->]|H]; [vm_compute; lia|].
  apply elem_of_cons in H as [[= -> ->]|H]; [vm_compute; lia|].
  inversion H.
Qed.

Lemma fallback_roots_witness :
  exists forest,
    build_smartart_hierarchy 2 Fixtures.diagrams "xl/diagrams/data1.xml" = Ok forest
    /\ SmartArtNode.id <$> forest = ["A"; "B"].
Proof.
  destruct (fallback_roots Fixtures.diagrams "xl/diagrams/data1.xml" Fixtures.rootless
              Fixtures.rank_abc) as (Hchain & forest & Hbuild & Hids & _).
  - vm_compute. reflexivity.
  - exact rank_abc_rootless.
  - vm_compute. discriminate.
  - intros node_id H. vm_compute in H.
    apply elem_of_cons in H as [->|H]; [exists "X"; vm_compute; left|].
    apply elem_of_cons in H as [->|H]; [exists "A"; vm_compute; right; left|].
    inversion H.
  - exists forest. split; [|rewrite Hids; vm_compute; reflexivity].
    apply Hbuild. intros node_id n Hin Hc. apply Hchain in Hc.
    vm_compute in Hin.
    apply elem_of_cons in Hin as [->|Hin]; [vm_compute in Hc; lia|].
    apply elem_of_cons in Hin as [->|Hin]; [vm_compute in Hc; lia|].
    inversion Hin.
Defined.

(** C3, as the specification words it, fails: on a point connected to
    itself no call depth is enough, and the call ends in [RecursionError]
    instead of a forest. *)
Lemma self_loop_never_returns :
  ~ exists depth forest,
      build_smartart_hierarchy depth Fixtures.diagrams "xl/diagrams/data2.xml" = Ok forest.
Proof.
  intros (depth & forest & H).
  rewrite (build_smartart_hierarchy_unfold _ _ _ Fixtures.self_loop) in H
    by (vm_compute; reflexivity).
  assert (Hroots : roots_of (read_points Fixtures.self_loop)
                     (read_connections Fixtures.self_loop).2 = [])
    by (vm_compute; reflexivity).
  assert (Hpoints : points Fixtures.self_loop = ["A"]) by (vm_compute; reflexivity).
  assert (Hsucc : default [] ((read_connections Fixtures.self_loop).1 !! "A") = ["A"])
    by (rewrite children_map_successors; vm_compute; reflexivity).
  rewrite Hroots, Hpoints in H.
  assert (Hloop : forall d, build_node (read_points Fixtures.self_loop)
                              (read_connections Fixtures.self_loop).1 d "A"
                            = Raise RecursionError).
  { induction d as [|d IH]; [reflexivity|].
    cbn [build_node]. rewrite Hsucc. cbn [omapM]. rewrite IH. reflexivity. }
  cbn [omapM] in H. rewrite Hloop in H. discriminate.
Qed.

(** C3, amended: when the edges of the data model have no cycle (some
    rank decreases along every edge, which bounds every chain of
    connections), the builder returns the same forest at every call
    depth, counted in nested calls of [build_node], that is greater than
    the number of connections of every chain that starts at an id it
    starts from, whether or not a point has indegree zero, and at no
    other call depth; the roots of the forest are points of the model,
    and every node, at every level, carries the destinations of its
    outgoing edges as children. *)
Theorem acyclic_hierarchy_returns (zipf : ZipFile) (data_model_path : string)
    (root : Element) (rank : string -> nat) :
  load_xml zipf data_model_path = Ok root ->
  (forall src dst, (src, dst) ∈ edges root -> rank dst < rank src) ->
  (forall node_id n, chain root node_id n -> n <= rank node_id)
  /\ exists forest,
       (forall depth, above_chains root (start_ids root) depth ->
          build_smartart_hierarchy depth zipf data_model_path = Ok forest)
       /\ (forall depth forest',
             build_smartart_hierarchy depth zipf data_model_path = Ok forest' ->
             above_chains root (start_ids root) depth)
       /\ (forall n, n ∈ forest -> SmartArtNode.id n ∈ points root)
       /\ (forall n m, n ∈ forest -> m ∈ all_nodes n ->
             SmartArtNode.id <$> SmartArtNode.children m
             = successors root (SmartArtNode.id m)).
Proof.
  intros Hroot Hrank.
  split; [exact (chain_rank root rank Hrank)|].
  destruct (build_forest_above root (start_ids root) _ (above_rank root rank _ Hrank))
    as [forest Hforest].
  exists forest. split; [|split; [|split]].
  - intros depth Habove.
    rewrite (build_smartart_hierarchy_unfold _ _ _ _ Hroot). fold (start_ids root).
    destruct (build_forest_above root (start_ids root) depth Habove) as [forest' Hforest'].
    rewrite Hforest'. f_equal. exact (build_forest_agree root _ _ _ _ _ Hforest' Hforest).
  - intros depth forest' Hrun.
    rewrite (build_smartart_hierarchy_unfold _ _ _ _ Hroot) in Hrun.
    exact (build_forest_chains root _ _ _ Hrun).
  - intros n Hn.
    assert (SmartArtNode.id n ∈ start_ids root) as Hs.
    { apply omapM_Forall2 in Hforest.
      rewrite <- (build_forest_ids root _ _ _ Hforest). apply list_elem_of_fmap. eauto. }
    unfold start_ids in Hs.
    destruct (roots_of _ _) as [|r l] eqn:E; [exact Hs|].
    rewrite <- E in Hs. apply roots_of_points in Hs as [Hp _]. exact Hp.
  - intros n m Hn Hm. exact (proj2 (build_forest_facts root _ _ _ Hforest n m Hn Hm)).
Qed.

Lemma acyclic_hierarchy_returns_witness :
  exists forest,
    build_smartart_hierarchy 2 Fixtures.diagrams "xl/diagrams/data3.xml" = Ok forest.
Proof.
  destruct (acyclic_hierarchy_returns Fixtures.diagrams "xl/diagrams/data3.xml"
              Fixtures.tree3 Fixtures.rank_abc) as (Hchain & forest & Hbuild & _).
  - vm_compute. reflexivity.
  - intros src dst H. vm_compute in H.
    apply elem_of_cons in H as [[= -> ->]|H]; [vm_compute; lia|].
    apply elem_of_cons in H as [[= -> ->]|H]; [vm_compute; lia|].
    inversion H.
  - exists forest. apply Hbuild. intros node_id n Hin Hc. apply Hchain in Hc.
    vm_compute in Hin.
    apply elem_of_cons in Hin as [->|Hin]; [vm_compute in Hc; lia|].
    inversion Hin.
Defined.

(** The tree of the specification: points A, B, C with the connections
    A to B and A to C give one root A with the children B and C. *)
Example tree3_forest :
  build_smartart_hierarchy 2 Fixtures.diagrams "xl/diagrams/data3.xml"
  = Ok [SmartArtNode.mk "A" "Node A"
          [SmartArtNode.mk "B" "Node B" []; SmartArtNode.mk "C" "Node C" []]].
Proof. vm_compute. reflexivity. Qed.

(** ** Error containment in [process_excel] *)

(** C4 does not hold of the code: the call of [extract_images_and_shapes]
    is not guarded, so a drawing part that does not parse ends the whole
    run with [ParseError]; nothing is returned for the second sheet, whose
    drawing is well formed. *)
Theorem malformed_drawing_aborts_run :
  load_xml Fixtures.broken_drawing_book "xl/drawings/drawing1.xml" = Raise ParseError
  /\ (process_excel "/" 10 "2024-01-01T00:00:00" ∅ Fixtures.broken_drawing_book
        "/in/book.xlsx" "/out" ∅).1 = Raise ParseError.
Proof. split; vm_compute; reflexivity. Qed.

(** The sibling path: a diagram data model that does not parse is
    skipped, and the run goes on to the second sheet. *)
Example malformed_diagram_is_skipped :
  (process_excel "/" 10 "2024-01-01T00:00:00" ∅ Fixtures.broken_diagram_book
     "/in/book.xlsx" "/out" ∅).1
  = Ok (mkResult [Fixtures.second_sheet_image] []
          (mkMetadata "book.xlsx" "2024-01-01T00:00:00" ["First"; "Second"])
          [mkSheetEntry "First" [] [] [] [] "xl/worksheets/sheet1.xml";
           mkSheetEntry "Second" [] [Fixtures.second_sheet_image] [] [] "xl/worksheets/sheet2.xml"]).
Proof. vm_compute. reflexivity. Qed.

(** ** Path normalisation *)

Section Strings.

Lemma string_app_cons (a : ascii) (s t : string) : String a s +:+ t = String a (s +:+ t).
Proof. reflexivity. Qed.

Lemma string_app_nil_r (s : string) : s +:+ "" = s.
Proof.
  induction s as [|a s IH]; [reflexivity|]. rewrite string_app_cons, IH. reflexivity.
Qed.

Lemma string_app_assoc (s t u : string) : (s +:+ t) +:+ u = s +:+ t +:+ u.
Proof.
  induction s as [|a s IH]; [reflexivity|]. rewrite !string_app_cons, IH. reflexivity.
Qed.

Lemma split_cons (c : ascii) (s : string) : exists x l, Py.split c s = x :: l.
Proof.
  induction s as [|a s (x & l & IH)]; simpl; [eauto|].
  destruct (Ascii.eqb a c); [eauto|]. rewrite IH. eauto.
Qed.

Lemma split_app_sep (c : ascii) (s t : string) :
  Py.split c (s +:+ String c t) = Py.split c s ++ Py.split c t.
Proof.
  induction s as [|a s IH].
  - change ("" +:+ String c t) with (String c t). simpl.
    rewrite Ascii.eqb_refl. reflexivity.
  - rewrite string_app_cons. simpl. destruct (Ascii.eqb a c).
    + rewrite IH. reflexivity.
    + rewrite IH. destruct (split_cons c s) as (x & l & ->). reflexivity.
Qed.

Lemma split_without_sep (c : ascii) (s : string) :
  Py.contains c s = false -> Py.split c s = [s].
Proof.
  induction s as [|a s IH]; simpl; [reflexivity|].
  intros [Ha Hs]%orb_false_elim. rewrite Ha, (IH Hs). reflexivity.
Qed.

Lemma split_parts_without_sep (c : ascii) (s : string) :
  Forall (fun x => Py.contains c x = false) (Py.split c s).
Proof.
  induction s as [|a s IH]; simpl; [repeat constructor|].
  destruct (Ascii.eqb a c) eqn:Ha; [constructor; [reflexivity|exact IH]|].
  destruct (Py.split c s) as [|x l]; [repeat constructor; simpl; rewrite Ha; reflexivity|].
  inversion IH; subst. constructor; [|assumption]. simpl. rewrite Ha. assumption.
Qed.

Lemma split_join (comps : list string) :
  comps <> [] ->
  Forall (fun x => Py.contains "/" x = false) comps ->
  Py.split "/" (Py.join "/" comps) = comps.
Proof.
  induction comps as [|x comps IH]; [congruence|]. intros _ Hall.
  inversion Hall as [|? ? Hx Hrest]; subst.
  destruct comps as [|y comps]; [apply split_without_sep, Hx|].
  change (Py.join "/" (x :: y :: comps)) with (x +:+ String "/" (Py.join "/" (y :: comps))).
  rewrite split_app_sep, (split_without_sep _ _ Hx), IH by (congruence || assumption).
  reflexivity.
Qed.

End Strings.

Section NormpathLoop.
Context (i : nat).

Lemma normal_comps_nil : normal_comps i [].
Proof.
  split; [constructor|]. exists 0, [].
  split; [reflexivity|]. split; [apply not_elem_of_nil|reflexivity].
Qed.

Lemma plain_dotdot : plain_comp "..".
Proof. repeat split; discriminate. Qed.

Lemma normal_comps_push (acc : list string) (comp : string) :
  normal_comps i acc -> plain_comp comp -> comp <> ".." ->
  normal_comps i (acc ++ [comp]).
Proof.
  intros [Hall (k & rest & -> & Hrest & Hk)] Hc Hne. split.
  - apply Forall_app. split; [assumption|]. constructor; [assumption|constructor].
  - exists k, (rest ++ [comp]). rewrite app_assoc. repeat split; [|assumption].
    rewrite not_elem_of_app, not_elem_of_cons. repeat split; [assumption|congruence|].
    apply not_elem_of_nil.
Qed.

Lemma last_dotdot_all (k : nat) (rest : list string) :
  ".." ∉ rest -> last (replicate k ".." ++ rest) = Some ".." -> rest = [].
Proof.
  intros Hrest Hlast. destruct rest as [|x rest _] using rev_ind; [reflexivity|].
  rewrite app_assoc, last_snoc in Hlast. injection Hlast as ->.
  exfalso. apply Hrest. rewrite elem_of_app, list_elem_of_singleton. right. reflexivity.
Qed.

Lemma normal_comps_push_dotdot (acc : list string) :
  normal_comps i acc -> (i = 0 /\ acc = []) \/ last acc = Some ".." ->
  normal_comps i (acc ++ [".."]) /\ i = 0.
Proof.
  intros [Hall (k & rest & -> & Hrest & Hk)] Hcase.
  assert (rest = [] /\ i = 0) as [-> Hi].
  { destruct Hcase as [[Hi Hnil]|Hlast].
    - apply app_eq_nil in Hnil as [_ ->]. split; [reflexivity|assumption].
    - pose proof (last_dotdot_all k rest Hrest Hlast) as ->. split; [reflexivity|].
      destruct (decide (i = 0)) as [|Hne]; [assumption|].
      rewrite (Hk Hne) in Hlast. discriminate. }
  split; [|assumption]. split.
  - apply Forall_app. split; [assumption|]. constructor; [apply plain_dotdot|constructor].
  - exists (S k), []. rewrite app_nil_r, replicate_S_end, app_nil_r.
    repeat split; [apply not_elem_of_nil|congruence].
Qed.

Lemma normal_comps_pop (acc : list string) :
  normal_comps i acc -> last acc <> Some ".." -> normal_comps i (removelast acc).
Proof.
  intros [Hall (k & rest & -> & Hrest & Hk)] Hlast.
  destruct rest as [|x rest _] using rev_ind.
  - rewrite app_nil_r in *. destruct k as [|k]; [apply normal_comps_nil|].
    exfalso. apply Hlast. rewrite replicate_S_end, last_snoc. reflexivity.
  - rewrite app_assoc, removelast_last. split.
    + rewrite app_assoc in Hall. apply Forall_app in Hall as [Hall _]. exact Hall.
    + exists k, rest. repeat split; [|assumption].
      intros Hin. apply Hrest. rewrite elem_of_app. left. exact Hin.
Qed.

Lemma normpath_loop_normal (comps acc : list string) :
  Forall (fun x => Py.contains "/" x = false) comps ->
  normal_comps i acc ->
  normal_comps i (posixpath.normpath_loop i comps acc).
Proof.
  intros Hsep. revert acc. induction Hsep as [|comp comps Hc _ IH]; intros acc Hacc;
    [exact Hacc|].
  simpl. case_bool_decide as H1; simpl; [apply IH, Hacc|].
  case_bool_decide as H2; simpl; [apply IH, Hacc|].
  case_bool_decide as H3; simpl.
  - subst comp. destruct (i =? 0) eqn:Hi; simpl.
    + apply Nat.eqb_eq in Hi. case_bool_decide as H4; simpl.
      * apply IH, normal_comps_push_dotdot; [assumption|]. left. split; assumption.
      * case_bool_decide as H5; simpl.
        -- apply IH, normal_comps_push_dotdot; [assumption|]. right. assumption.
        -- apply IH, normal_comps_pop; assumption.
    + case_bool_decide as H4; simpl; [apply IH, Hacc|].
      case_bool_decide as H5; simpl.
      * apply IH, normal_comps_push_dotdot; [assumption|]. right. assumption.
      * apply IH, normal_comps_pop; assumption.
  - apply IH, normal_comps_push; [assumption| |assumption]. repeat split; assumption.
Qed.

(** A normal component list goes through the loop unchanged. *)
Lemma normpath_loop_fixed (comps acc : list string) :
  normal_comps i (acc ++ comps) ->
  posixpath.normpath_loop i comps acc = acc ++ comps.
Proof.
  revert acc. induction comps as [|comp comps IH]; intros acc Hn;
    [rewrite app_nil_r; reflexivity|].
  assert (Hn' : normal_comps i ((acc ++ [comp]) ++ comps))
    by (rewrite <- app_assoc; exact Hn).
  assert (Hplain : plain_comp comp).
  { destruct Hn as [Hall _]. apply Forall_app in Hall as [_ Hall].
    inversion Hall; assumption. }
  destruct Hplain as (H1 & H2 & _).
  simpl. rewrite !bool_decide_eq_false_2 by assumption. simpl.
  case_bool_decide as H3; simpl;
    [|rewrite (IH _ Hn'), <- app_assoc; reflexivity].
  subst comp.
  assert (Hcond : (i =? 0) && bool_decide (acc = [])
                  || negb (bool_decide (acc = [])) && bool_decide (last acc = Some "..")
                  = true).
  { destruct Hn as [_ (k & rest & Heq & Hrest & Hk)].
    assert (Hlen : length acc < k).
    { destruct (decide (length acc < k)) as [|Hge]; [assumption|]. exfalso.
      apply Hrest.
      assert ((acc ++ ".." :: comps) !! length acc = Some "..") as Hlook
        by (rewrite lookup_app_r, Nat.sub_diag by lia; reflexivity).
      rewrite Heq, lookup_app_r in Hlook by (rewrite length_replicate; lia).
      apply list_elem_of_lookup. eauto. }
    assert (Hacc : acc = replicate (length acc) "..").
    { assert (take (length acc) (acc ++ ".." :: comps) = acc) as Ht
        by (rewrite take_app_length; reflexivity).
      rewrite Heq, take_app_le, take_replicate in Ht by (rewrite length_replicate; lia).
      rewrite Nat.min_l in Ht by lia. congruence. }
    assert (Hi : i = 0) by (destruct (decide (i = 0)); [assumption|]; specialize (Hk n); lia).
    subst i. simpl. destruct acc as [|a acc]; [reflexivity|].
    rewrite bool_decide_eq_false_2 by discriminate. simpl.
    apply bool_decide_eq_true. rewrite Hacc. simpl length.
    rewrite replicate_S_end, last_snoc. reflexivity. }
  rewrite Hcond. rewrite (IH _ Hn'), <- app_assoc. reflexivity.
Qed.

Lemma normpath_loop_app (l1 l2 acc : list string) :
  posixpath.normpath_loop i (l1 ++ l2) acc
  = posixpath.normpath_loop i l2 (posixpath.normpath_loop i l1 acc).
Proof.
  revert acc. induction l1 as [|comp l1 IH]; intros acc; [reflexivity|]. simpl.
  destruct (bool_decide (comp = "") || bool_decide (comp = ".")); [apply IH|].
  destruct (negb (bool_decide (comp = ".."))
            || (i =? 0) && bool_decide (acc = [])
            || negb (bool_decide (acc = [])) && bool_decide (last acc = Some ".."));
    [apply IH|].
  destruct (negb (bool_decide (acc = []))); apply IH.
Qed.

Lemma normpath_loop_blank (l acc : list string) :
  Forall (fun x => x = "" \/ x = ".") l -> posixpath.normpath_loop i l acc = acc.
Proof. induction 1 as [|x l [->| ->] _ IHl]; [reflexivity| |]; simpl; exact IHl. Qed.

(** Empty and [.] components around a normal list do not count. *)
Lemma normpath_loop_skips (pre comps post acc : list string) :
  Forall (fun x => x = "" \/ x = ".") pre ->
  Forall (fun x => x = "" \/ x = ".") post ->
  normal_comps i (acc ++ comps) ->
  posixpath.normpath_loop i (pre ++ comps ++ post) acc = acc ++ comps.
Proof.
  intros Hpre Hpost Hn.
  rewrite !normpath_loop_app, (normpath_loop_blank _ _ Hpre),
    (normpath_loop_fixed _ _ Hn).
  apply normpath_loop_blank, Hpost.
Qed.

End NormpathLoop.

Section WrittenPaths.

Lemma join_first (c : string) (l : list string) :
  plain_comp c ->
  exists a rest, Py.join "/" (c :: l) = String a rest /\ a <> "/"%char
                 /\ (a = "."%char -> exists b rest', rest = String b rest' /\ b <> "/"%char).
Proof.
  intros (Hne & Hdot & Hsep). destruct c as [|a c]; [congruence|].
  simpl in Hsep. apply orb_false_elim in Hsep as [Ha Hc].
  apply Ascii.eqb_neq in Ha.
  exists a, (match l with [] => c | _ => c +:+ String "/" (Py.join "/" l) end).
  split; [destruct l; reflexivity|]. split; [assumption|].
  intros ->. destruct c as [|b c]; [congruence|].
  simpl in Hc. apply orb_false_elim in Hc as [Hb _]. apply Ascii.eqb_neq in Hb.
  destruct l; eauto.
Qed.

Lemma startswith_cons (b a : ascii) (s p : string) :
  Py.startswith (String b s) (String a p) = Ascii.eqb a b && Py.startswith s p.
Proof. reflexivity. Qed.

Lemma startswith_sep_false (a : ascii) (s : string) :
  a <> "/"%char -> Py.startswith (String a s) "/" = false.
Proof.
  intros Ha. rewrite startswith_cons.
  destruct (Ascii.eqb_spec "/" a); [congruence|reflexivity].
Qed.

Lemma slashes_cases (i : nat) (Hi : i <= 2) : i = 0 \/ i = 1 \/ i = 2.
Proof. lia. Qed.

Lemma written_path_nonempty (i : nat) (comps : list string) (Hi : i <= 2) (Hn : normal_comps i comps)
    (c : string) (l : list string) :
  comps = c :: l ->
  written_path i comps = posixpath.slashes i +:+ Py.join "/" comps.
Proof.
  intros ->. destruct Hn as [Hall _]. inversion Hall as [|? ? Hc _]; subst.
  destruct (join_first c l Hc) as (a & rest & Hj & _).
  unfold written_path. rewrite Hj.
  destruct (slashes_cases i Hi) as [->|[->| ->]]; reflexivity.
Qed.

Lemma written_path_no_dot_slash (i : nat) (comps : list string) (Hi : i <= 2) (Hn : normal_comps i comps) :
  Py.startswith (written_path i comps) "./" = false.
Proof.
  destruct comps as [|c l].
  - destruct (slashes_cases i Hi) as [->|[->| ->]]; reflexivity.
  - rewrite (written_path_nonempty i (c :: l) Hi Hn c l eq_refl).
    destruct Hn as [Hall _]. inversion Hall as [|? ? Hp _]; subst.
    destruct (join_first c l Hp) as (a & rest & -> & Ha & Hdot).
    destruct (slashes_cases i Hi) as [->|[->| ->]]; [|reflexivity..].
    change (posixpath.slashes 0 +:+ String a rest) with (String a rest).
    rewrite startswith_cons.
    destruct (Ascii.eqb_spec "." a) as [<-|]; [|reflexivity].
    destruct (Hdot eq_refl) as (b & rest' & -> & Hb).
    rewrite startswith_sep_false by assumption. reflexivity.
Qed.

Lemma strip_dot_slash_written (i : nat) (comps : list string) (Hi : i <= 2) (Hn : normal_comps i comps)
    (fuel : nat) :
  strip_dot_slash fuel (written_path i comps) = written_path i comps.
Proof.
  destruct fuel; simpl; [reflexivity|].
  rewrite written_path_no_dot_slash by assumption. reflexivity.
Qed.

Lemma plain_without_sep (i : nat) (comps : list string) (Hi : i <= 2) (Hn : normal_comps i comps) :
  Forall (fun x => Py.contains "/" x = false) comps.
Proof. destruct Hn as [Hall _]. eapply Forall_impl; [exact Hall|]. intros x (_ & _ & H). exact H. Qed.

Lemma segments_written (i : nat) (comps : list string) (Hi : i <= 2) (Hn : normal_comps i comps)
    (c : string) (l : list string) :
  comps = c :: l ->
  segments (written_path i comps) = replicate i "" ++ comps.
Proof.
  intros Hc. rewrite (written_path_nonempty i comps Hi Hn c l Hc). unfold segments.
  assert (Hs : Py.split "/" (Py.join "/" comps) = comps)
    by (apply split_join; [congruence|apply (plain_without_sep i); assumption]).
  destruct (slashes_cases i Hi) as [->|[->| ->]].
  - exact Hs.
  - change (posixpath.slashes 1 +:+ ?s) with (String "/" s). simpl. rewrite Hs. reflexivity.
  - change (posixpath.slashes 2 +:+ ?s) with (String "/" (String "/" s)). simpl.
    rewrite Hs. reflexivity.
Qed.

Lemma segments_written_nil (i : nat) (Hi : i <= 2) :
  segments (written_path i [])
  = match i with 0 => ["."] | _ => replicate (S i) "" end.
Proof. destruct (slashes_cases i Hi) as [->|[->| ->]]; reflexivity. Qed.

End WrittenPaths.

Lemma normpath_written (path : string) :
  exists i comps, i <= 2 /\ normal_comps i comps
                  /\ posixpath.normpath path = written_path i comps.
Proof.
  unfold posixpath.normpath. destruct (Py.is_empty path) eqn:He.
  - exists 0, []. split; [lia|]. split; [apply normal_comps_nil|reflexivity].
  - exists (posixpath.initial_slashes path),
      (posixpath.normpath_loop (posixpath.initial_slashes path)
         (Py.split posixpath.sep path) []).
    split; [|split; [|reflexivity]].
    + unfold posixpath.initial_slashes. repeat case_match; lia.
    + apply normpath_loop_normal; [apply split_parts_without_sep|apply normal_comps_nil].
Qed.

Lemma normalize_rel_target_written (base_dir_in_zip target : string) :
  exists i comps, i <= 2 /\ normal_comps i comps
                  /\ normalize_rel_target base_dir_in_zip target = written_path i comps.
Proof.
  unfold normalize_rel_target.
  destruct (normpath_written (posixpath.join base_dir_in_zip target))
    as (i & comps & Hi & Hn & ->).
  exists i, comps. split; [assumption|]. split; [assumption|].
  apply strip_dot_slash_written; assumption.
Qed.

Lemma take_drop_string (n : nat) (s : string) : s = Py.take n s +:+ Py.drop n s.
Proof.
  revert s. induction n as [|n IH]; intros [|a s]; try reflexivity.
  simpl. rewrite string_app_cons, <- IH. reflexivity.
Qed.

Lemma endswith_sep (s : string) :
  Py.endswith s "/" = true -> exists s', s = s' +:+ "/".
Proof.
  unfold Py.endswith. intros [_ H]%andb_true_iff. apply String.eqb_eq in H.
  exists (Py.take (String.length s - String.length "/") s).
  pose proof (take_drop_string (String.length s - String.length "/") s) as E.
  rewrite H in E. exact E.
Qed.

Lemma initial_slashes_written (i : nat) (a : ascii) (rest : string) :
  i <= 2 -> a <> "/"%char ->
  posixpath.initial_slashes (posixpath.slashes i +:+ String a rest) = i.
Proof.
  intros Hi Ha.
  assert (Py.startswith (String a rest) "/" = false) as H
    by (apply startswith_sep_false; assumption).
  assert (i = 0 \/ i = 1 \/ i = 2) as [->|[->| ->]] by lia.
  - change (posixpath.slashes 0 +:+ ?s) with s.
    unfold posixpath.initial_slashes. rewrite H. reflexivity.
  - change (posixpath.slashes 1 +:+ ?s) with (String "/" s).
    unfold posixpath.initial_slashes.
    change (Py.startswith (String "/" ?s) "//") with (Py.startswith s "/").
    rewrite H. reflexivity.
  - change (posixpath.slashes 2 +:+ ?s) with (String "/" (String "/" s)).
    unfold posixpath.initial_slashes.
    change (Py.startswith (String "/" (String "/" ?s)) "///") with (Py.startswith s "/").
    rewrite H. reflexivity.
Qed.

(** Normalising a written path against itself and the empty target. *)
Lemma normalize_written_again (i : nat) (comps : list string) :
  i <= 2 -> normal_comps i comps ->
  normalize_rel_target (written_path i comps) "" = written_path i comps.
Proof.
  intros Hi Hn. destruct comps as [|c l] eqn:Hc.
  - assert (i = 0 \/ i = 1 \/ i = 2) as [->|[->| ->]] by lia; vm_compute; reflexivity.
  - rewrite <- Hc in *.
    pose proof (written_path_nonempty i comps Hi Hn c l Hc) as Hw.
    pose proof (segments_written i comps Hi Hn c l Hc) as Hseg.
    assert (Hplain : plain_comp c).
    { destruct Hn as [Hall _]. rewrite Hc in Hall. inversion Hall; assumption. }
    destruct (join_first c l Hplain) as (a & rest & Hj & Ha & _).
    assert (Hend : Py.endswith (written_path i comps) "/" = false).
    { destruct (Py.endswith (written_path i comps) "/") eqn:E; [|reflexivity]. exfalso.
      apply endswith_sep in E as [s' Hs'].
      unfold segments in Hseg. rewrite Hs', split_app_sep in Hseg. simpl in Hseg.
      assert (last (replicate i "" ++ comps) = Some "") as Hlast
        by (rewrite <- Hseg; apply last_snoc).
      destruct Hn as [Hall _].
      destruct comps as [|x comps' _] using rev_ind; [discriminate|].
      rewrite app_assoc, last_snoc in Hlast. injection Hlast as ->.
      apply Forall_app in Hall as [_ Hall]. inversion Hall as [|? ? (Hx & _) _]. congruence. }
    assert (Hjoin : posixpath.join (written_path i comps) ""
                    = written_path i comps +:+ "/").
    { unfold posixpath.join. simpl Py.startswith. cbv iota. rewrite Hend.
      rewrite Hw, Hc, Hj.
      assert (i = 0 \/ i = 1 \/ i = 2) as [->|[->| ->]] by lia; reflexivity. }
    unfold normalize_rel_target. rewrite Hjoin.
    assert (Hnorm : posixpath.normpath (written_path i comps +:+ "/")
                    = written_path i comps).
    { unfold posixpath.normpath.
      assert (written_path i comps +:+ "/"
              = posixpath.slashes i +:+ String a (rest +:+ "/")) as Hshape.
      { rewrite Hw, Hc, Hj, string_app_assoc. reflexivity. }
      assert (Py.is_empty (written_path i comps +:+ "/") = false) as ->.
      { rewrite Hshape.
        assert (i = 0 \/ i = 1 \/ i = 2) as [->|[->| ->]] by lia; reflexivity. }
      assert (posixpath.initial_slashes (written_path i comps +:+ "/") = i) as ->
        by (rewrite Hshape; apply initial_slashes_written; assumption).
      assert (Py.split posixpath.sep (written_path i comps +:+ "/")
              = replicate i "" ++ comps ++ [""]) as ->.
      { change (written_path i comps +:+ "/")
          with (written_path i comps +:+ String posixpath.sep "").
        rewrite split_app_sep.
        change (Py.split posixpath.sep (written_path i comps))
          with (segments (written_path i comps)).
        rewrite Hseg, <- app_assoc. reflexivity. }
      rewrite normpath_loop_skips.
      - simpl app. fold (written_path i comps). reflexivity.
      - apply Forall_forall. intros x Hx%elem_of_replicate. left. apply Hx.
      - repeat constructor.
      - exact Hn. }
    rewrite Hnorm. apply strip_dot_slash_written; assumption.
Qed.

(** C6, as the specification words it, fails: a target that climbs above
    its base keeps a [..] segment. *)
Lemma climbing_target_keeps_dotdot :
  Py.startswith "../../x.png" "../" = true
  /\ normalize_rel_target "xl" "../../x.png" = "../x.png"
  /\ ".." ∈ segments (normalize_rel_target "xl" "../../x.png").
Proof.
  split; [reflexivity|]. split; [vm_compute; reflexivity|].
  vm_compute. left.
Qed.

(** C6, amended: for every base directory and target, the result has no
    [.] segment (unless it is [.] itself); its [..] segments, if any, are
    all in front, and there is none when the result starts with a slash;
    resolving the result again with itself as base and an empty target
    returns it unchanged.  Base [xl/drawings] with target
    [../media/x.png] yields [xl/media/x.png]. *)
Theorem normalize_rel_target_normal (base_dir_in_zip target : string) :
  let result := normalize_rel_target base_dir_in_zip target in
  (result = "." \/ "." ∉ segments result)
  /\ (exists k rest, segments result = replicate k ".." ++ rest /\ ".." ∉ rest)
  /\ (Py.startswith result "/" = true -> ".." ∉ segments result)
  /\ normalize_rel_target result "" = result
  /\ normalize_rel_target "xl/drawings" "../media/x.png" = "xl/media/x.png".
Proof.
  cbv zeta.
  destruct (normalize_rel_target_written base_dir_in_zip target)
    as (i & comps & Hi & Hn & ->).
  split; [|split; [|split; [|split; [apply normalize_written_again; assumption
                                     |vm_compute; reflexivity]]]].
  - destruct comps as [|c l] eqn:Hc.
    + destruct i as [|i']; [left; reflexivity|right].
      rewrite segments_written_nil by assumption.
      intros H%elem_of_replicate. destruct H; discriminate.
    + right. rewrite <- Hc in *. rewrite (segments_written i comps Hi Hn c l Hc).
      rewrite not_elem_of_app. split.
      * intros H%elem_of_replicate. destruct H; discriminate.
      * destruct Hn as [Hall _]. rewrite Forall_forall in Hall.
        intros Hin. destruct (Hall _ Hin) as (_ & Hdot & _). congruence.
  - destruct comps as [|c l] eqn:Hc.
    + exists 0. eexists. split; [reflexivity|].
      rewrite segments_written_nil by assumption. destruct i as [|i'].
      * rewrite list_elem_of_singleton. discriminate.
      * intros H%elem_of_replicate. destruct H; discriminate.
    + rewrite <- Hc in *. rewrite (segments_written i comps Hi Hn c l Hc).
      destruct Hn as [Hall (k & rest & Heq & Hrest & Hk)].
      destruct (decide (i = 0)) as [->|Hne].
      * exists k, rest. split; [exact Heq|exact Hrest].
      * exists 0, (replicate i "" ++ comps). split; [reflexivity|].
        rewrite not_elem_of_app. split.
        -- intros H%elem_of_replicate. destruct H; discriminate.
        -- rewrite Heq, (Hk Hne). exact Hrest.
  - intros Hroot. destruct comps as [|c l] eqn:Hc.
    + rewrite segments_written_nil by assumption. destruct i as [|i'].
      * rewrite list_elem_of_singleton. discriminate.
      * intros H%elem_of_replicate. destruct H; discriminate.
    + rewrite <- Hc in *. rewrite (segments_written i comps Hi Hn c l Hc).
      assert (Hne : i <> 0).
      { intros ->. rewrite (written_path_nonempty 0 comps Hi Hn c l Hc), Hc in Hroot.
        assert (Hplain : plain_comp c).
        { destruct Hn as [Hall _]. rewrite Hc in Hall. inversion Hall; assumption. }
        destruct (join_first c l Hplain) as (a & rest & Hj & Ha & _).
        rewrite Hj in Hroot.
        change (posixpath.slashes 0 +:+ ?s) with s in Hroot.
        rewrite startswith_sep_false in Hroot by assumption. discriminate. }
      destruct Hn as [Hall (k & rest & Heq & Hrest & Hk)].
      rewrite not_elem_of_app. split.
      * intros H%elem_of_replicate. destruct H; discriminate.
      * rewrite Heq, (Hk Hne). exact Hrest.
Qed.

(** ** Saved file names *)

Section FileNames.

(** A string of decimal digits. *)
Local Abbreviation digits_only s := (Py.lstrip_by Py.is_digit s = "").

Lemma digits_only_cons (a : ascii) (s : string) :
  digits_only (String a s) <-> Py.is_digit a = true /\ digits_only s.
Proof.
  simpl. destruct (Py.is_digit a); split; try tauto; try discriminate.
  intros [? _]. discriminate.
Qed.

Lemma pretty_N_char_digit (x : N) : Py.is_digit (pretty_N_char x) = true.
Proof. unfold pretty_N_char. repeat case_match; reflexivity. Qed.

Lemma pretty_N_go_digits (x : N) (s : string) :
  digits_only s -> digits_only (pretty_N_go x s).
Proof.
  revert s. induction (N.lt_wf_0 x) as [x _ IH]; intros s Hs.
  destruct (decide (x = 0)%N) as [->|Hx]; [rewrite pretty_N_go_0; exact Hs|].
  rewrite pretty_N_go_step by lia. apply IH.
  - apply N.div_lt; lia.
  - apply digits_only_cons. split; [apply pretty_N_char_digit|exact Hs].
Qed.

Lemma str_of_nat_digits (n : nat) : digits_only (Py.str_of_nat n).
Proof.
  unfold Py.str_of_nat, pretty, pretty_nat, pretty, pretty_N.
  case_decide; [reflexivity|]. apply pretty_N_go_digits. reflexivity.
Qed.

Lemma digits_prefix_inj (d1 d2 r1 r2 : string) :
  digits_only d1 -> digits_only d2 ->
  d1 +:+ String "." r1 = d2 +:+ String "." r2 -> d1 = d2.
Proof.
  revert d2. induction d1 as [|a d1 IH]; intros [|b d2] H1 H2 Heq;
    try reflexivity.
  - apply digits_only_cons in H2 as [Hb _]. injection Heq as <- _. discriminate.
  - apply digits_only_cons in H1 as [Ha _]. injection Heq as -> _. discriminate.
  - apply digits_only_cons in H1 as [_ H1]. apply digits_only_cons in H2 as [_ H2].
    rewrite !string_app_cons in Heq. injection Heq as -> Heq.
    f_equal. exact (IH _ H1 H2 Heq).
Qed.

Lemma rfind_succ_drop (c : ascii) (s : string) (k : nat) :
  Py.rfind_succ c s = S k -> exists r, Py.drop k s = String c r.
Proof.
  revert k. induction s as [|a s IH]; intros k; simpl; [discriminate|].
  destruct (Py.rfind_succ c s) as [|j] eqn:Hj.
  - destruct (Ascii.eqb_spec a c) as [->|]; [|discriminate].
    intros [= <-]. eauto.
  - intros [= <-]. apply IH. reflexivity.
Qed.

Lemma image_ext_dotted (part_in_zip : string) :
  exists r, image_ext part_in_zip = String "." r.
Proof.
  unfold image_ext, posixpath.splitext_ext.
  destruct (Py.rfind_succ "." part_in_zip) as [|k] eqn:Hk.
  - destruct (_ <? 0) eqn:E; [apply Nat.ltb_lt in E; lia|]. simpl. eauto.
  - destruct (_ <? S k); [|simpl; eauto].
    destruct (Py.is_empty (Py.lstrip_by _ _)); [simpl; eauto|].
    replace (S k - 1) with k by lia.
    destruct (rfind_succ_drop _ _ _ Hk) as [r ->]. simpl. eauto.
Qed.

Lemma safe_sheet_not_abs (in_run : bool) (sheet_name rest : string) :
  Py.startswith rest "/" = false ->
  Py.startswith (Py.sub_runs safe_char "_" in_run sheet_name +:+ rest) "/" = false.
Proof.
  intros Hrest. revert in_run. induction sheet_name as [|a s IH]; intros in_run;
    [exact Hrest|]. simpl.
  destruct (safe_char a) eqn:Ha.
  - rewrite string_app_cons. apply startswith_sep_false. intros ->. discriminate.
  - destruct in_run; [apply IH|]. reflexivity.
Qed.

Lemma image_out_name_not_abs (sheet_name : string) (counter : nat) (part : string) :
  Py.startswith (image_out_name sheet_name counter part) "/" = false.
Proof. apply safe_sheet_not_abs. reflexivity. Qed.

(** In one directory and for one sheet, equal paths mean equal counters
    and equal extensions. *)
Lemma image_path_inj (output_images_dir sheet_name : string)
    (w1 w2 : nat * string * Element) :
  image_path output_images_dir sheet_name w1 = image_path output_images_dir sheet_name w2 ->
  w1.1.1 = w2.1.1.
Proof.
  unfold image_path, posixpath.join. rewrite !image_out_name_not_abs.
  intros H.
  assert (Hname : image_out_name sheet_name w1.1.1 w1.1.2
                  = image_out_name sheet_name w2.1.1 w2.1.2).
  { destruct (Py.is_empty output_images_dir || Py.endswith output_images_dir "/").
    - exact (String.app_inj _ _ _ H).
    - apply String.app_inj in H. exact (String.app_inj _ _ _ H). }
  unfold image_out_name in Hname.
  apply String.app_inj, String.app_inj in Hname.
  destruct (image_ext_dotted w1.1.2) as [r1 E1].
  destruct (image_ext_dotted w2.1.2) as [r2 E2]. rewrite E1, E2 in Hname.
  apply digits_prefix_inj in Hname; [|apply str_of_nat_digits..].
  exact (inj pretty _ _ Hname).
Qed.

End FileNames.

Section SavedImages.
Context (zipf : ZipFile) (rels : PyDict.t rel) (base_dir_in_zip : string).
Context (output_images_dir sheet_name : string).

Lemma saved_images_counter (n : nat) (l : list Element) (w : nat * string * Element) :
  w ∈ saved_images zipf rels base_dir_in_zip n l -> n < w.1.1.
Proof.
  revert n. induction l as [|a l IH]; intros n; simpl; [intros H; inversion H|].
  destruct (picture_part zipf rels base_dir_in_zip a).
  - intros [->|H]%elem_of_cons; [simpl; lia|]. apply IH in H. lia.
  - apply IH.
Qed.

Lemma saved_images_member (n : nat) (l : list Element) (w : nat * string * Element) :
  w ∈ saved_images zipf rels base_dir_in_zip n l -> exists m, zipf !! w.1.2 = Some m.
Proof.
  revert n. induction l as [|a l IH]; intros n; simpl; [intros H; inversion H|].
  destruct (picture_part zipf rels base_dir_in_zip a) as [part|] eqn:Hp; [|apply IH].
  intros [->|H]%elem_of_cons; [|exact (IH _ H)]. simpl.
  unfold picture_part in Hp.
  destruct (find a _); [|discriminate]. simpl in Hp.
  destruct (find_desc _ _); [|discriminate]. simpl in Hp.
  destruct (present_in _ _) as [[? rl]|]; [|discriminate]. simpl in Hp.
  destruct (in_namelist zipf _) eqn:Hin; [|discriminate]. injection Hp as <-.
  apply in_namelist_open, Hin.
Qed.

Lemma saved_images_head (l : list Element) (w : nat * string * Element) :
  head (saved_images zipf rels base_dir_in_zip 0 l) = Some w ->
  w.1.1 = 1
  /\ exists ws, saved_images zipf rels base_dir_in_zip 0 l = w :: ws
                /\ forall w', w' ∈ ws -> 1 < w'.1.1.
Proof.
  induction l as [|a l IH]; simpl; [discriminate|].
  destruct (picture_part zipf rels base_dir_in_zip a); [|exact IH].
  simpl. intros [= <-]. split; [reflexivity|]. eexists. split; [reflexivity|].
  intros w'. apply saved_images_counter.
Qed.

Local Abbreviation copy := (copy_image zipf output_images_dir sheet_name).

Lemma copy_images_other (ws : list (nat * string * Element)) (fs : FS) (path : string) :
  (forall w, w ∈ ws -> image_path output_images_dir sheet_name w <> path) ->
  foldl copy fs ws !! path = fs !! path.
Proof.
  revert fs. induction ws as [|w ws IH]; intros fs Hne; [reflexivity|]. simpl.
  rewrite IH by (intros w' Hw'; apply Hne; right; exact Hw').
  unfold copy_image. destruct (zipf !! w.1.2); [|reflexivity].
  apply lookup_insert_ne, Hne. left.
Qed.

(** After the images of one drawing are copied, the file of its first
    image holds the bytes of that image. *)
Lemma copy_images_first (l : list Element) (w : nat * string * Element) (fs : FS) :
  head (saved_images zipf rels base_dir_in_zip 0 l) = Some w ->
  exists m, zipf !! w.1.2 = Some m
    /\ foldl copy fs (saved_images zipf rels base_dir_in_zip 0 l)
         !! image_path output_images_dir sheet_name w = Some (Binary (content m)).
Proof.
  intros Hhead. destruct (saved_images_head l w Hhead) as (Hone & ws & Heq & Hlater).
  destruct (saved_images_member 0 l w) as [m Hm]; [rewrite Heq; left|].
  exists m. split; [exact Hm|]. rewrite Heq. simpl.
  rewrite copy_images_other.
  - unfold copy_image. rewrite Hm. apply lookup_insert_eq.
  - intros w' Hw' Heq'. apply image_path_inj in Heq'. apply Hlater in Hw'. lia.
Qed.

End SavedImages.

(** ** Two drawings of one sheet *)

Section DrawingLoop.
Context (cwd : string) (depth : nat) (zipf : ZipFile).
Context (images_dir sheet_name sheet_part : string).

Local Abbreviation body :=
  (drawing_body cwd depth zipf images_dir sheet_name sheet_part).

(** Relationships that are not drawings of the archive leave the loop
    variables and the output directory alone. *)
Lemma drawing_loop_filter (l : list (string * rel)) (acc : agg) (fs : FS) :
  foldM body acc l fs
  = foldM body acc (List.filter (is_drawing_rel zipf sheet_part) l) fs.
Proof.
  revert acc fs. induction l as [|item l IH]; intros acc fs; [reflexivity|].
  simpl List.filter. destruct (is_drawing_rel zipf sheet_part item) eqn:Hd.
  - rewrite !foldM_cons.
    destruct (body acc item fs) as [[acc'|e] fs']; [apply IH|reflexivity].
  - rewrite foldM_cons.
    assert (body acc item fs = (Ok acc, fs)) as ->; [|apply IH].
    unfold drawing_body. unfold is_drawing_rel in Hd.
    destruct (Py.endswith (Type_ item.2) "/drawing"); [|reflexivity].
    fold (drawing_part_of sheet_part item.2). simpl in Hd. rewrite Hd. reflexivity.
Qed.

(** One drawing that loads: its images join both the sheet entry and
    the rollup, and its files are copied. *)
Lemma drawing_body_spec (acc : agg) (item : string * rel) (fs : FS)
    (root : Element) (rels : PyDict.t rel) :
  is_drawing_rel zipf sheet_part item = true ->
  let d := drawing_part_of sheet_part item.2 in
  load_xml zipf d = Ok root ->
  read_rels zipf d = Ok rels ->
  let w := saved_images zipf rels (posixpath.dirname d) 0 (iter_anchors root) in
  exists acc',
    body acc item fs = (Ok acc', foldl (copy_image zipf images_dir sheet_name) fs w)
    /\ all_images acc' = all_images acc ++ (image_info cwd images_dir sheet_name <$> w)
    /\ images (sheet_entry acc')
       = images (sheet_entry acc) ++ (image_info cwd images_dir sheet_name <$> w).
Proof.
  intros [Ht Hin]%andb_true_iff d Hroot Hrels w.
  unfold drawing_body. rewrite Ht. fold (drawing_part_of sheet_part item.2). rewrite Hin.
  unfold mbind at 1, M_bind at 1.
  rewrite (extract_images_and_shapes_spec _ _ _ _ _ _ _ _ Hroot Hrels). cbv zeta.
  eexists. split; [reflexivity|]. split; reflexivity.
Qed.

End DrawingLoop.

(** C10, as the specification words it, fails: when the first pictures
    of the two drawings have different extensions the two files have
    different names, and the first file is not overwritten. *)
Lemma two_drawings_different_extensions :
  exists doc fs,
    process_excel "/" 10 "2024-01-01T00:00:00" ∅ (Fixtures.two_drawings_book ".jpeg")
      "/in/book.xlsx" "/out" ∅ = (Ok doc, fs)
    /\ ImageInfo.image_filename <$> result_images doc
       = ["images/Sales_img_1.png"; "images/Sales_img_1.jpeg"]
    /\ fs !! "/out/images/Sales_img_1.png" = Some (Binary Fixtures.png1)
    /\ fs !! "/out/images/Sales_img_1.jpeg" = Some (Binary Fixtures.png2).
Proof.
  eexists _, _. split; [vm_compute; reflexivity|].
  split; [reflexivity|]. split; vm_compute; reflexivity.
Qed.

(** C10, amended: when the relationships of one sheet hold two drawings
    that load, each with at least one resolvable picture, and the media
    parts of their first pictures have the same extension, the counter is
    1 for the first picture of either drawing, both are saved under the
    same path [<images dir>/<safe sheet>_img_1<ext>], the file ends up
    with the bytes of the second drawing's picture, and both records,
    with the same [image_filename], are in the sheet entry and in the
    rollup of the document. *)
Theorem two_drawings_same_file (cwd : string) (depth : nat) (zipf : ZipFile)
    (cells_by_sheet : gmap string (list CellText)) (images_dir : string)
    (ims : list ImageInfo.t) (arts : list SmartArtNode.t) (entries : list SheetEntry)
    (sheet_name sheet_part : string) (fs : FS) (s_rels : PyDict.t rel)
    (item1 item2 : string * rel) (root1 root2 : Element) (rels1 rels2 : PyDict.t rel)
    (w1 w2 : nat * string * Element) :
  read_sheet_relationships zipf sheet_part = Ok s_rels ->
  List.filter (is_drawing_rel zipf sheet_part) (PyDict.items s_rels) = [item1; item2] ->
  let d1 := drawing_part_of sheet_part item1.2 in
  let d2 := drawing_part_of sheet_part item2.2 in
  load_xml zipf d1 = Ok root1 -> read_rels zipf d1 = Ok rels1 ->
  load_xml zipf d2 = Ok root2 -> read_rels zipf d2 = Ok rels2 ->
  head (saved_images zipf rels1 (posixpath.dirname d1) 0 (iter_anchors root1)) = Some w1 ->
  head (saved_images zipf rels2 (posixpath.dirname d2) 0 (iter_anchors root2)) = Some w2 ->
  image_ext w1.1.2 = image_ext w2.1.2 ->
  let out_path :=
    posixpath.join images_dir
      (safe_sheet_of sheet_name +:+ "_img_1" +:+ image_ext w1.1.2) in
  let info1 := image_info cwd images_dir sheet_name w1 in
  let info2 := image_info cwd images_dir sheet_name w2 in
  exists ims' arts' entry fs' rest1 rest2 media2,
    sheet_body cwd depth zipf cells_by_sheet images_dir (ims, arts, entries)
      (sheet_name, sheet_part) fs
    = (Ok (ims', arts', entries ++ [entry]), fs')
    /\ w1.1.1 = 1 /\ w2.1.1 = 1
    /\ image_path images_dir sheet_name w1 = out_path
    /\ image_path images_dir sheet_name w2 = out_path
    /\ ImageInfo.image_filename info1 = ImageInfo.image_filename info2
    /\ images entry = info1 :: rest1 ++ info2 :: rest2
    /\ ims' = ims ++ images entry
    /\ zipf !! w2.1.2 = Some media2
    /\ fs' !! out_path = Some (Binary (content media2)).
Proof.
  intros Hrels Hfilter d1 d2 Hroot1 Hrels1 Hroot2 Hrels2 Hw1 Hw2 Hext out_path info1 info2.
  subst d1 d2.
  assert (Hd1 : is_drawing_rel zipf sheet_part item1 = true).
  { assert (In item1 (List.filter (is_drawing_rel zipf sheet_part) (PyDict.items s_rels)))
      as H by (rewrite Hfilter; left; reflexivity).
    apply filter_In in H as [_ H]. exact H. }
  assert (Hd2 : is_drawing_rel zipf sheet_part item2 = true).
  { assert (In item2 (List.filter (is_drawing_rel zipf sheet_part) (PyDict.items s_rels)))
      as H by (rewrite Hfilter; right; left; reflexivity).
    apply filter_In in H as [_ H]. exact H. }
  destruct (saved_images_head _ _ _ _ _ Hw1) as (Hone1 & ws1 & Heq1 & _).
  destruct (saved_images_head _ _ _ _ _ Hw2) as (Hone2 & ws2 & Heq2 & _).
  assert (Hp1 : image_path images_dir sheet_name w1 = out_path).
  { unfold image_path, image_out_name. rewrite Hone1. reflexivity. }
  assert (Hp2 : image_path images_dir sheet_name w2 = out_path).
  { unfold image_path, image_out_name. rewrite Hone2, <- Hext. reflexivity. }
  set (entry0 := mkSheetEntry sheet_name (default [] (cells_by_sheet !! sheet_name))
                   [] [] [] sheet_part).
  destruct (drawing_body_spec cwd depth zipf images_dir sheet_name sheet_part
              (mkAgg ims arts entry0) item1 fs root1 rels1 Hd1 Hroot1 Hrels1)
    as (acc1 & Hrun1 & Hall1 & Hims1).
  destruct (drawing_body_spec cwd depth zipf images_dir sheet_name sheet_part
              acc1 item2
              (foldl (copy_image zipf images_dir sheet_name) fs
                 (saved_images zipf rels1 (posixpath.dirname (drawing_part_of sheet_part item1.2)) 0 (iter_anchors root1)))
              root2 rels2 Hd2 Hroot2 Hrels2)
    as (acc2 & Hrun2 & Hall2 & Hims2).
  destruct (copy_images_first zipf rels2 (posixpath.dirname (drawing_part_of sheet_part item2.2)) images_dir sheet_name
              (iter_anchors root2) w2
              (foldl (copy_image zipf images_dir sheet_name) fs
                 (saved_images zipf rels1 (posixpath.dirname (drawing_part_of sheet_part item1.2)) 0 (iter_anchors root1)))
              Hw2) as (media2 & Hmedia2 & Hfile).
  exists (all_images acc2), (all_smartart acc2), (sheet_entry acc2).
  eexists. exists (image_info cwd images_dir sheet_name <$> ws1),
    (image_info cwd images_dir sheet_name <$> ws2), media2.
  split.
  { unfold sheet_body. rewrite Hrels, bind_lift_Ok.
    unfold mbind at 1, M_bind at 1.
    rewrite drawing_loop_filter, Hfilter, foldM_cons. fold entry0.
    rewrite Hrun1, foldM_cons, Hrun2. reflexivity. }
  split; [exact Hone1|]. split; [exact Hone2|].
  split; [exact Hp1|]. split; [exact Hp2|].
  split.
  { subst info1 info2. unfold image_info. simpl. rewrite Hp1, Hp2. reflexivity. }
  assert (Himgs : images (sheet_entry acc2)
                  = info1 :: (image_info cwd images_dir sheet_name <$> ws1)
                    ++ info2 :: (image_info cwd images_dir sheet_name <$> ws2)).
  { rewrite Hims2, Hims1. rewrite Heq1, Heq2. reflexivity. }
  split; [exact Himgs|]. split.
  { rewrite Himgs, Hall2, Hall1. rewrite Heq1, Heq2, <- app_assoc. reflexivity. }
  split; [exact Hmedia2|].
  rewrite <- Hp2. exact Hfile.
Qed.

Lemma two_drawings_same_file_witness :
  exists ims arts entry fs,
    sheet_body "/" 10 (Fixtures.two_drawings_book ".png") ∅ "/out/images" ([], [], [])
      ("Sales", "xl/worksheets/sheet1.xml") ∅ = (Ok (ims, arts, [entry]), fs)
    /\ (exists rest1 rest2,
          ImageInfo.image_filename <$> images entry
          = "images/Sales_img_1.png" :: rest1 ++ "images/Sales_img_1.png" :: rest2)
    /\ fs !! "/out/images/Sales_img_1.png" = Some (Binary Fixtures.png2).
Proof.
  pose (zipf := Fixtures.two_drawings_book ".png").
  pose (item1 := ("rId1", mkRel (Fixtures.rel_type "drawing") "../drawings/drawing1.xml")).
  pose (item2 := ("rId2", mkRel (Fixtures.rel_type "drawing") "../drawings/drawing2.xml")).
  destruct (two_drawings_same_file "/" 10 zipf ∅ "/out/images" [] [] []
              "Sales" "xl/worksheets/sheet1.xml" ∅ [item1; item2] item1 item2
              (Fixtures.drawing [Fixtures.pic_anchor "rId1"])
              (Fixtures.drawing [Fixtures.pic_anchor "rId1"])
              [("rId1", mkRel (Fixtures.rel_type "image") "../media/image1.png")]
              [("rId1", mkRel (Fixtures.rel_type "image") "../media/image2.png")]
              (1, "xl/media/image1.png", Fixtures.pic_anchor "rId1")
              (1, "xl/media/image2.png", Fixtures.pic_anchor "rId1"))
    as (ims' & arts' & entry & fs' & rest1 & rest2 & media2 & Hrun & _ & _ & _ & _ & _
        & Himages & _ & Hmedia & Hfile).
  1-9: vm_compute; reflexivity.
  assert (Hm : media2 = mkMember Fixtures.png2 None).
  { vm_compute in Hmedia. injection Hmedia as <-. reflexivity. }
  subst media2.
  exists ims', arts', entry, fs'. split; [exact Hrun|]. split; [|exact Hfile].
  exists (ImageInfo.image_filename <$> rest1), (ImageInfo.image_filename <$> rest2).
  rewrite Himages, fmap_cons, fmap_app, fmap_cons. reflexivity.
Defined.

(** ** Running twice *)

Section Independence.

Lemma fs_independent_ret {A} (a : A) : fs_independent (mret a).
Proof. intros fs fs'. reflexivity. Qed.

Lemma fs_independent_lift {A} (o : outcome A) : fs_independent (lift o).
Proof. intros fs fs'. reflexivity. Qed.

Lemma fs_independent_bind {A B} (m : M A) (k : A -> M B) :
  fs_independent m -> (forall a, fs_independent (k a)) -> fs_independent (m ≫= k).
Proof.
  intros Hm Hk fs fs'. unfold mbind, M_bind. specialize (Hm fs fs').
  destruct (m fs) as [[a|e] fs1], (m fs') as [[a'|e'] fs1']; simpl in Hm;
    try discriminate.
  - injection Hm as <-. apply Hk.
  - simpl. injection Hm as <-. reflexivity.
Qed.

Lemma fs_independent_foldM {A S} (f : S -> A -> M S) (l : list A) (s : S) :
  (forall s x, fs_independent (f s x)) -> fs_independent (foldM f s l).
Proof.
  intros Hf. revert s. induction l as [|x l IH]; intros s;
    [apply fs_independent_ret|].
  apply fs_independent_bind; [apply Hf|exact IH].
Qed.

Context (cwd : string) (depth : nat) (zipf : ZipFile).

Lemma fs_independent_extract (drawing_path output_images_dir sheet_name : string) :
  fs_independent
    (extract_images_and_shapes cwd zipf drawing_path output_images_dir sheet_name).
Proof.
  unfold extract_images_and_shapes.
  apply fs_independent_bind; [apply fs_independent_lift|]. intros root.
  apply fs_independent_bind; [apply fs_independent_lift|]. intros rels.
  apply fs_independent_bind; [|intros; apply fs_independent_ret].
  intros fs fs'. rewrite !anchor_loop_spec. reflexivity.
Qed.

Lemma fs_independent_drawing (images_dir sheet_name sheet_part : string)
    (acc : agg) (item : string * rel) :
  fs_independent (drawing_body cwd depth zipf images_dir sheet_name sheet_part acc item).
Proof.
  unfold drawing_body.
  destruct (Py.endswith _ _); [|apply fs_independent_ret].
  destruct (in_namelist _ _); [|apply fs_independent_ret].
  apply fs_independent_bind; [apply fs_independent_extract|].
  intros [[ims shapes] refs]. apply fs_independent_ret.
Qed.

Lemma fs_independent_sheet (cells_by_sheet : gmap string (list CellText))
    (images_dir : string)
    (acc : list ImageInfo.t * list SmartArtNode.t * list SheetEntry)
    (sheet : string * string) :
  fs_independent (sheet_body cwd depth zipf cells_by_sheet images_dir acc sheet).
Proof.
  destruct sheet as [sheet_name sheet_part], acc as [[ims arts] entries].
  unfold sheet_body.
  apply fs_independent_bind; [apply fs_independent_lift|]. intros s_rels.
  apply fs_independent_bind; [|intros; apply fs_independent_ret].
  apply fs_independent_foldM. intros. apply fs_independent_drawing.
Qed.

(** Two runs of [process_excel] on the same input succeed together, and
    then return the same document but for the creation time. *)
Lemma process_excel_rerun (cells_by_sheet : gmap string (list CellText))
    (input_path output_dir now1 now2 : string) (fs1 fs2 : FS) (doc : Result) :
  (process_excel cwd depth now1 cells_by_sheet zipf input_path output_dir fs1).1 = Ok doc ->
  (process_excel cwd depth now2 cells_by_sheet zipf input_path output_dir fs2).1
  = Ok (with_created now2 doc)
  /\ created (metadata doc) = now1.
Proof.
  unfold process_excel.
  set (sheets := match parse_workbook_sheets zipf with
                 | Ok sheets => sheets
                 | Raise _ => [("Sheet1", "xl/worksheets/sheet1.xml")]
                 end).
  set (loop := foldM (sheet_body cwd depth zipf cells_by_sheet
                        (posixpath.join output_dir "images")) ([], [], []) sheets).
  assert (Hloop : fs_independent loop)
    by (apply fs_independent_foldM; intros; apply fs_independent_sheet).
  specialize (Hloop fs1 fs2). unfold mbind, M_bind.
  destruct (loop fs1) as [[[[ims arts] entries]|e] fs1'],
           (loop fs2) as [[[[ims' arts'] entries']|e'] fs2']; simpl in Hloop;
    try discriminate.
  injection Hloop as <- <- <-. simpl. intros [= <-]. split; reflexivity.
Qed.

End Independence.

Section Markdown.

Lemma rstrip_by_nonempty (p : ascii -> bool) (s t : string) (c : ascii) :
  p c = false -> Py.rstrip_by p (s +:+ String c t) <> "".
Proof.
  intros Hc. induction s as [|a s IH].
  - change ("" +:+ String c t) with (String c t). simpl. rewrite Hc, andb_false_r.
    discriminate.
  - rewrite string_app_cons. simpl.
    destruct (Py.rstrip_by p (s +:+ String c t)); [congruence|]. simpl. discriminate.
Qed.

Lemma rstrip_by_app (p : ascii -> bool) (s t : string) :
  Py.rstrip_by p t <> "" -> Py.rstrip_by p (s +:+ t) = s +:+ Py.rstrip_by p t.
Proof.
  intros Ht. induction s as [|a s IH]; [reflexivity|].
  rewrite !string_app_cons. simpl. rewrite IH.
  destruct (Py.rstrip_by p t) as [|b r]; [congruence|].
  destruct s; reflexivity.
Qed.

Lemma join_cons2 (sep x y : string) (l : list string) :
  Py.join sep (x :: y :: l) = x +:+ sep +:+ Py.join sep (y :: l).
Proof. reflexivity. Qed.

(** The Markdown text is its head, the clock reading, and a rest that
    depends on the sheets of the document only. *)
Lemma generate_markdown_split (doc : Result) :
  exists rest,
    forall now now', generate_markdown now (with_created now' doc) = md_head +:+ now +:+ rest.
Proof.
  set (tail := ((fun sheet => "- [" +:+ name sheet +:+ "](#" +:+ slug (name sheet) +:+ ")")
                  <$> sheets doc) ++ [""] ++ flat_map sheet_lines (sheets doc)).
  exists (Py.rstrip (nl +:+ Py.join nl ("" :: "## Table of Contents" :: tail)) +:+ nl).
  intros now now'. unfold generate_markdown. simpl sheets. fold tail.
  change (["# Excel to Markdown Conversion"; "Generated on: " +:+ now; "";
           "## Table of Contents"] ++ tail)
    with ("# Excel to Markdown Conversion" :: ("Generated on: " +:+ now) :: ""
            :: "## Table of Contents" :: tail).
  assert (Hjoin : Py.join nl ("# Excel to Markdown Conversion"
                                :: ("Generated on: " +:+ now) :: ""
                                :: "## Table of Contents" :: tail)
                  = (md_head +:+ now)
                      +:+ (nl +:+ Py.join nl ("" :: "## Table of Contents" :: tail))).
  { rewrite (join_cons2 nl "# Excel to Markdown Conversion"),
      (join_cons2 nl ("Generated on: " +:+ now)).
    unfold md_head. rewrite !string_app_assoc. reflexivity. }
  assert (Hne : Py.rstrip (nl +:+ Py.join nl ("" :: "## Table of Contents" :: tail)) <> "").
  { assert (exists t, Py.join nl ("## Table of Contents" :: tail) = String "#" t) as [t Ht]
      by (destruct tail; eexists; reflexivity).
    rewrite (join_cons2 nl ""), Ht.
    change (nl +:+ "" +:+ nl +:+ String "#" t) with ((nl +:+ nl) +:+ String "#" t).
    apply rstrip_by_nonempty. reflexivity. }
  rewrite Hjoin. unfold Py.rstrip in *. rewrite rstrip_by_app by exact Hne.
  rewrite !string_app_assoc. reflexivity.
Qed.

End Markdown.

Lemma json_md_paths_differ (output_dir : string) :
  json_path output_dir <> md_path output_dir.
Proof.
  unfold json_path, md_path, posixpath.join.
  change (Py.startswith "extracted_data.json" "/") with false.
  change (Py.startswith "converted.md" "/") with false. cbv iota.
  destruct (Py.is_empty output_dir || Py.endswith output_dir "/"); intros H.
  - apply String.app_inj in H. discriminate.
  - apply String.app_inj, String.app_inj in H. discriminate.
Qed.

Lemma with_created_same (doc : Result) : with_created (created (metadata doc)) doc = doc.
Proof. destruct doc as [? ? [? ? ?] ?]. reflexivity. Qed.

(** C5, as the specification words it, fails for the Markdown file: its
    second line is the clock reading, so two runs one second apart write
    different files. *)
Lemma rerun_markdown_differs :
  let book := Fixtures.two_drawings_book ".png" in
  let run1 := main "/" 10 "2024-01-01T00:00:00" "2024-01-01 00:00:00" ∅ book
                "/in/book.xlsx" "/out" ∅ in
  let run2 := main "/" 10 "2024-01-01T00:00:01" "2024-01-01 00:00:01" ∅ book
                "/in/book.xlsx" "/out" run1.2 in
  run1.1 = Ok 0%Z /\ run2.1 = Ok 0%Z
  /\ run1.2 !! "/out/converted.md" <> run2.2 !! "/out/converted.md".
Proof.
  cbv zeta. split; [vm_compute; reflexivity|]. split; [vm_compute; reflexivity|].
  vm_compute. discriminate.
Qed.

(** C5, amended: when a run succeeds, a second run on the same input and
    the same output directory succeeds too; the documents written to
    [extracted_data.json] are equal apart from the [created] field of the
    metadata, and the texts written to [converted.md] are equal apart
    from the clock reading on the "Generated on:" line. *)
Theorem rerun_documents (cwd : string) (depth : nat)
    (cells_by_sheet : gmap string (list CellText)) (zipf : ZipFile)
    (input_path output_dir : string) (iso1 fmt1 iso2 fmt2 : string)
    (fs0 fs1 : FS) (code : Z) :
  main cwd depth iso1 fmt1 cells_by_sheet zipf input_path output_dir fs0 = (Ok code, fs1) ->
  exists doc rest fs2,
    main cwd depth iso2 fmt2 cells_by_sheet zipf input_path output_dir fs1 = (Ok code, fs2)
    /\ created (metadata doc) = iso1
    /\ fs1 !! json_path output_dir = Some (Json doc)
    /\ fs2 !! json_path output_dir = Some (Json (with_created iso2 doc))
    /\ fs1 !! md_path output_dir = Some (Text (md_head +:+ fmt1 +:+ rest))
    /\ fs2 !! md_path output_dir = Some (Text (md_head +:+ fmt2 +:+ rest)).
Proof.
  unfold main, mbind, M_bind, write_file, mret, M_ret. intros Hrun.
  destruct (process_excel cwd depth iso1 cells_by_sheet zipf input_path output_dir fs0)
    as [[doc|e] fs0'] eqn:Hrun1; [|discriminate].
  injection Hrun as <- <-.
  assert (Hdoc : (process_excel cwd depth iso1 cells_by_sheet zipf input_path
                    output_dir fs0).1 = Ok doc) by (rewrite Hrun1; reflexivity).
  destruct (generate_markdown_split doc) as [rest Hmd].
  exists doc, rest.
  match goal with |- context [process_excel _ _ iso2 _ _ _ _ ?fs] =>
    destruct (process_excel_rerun cwd depth zipf cells_by_sheet input_path output_dir
                iso1 iso2 fs0 fs doc Hdoc) as [Hrun2 Hcreated];
    destruct (process_excel cwd depth iso2 cells_by_sheet zipf input_path output_dir fs)
      as [[doc2|e2] fs1'] end; simpl in Hrun2; [|discriminate].
  injection Hrun2 as ->.
  eexists. split; [reflexivity|]. split; [exact Hcreated|].
  fold (json_path output_dir) (md_path output_dir).
  pose proof (json_md_paths_differ output_dir) as Hne.
  split; [rewrite lookup_insert_ne by congruence; apply lookup_insert_eq|].
  split; [rewrite lookup_insert_ne by congruence; apply lookup_insert_eq|].
  split.
  - rewrite lookup_insert_eq. rewrite <- (with_created_same doc) at 1.
    rewrite Hmd. reflexivity.
  - rewrite lookup_insert_eq, Hmd. reflexivity.
Qed.

Lemma rerun_documents_witness :
  exists doc rest fs2,
    main "/" 10 "2024-01-01T00:00:01" "2024-01-01 00:00:01" ∅
      (Fixtures.two_drawings_book ".png") "/in/book.xlsx" "/out"
      (main "/" 10 "2024-01-01T00:00:00" "2024-01-01 00:00:00" ∅
         (Fixtures.two_drawings_book ".png") "/in/book.xlsx" "/out" ∅).2
    = (Ok 0%Z, fs2)
    /\ fs2 !! json_path "/out" = Some (Json (with_created "2024-01-01T00:00:01" doc))
    /\ fs2 !! md_path "/out" = Some (Text (md_head +:+ "2024-01-01 00:00:01" +:+ rest)).
Proof.
  destruct (rerun_documents "/" 10 ∅ (Fixtures.two_drawings_book ".png")
              "/in/book.xlsx" "/out"
              "2024-01-01T00:00:00" "2024-01-01 00:00:00"
              "2024-01-01T00:00:01" "2024-01-01 00:00:01" ∅
              (main "/" 10 "2024-01-01T00:00:00" "2024-01-01 00:00:00" ∅
                 (Fixtures.two_drawings_book ".png") "/in/book.xlsx" "/out" ∅).2 0%Z)
    as (doc & rest & fs2 & Hrun & _ & _ & Hjson & _ & Hmd).
  - vm_compute. reflexivity.
  - exists doc, rest, fs2. split; [exact Hrun|]. split; assumption.
Defined.

(** ** Checks of the library model against the interpreter *)

Example split_ex : Py.split "/" "xl/drawings/../media/x.png" = ["xl"; "drawings"; ".."; "media"; "x.png"].
Proof. reflexivity. Qed.
Example normpath_ex : posixpath.normpath "xl/drawings/../media/x.png" = "xl/media/x.png".
Proof. reflexivity. Qed.
Example normpath_ex2 : posixpath.normpath "//a/./b//../c/" = "//a/c".
Proof. reflexivity. Qed.
Example normpath_ex3 : posixpath.normpath "a/../../b" = "../b".
Proof. reflexivity. Qed.
Example normpath_ex4 : posixpath.normpath "///a/../.." = "/".
Proof. reflexivity. Qed.
Example dirname_ex : posixpath.dirname "xl/drawings/drawing1.xml" = "xl/drawings".
Proof. reflexivity. Qed.
Example dirname_ex2 : posixpath.dirname "//a" = "//".
Proof. reflexivity. Qed.
Example dirname_ex3 : posixpath.dirname "a//b" = "a".
Proof. reflexivity. Qed.
Example basename_ex : posixpath.basename "xl/drawings/drawing1.xml" = "drawing1.xml".
Proof. reflexivity. Qed.
Example splitext_ex : posixpath.splitext_ext "xl/media/image1.png" = ".png".
Proof. reflexivity. Qed.
Example splitext_ex2 : posixpath.splitext_ext "xl/media.d/image1" = "".
Proof. reflexivity. Qed.
Example splitext_ex3 : posixpath.splitext_ext "xl/media/.hidden" = "".
Proof. reflexivity. Qed.
Example splitext_ex4 : posixpath.splitext_ext "xl/media/..a.b" = ".b".
Proof. reflexivity. Qed.
Example relpath_ex : posixpath.relpath "/home/u" "out/images/S_img_1.png" "out" = "images/S_img_1.png".
Proof. vm_compute. reflexivity. Qed.
Example relpath_ex2 : posixpath.relpath "/home/u" "/a/b/c" "/a/d" = "../b/c".
Proof. vm_compute. reflexivity. Qed.
Example replace_ex : Py.replace "xl/worksheets" "xl/worksheets" "xl/worksheets/_rels" = "xl/worksheets/_rels".
Proof. vm_compute. reflexivity. Qed.
Example replace_ex2 : Py.replace "aaa" "aa" "b" = "ba".
Proof. vm_compute. reflexivity. Qed.
Example slug_ex : slug "Q1 Sales (Draft)" = "q1-sales-draft".
Proof. vm_compute. reflexivity. Qed.
Example int_ex : Py.int_of_str " -1_000 " = Some (-1000)%Z.
Proof. vm_compute. reflexivity. Qed.
Example int_ex2 : Py.int_of_str "1__0" = None.
Proof. vm_compute. reflexivity. Qed.
Example int_ex3 : Py.int_of_str "007" = Some 7%Z.
Proof. vm_compute. reflexivity. Qed.
Example str_ex : Py.str_of_nat 12 = "12".
Proof. vm_compute. reflexivity. Qed.
Example strip_ex : Py.strip "  a b  " = "a b".
Proof. vm_compute. reflexivity. Qed.
Example endswith_ex : Py.endswith "http://x/diagram" "/diagram" = true.
Proof. vm_compute. reflexivity. Qed.

(** * Further properties of the module *)

(** ** Strings and paths *)

Lemma string_length_app (s t : string) :
  String.length (s +:+ t) = String.length s + String.length t.
Proof.
  induction s as [|a s IH]; [reflexivity|]. rewrite string_app_cons. simpl.
  rewrite IH. reflexivity.
Qed.

Lemma drop_app_length (s t : string) : Py.drop (String.length s) (s +:+ t) = t.
Proof. induction s as [|a s IH]; [destruct t; reflexivity|]. exact IH. Qed.

Lemma take_app_length (s t : string) : Py.take (String.length s) (s +:+ t) = s.
Proof.
  induction s as [|a s IH]; [destruct t; reflexivity|].
  rewrite string_app_cons. simpl. rewrite IH. reflexivity.
Qed.

Lemma string_snoc (s : string) :
  s <> "" -> exists s' a, s = s' +:+ String a "".
Proof.
  induction s as [|a s IH]; [congruence|]. intros _.
  destruct s as [|b s]; [exists "", a; reflexivity|].
  destruct IH as (s' & c & ->); [discriminate|].
  exists (String a s'), c. reflexivity.
Qed.

Lemma endswith_snoc (s : string) (a c : ascii) :
  Py.endswith (s +:+ String a "") (String c "") = Ascii.eqb a c.
Proof.
  unfold Py.endswith. rewrite string_length_app. simpl String.length.
  replace (String.length s + 1 - 1) with (String.length s) by lia.
  rewrite drop_app_length.
  replace (1 <=? String.length s + 1) with true by (symmetry; apply Nat.leb_le; lia).
  simpl. destruct (Ascii.eqb a c); reflexivity.
Qed.

Lemma endswith_char (s : string) (c : ascii) :
  Py.endswith s (String c "") = true -> exists s', s = s' +:+ String c "".
Proof.
  unfold Py.endswith. intros [_ H]%andb_true_iff. apply String.eqb_eq in H.
  exists (Py.take (String.length s - String.length (String c "")) s).
  pose proof (take_drop_string (String.length s - String.length (String c "")) s) as E.
  rewrite H in E. exact E.
Qed.

Lemma contains_app (c : ascii) (s t : string) :
  Py.contains c (s +:+ t) = Py.contains c s || Py.contains c t.
Proof.
  induction s as [|a s IH]; [reflexivity|]. rewrite string_app_cons. simpl.
  rewrite IH, orb_assoc. reflexivity.
Qed.

Lemma startswith_app_without (c : ascii) (s t : string) :
  Py.contains c s = false -> s <> "" -> Py.startswith (s +:+ t) (String c "") = false.
Proof.
  destruct s as [|a s]; [congruence|]. intros Hc _. simpl in Hc.
  apply orb_false_elim in Hc as [Ha _].
  rewrite string_app_cons, startswith_cons.
  rewrite Ascii.eqb_sym, Ha. reflexivity.
Qed.

Lemma rfind_succ_zero (c : ascii) (s : string) :
  Py.rfind_succ c s = 0 <-> Py.contains c s = false.
Proof.
  induction s as [|a s IH]; simpl; [tauto|].
  destruct (Py.rfind_succ c s) as [|k].
  - destruct (Ascii.eqb a c); simpl; [split; discriminate|]. apply IH.
  - split; [discriminate|]. intros [_ H]%orb_false_elim. apply IH in H. discriminate.
Qed.

Lemma rfind_succ_app_sep (c : ascii) (d n : string) :
  Py.contains c n = false ->
  Py.rfind_succ c (d +:+ String c n) = S (String.length d).
Proof.
  intros Hn. induction d as [|a d IH].
  - change ("" +:+ String c n) with (String c n). simpl.
    apply rfind_succ_zero in Hn. rewrite Hn, Ascii.eqb_refl. reflexivity.
  - rewrite string_app_cons. simpl. rewrite IH. reflexivity.
Qed.

Lemma drop_without (c : ascii) (s : string) (k : nat) :
  Py.rfind_succ c s <= k -> Py.contains c (Py.drop k s) = false.
Proof.
  revert k. induction s as [|a s IH]; intros k Hk; [destruct k; reflexivity|].
  destruct k as [|k].
  - change (Py.drop 0 (String a s)) with (String a s). apply rfind_succ_zero. lia.
  - simpl. apply IH. simpl in Hk. destruct (Py.rfind_succ c s); lia.
Qed.

(** [basename] and [dirname] of a directory and a name put together. *)
Lemma basename_app (d n : string) :
  Py.contains "/" n = false -> posixpath.basename (d +:+ String "/" n) = n.
Proof.
  intros Hn. unfold posixpath.basename, posixpath.sep.
  rewrite (rfind_succ_app_sep _ _ _ Hn).
  change (S (String.length d)) with (String.length (String "/" "") + String.length d).
  rewrite Nat.add_comm, <- string_length_app.
  replace (d +:+ String "/" n) with ((d +:+ "/") +:+ n)
    by (rewrite string_app_assoc; reflexivity).
  apply drop_app_length.
Qed.

Lemma basename_plain (n : string) :
  Py.contains "/" n = false -> posixpath.basename n = n.
Proof.
  intros Hn. unfold posixpath.basename, posixpath.sep.
  apply rfind_succ_zero in Hn. rewrite Hn. destruct n; reflexivity.
Qed.

Lemma dirname_plain (n : string) :
  Py.contains "/" n = false -> posixpath.dirname n = "".
Proof.
  intros Hn. unfold posixpath.dirname, posixpath.sep.
  apply rfind_succ_zero in Hn. rewrite Hn. destruct n; reflexivity.
Qed.

Lemma rstrip_by_snoc_keep (p : ascii -> bool) (s : string) (a : ascii) :
  p a = false -> Py.rstrip_by p (s +:+ String a "") = s +:+ String a "".
Proof.
  intros Ha.
  assert (E : Py.rstrip_by p (String a "") = String a "")
    by (simpl; rewrite Ha; reflexivity).
  rewrite rstrip_by_app; rewrite E; [reflexivity|discriminate].
Qed.

Lemma lstrip_by_nonempty (p : ascii -> bool) (s t : string) (a : ascii) :
  p a = false -> Py.lstrip_by p (s +:+ String a t) <> "".
Proof.
  intros Ha. induction s as [|b s IH].
  - change ("" +:+ String a t) with (String a t). simpl. rewrite Ha. discriminate.
  - rewrite string_app_cons. simpl. destruct (p b); [exact IH|discriminate].
Qed.

Lemma dirname_app (d n : string) :
  d <> "" -> Py.endswith d "/" = false -> Py.contains "/" n = false ->
  posixpath.dirname (d +:+ String "/" n) = d.
Proof.
  intros Hd Hend Hn. unfold posixpath.dirname, posixpath.sep.
  rewrite (rfind_succ_app_sep _ _ _ Hn).
  replace (d +:+ String "/" n) with ((d +:+ "/") +:+ n)
    by (rewrite string_app_assoc; reflexivity).
  replace (S (String.length d)) with (String.length (d +:+ "/"))
    by (rewrite string_length_app; simpl; lia).
  rewrite take_app_length.
  destruct (string_snoc d Hd) as (d' & a & ->).
  rewrite endswith_snoc in Hend.
  assert (Ha : Ascii.eqb "/" a = false) by (rewrite Ascii.eqb_sym; exact Hend).
  assert (Hne : Py.lstrip_by (Ascii.eqb "/") ((d' +:+ String a "") +:+ "/") <> "").
  { rewrite string_app_assoc. apply lstrip_by_nonempty. exact Ha. }
  assert (Py.truthy ((d' +:+ String a "") +:+ "/") = true) as ->.
  { destruct d'; reflexivity. }
  destruct (Py.lstrip_by (Ascii.eqb "/") ((d' +:+ String a "") +:+ "/")); [congruence|].
  simpl negb. cbv iota. simpl andb. cbv iota.
  rewrite string_app_assoc.
  change (String a "" +:+ "/") with (String a "/").
  assert (E : Py.rstrip_by (Ascii.eqb "/") (String a "/") = String a "").
  { change (Py.rstrip_by (Ascii.eqb "/") (String a "/"))
      with (if Py.is_empty "" && Ascii.eqb "/" a then "" else String a "").
    rewrite Ha. reflexivity. }
  rewrite rstrip_by_app; rewrite E; [reflexivity|discriminate].
Qed.

(** [join] with a name that is not rooted. *)
Lemma join_relative (a b : string) :
  Py.startswith b "/" = false ->
  posixpath.join a b
  = (if Py.is_empty a || Py.endswith a "/" then a else a +:+ "/") +:+ b.
Proof.
  intros Hb. unfold posixpath.join. rewrite Hb.
  destruct (Py.is_empty a || Py.endswith a "/"); [reflexivity|].
  rewrite string_app_assoc. reflexivity.
Qed.

Lemma join_plain_dir (a b : string) :
  a <> "" -> Py.endswith a "/" = false -> Py.startswith b "/" = false ->
  posixpath.join a b = a +:+ String "/" b.
Proof.
  intros Ha Hend Hb. rewrite (join_relative _ _ Hb), Hend.
  destruct a; [congruence|]. simpl. rewrite string_app_assoc. reflexivity.
Qed.

Lemma endswith_app_plain (d s : string) (a : ascii) :
  a <> "/"%char -> Py.endswith (d +:+ s +:+ String a "") "/" = false.
Proof.
  intros Ha. rewrite <- string_app_assoc, endswith_snoc.
  apply Ascii.eqb_neq. exact Ha.
Qed.

(** ** Relationship parts *)

Section Dict.
Context {V : Type}.

Lemma pydict_get_set_eq (d : PyDict.t V) (k : string) (v : V) :
  PyDict.get (PyDict.set d k v) k = Some v.
Proof.
  induction d as [|[k' v'] d IH]; simpl.
  - rewrite bool_decide_eq_true_2 by reflexivity. reflexivity.
  - case_bool_decide as H; simpl.
    + rewrite bool_decide_eq_true_2 by reflexivity. reflexivity.
    + rewrite bool_decide_eq_false_2 by assumption. exact IH.
Qed.

Lemma pydict_get_set_ne (d : PyDict.t V) (k k' : string) (v : V) :
  k <> k' -> PyDict.get (PyDict.set d k v) k' = PyDict.get d k'.
Proof.
  intros Hne. induction d as [|[k0 v0] d IH]; simpl.
  - rewrite bool_decide_eq_false_2 by assumption. reflexivity.
  - case_bool_decide as H; simpl.
    + subst k0. rewrite !bool_decide_eq_false_2 by assumption. reflexivity.
    + case_bool_decide; [reflexivity|exact IH].
Qed.

Lemma pydict_keys_set (d : PyDict.t V) (k k' : string) (v : V) :
  k' ∈ PyDict.keys (PyDict.set d k v) <-> k' = k \/ k' ∈ PyDict.keys d.
Proof.
  unfold PyDict.keys. induction d as [|[k0 v0] d IH]; simpl.
  - rewrite list_elem_of_singleton. split; [tauto|]. intros [?|H]; [assumption|inversion H].
  - case_bool_decide as H; simpl.
    + subst k0. rewrite !elem_of_cons. tauto.
    + rewrite !elem_of_cons, IH. tauto.
Qed.

Lemma pydict_keys_set_NoDup (d : PyDict.t V) (k : string) (v : V) :
  NoDup (PyDict.keys d) -> NoDup (PyDict.keys (PyDict.set d k v)).
Proof.
  unfold PyDict.keys. induction d as [|[k0 v0] d IH]; simpl; intros Hd.
  - apply NoDup_singleton.
  - apply NoDup_cons in Hd as [Hk0 Hd]. case_bool_decide as H; simpl.
    + subst k0. apply NoDup_cons. split; assumption.
    + apply NoDup_cons. split; [|exact (IH Hd)].
      intros Hin. apply (pydict_keys_set d k k0 v) in Hin as [?|?]; [congruence|].
      contradiction.
Qed.

Lemma pydict_get_keys (d : PyDict.t V) (k : string) :
  is_Some (PyDict.get d k) <-> k ∈ PyDict.keys d.
Proof.
  unfold PyDict.keys. induction d as [|[k0 v0] d IH]; simpl.
  - split; [intros [? ?]; discriminate|intros H; inversion H].
  - rewrite elem_of_cons. case_bool_decide as H.
    + subst k0. split; [left; reflexivity|eauto].
    + rewrite IH. split; [tauto|]. intros [?|?]; [congruence|assumption].
Qed.

Context (use : Element -> bool) (val : Element -> V).

Local Abbreviation step :=
  (fun (d : PyDict.t V) (e : Element) =>
     if use e
     then rid ← attr_item e "Id"; Ok (PyDict.set d rid (val e))
     else Ok d).

(** A dict built by assignments in document order: the last element used
    for a key decides its value. *)
Lemma build_dict_returns (l : list Element) (d : PyDict.t V) :
  (forall e, e ∈ l -> use e = true -> is_Some (attrib e !! "Id")) ->
  exists d',
    ofoldM step d l = Ok d'
    /\ (NoDup (PyDict.keys d) -> NoDup (PyDict.keys d'))
    /\ forall k,
         PyDict.get d' k
         = match last_with_id (List.filter use l) k with
           | Some e => Some (val e)
           | None => PyDict.get d k
           end.
Proof.
  revert d. induction l as [|e l IH]; intros d Hid.
  - exists d. split; [reflexivity|]. split; [tauto|]. reflexivity.
  - simpl ofoldM. simpl List.filter. destruct (use e) eqn:Hu.
    + destruct (Hid e) as [rid Hrid]; [left|exact Hu|].
      unfold attr_item. rewrite Hrid. rewrite bind_Ok.
      destruct (IH (PyDict.set d rid (val e))) as (d' & Hrun & Hnd & Hget).
      { intros e' He'. apply Hid. right. exact He'. }
      exists d'. split; [exact Hrun|]. split.
      { intros H. apply Hnd, pydict_keys_set_NoDup, H. }
      intros k. rewrite Hget. unfold last_with_id.
      change (List.filter ?f (e :: ?r))
        with (if f e then e :: List.filter f r else List.filter f r).
      cbv beta. case_bool_decide as Hk.
      * assert (rid = k) as -> by congruence.
        destruct (List.filter _ (List.filter use l)) as [|e' r];
          [apply pydict_get_set_eq|].
        change (last (e :: e' :: r)) with (last (e' :: r)).
        destruct (last (e' :: r)) eqn:E; [reflexivity|].
        apply last_None in E. discriminate.
      * destruct (last _); [reflexivity|].
        apply pydict_get_set_ne. congruence.
    + apply IH. intros e' He'. apply Hid. right. exact He'.
Qed.

(** An element that is used and has no id ends the loop. *)
Lemma build_dict_raises (l : list Element) (d : PyDict.t V) (e : Element) :
  e ∈ l -> use e = true -> attrib e !! "Id" = None ->
  ofoldM step d l = Raise (KeyError "Id").
Proof.
  revert d. induction l as [|e' l IH]; intros d Hin Hu Hid; [inversion Hin|].
  simpl ofoldM. destruct (use e') eqn:Hu'.
  - unfold attr_item. destruct (attrib e' !! "Id") as [rid|] eqn:Hrid.
    + apply (IH (PyDict.set d rid (val e'))); [|assumption..].
      apply elem_of_cons in Hin as [->|Hin]; [congruence|exact Hin].
    + reflexivity.
  - apply IH; [|assumption..].
    apply elem_of_cons in Hin as [->|Hin]; [congruence|exact Hin].
Qed.

End Dict.

Lemma filter_all {A} (l : list A) : List.filter (fun _ => true) l = l.
Proof. induction l as [|x l IH]; simpl; [|rewrite IH]; reflexivity. Qed.

Lemma load_rels_returns (zipf : ZipFile) (rels_path : string) (root : Element) :
  load_xml zipf rels_path = Ok root ->
  (forall e, e ∈ relationship_elements root -> is_Some (attrib e !! "Id")) ->
  exists rels,
    load_rels zipf rels_path = Ok rels
    /\ NoDup (PyDict.keys rels)
    /\ forall rid,
         PyDict.get rels rid
         = rel_of_element <$> last_with_id (relationship_elements root) rid.
Proof.
  intros Hroot Hid. unfold load_rels.
  assert (in_namelist zipf rels_path = true) as ->.
  { unfold load_xml, zip_open in Hroot. unfold in_namelist.
    destruct (zipf !! rels_path) eqn:E; [|discriminate].
    apply bool_decide_eq_true. eauto. }
  rewrite Hroot, bind_Ok.
  destruct (build_dict_returns (fun _ => true) rel_of_element
              (relationship_elements root) []) as (rels & Hrun & Hnd & Hget).
  { intros e He _. apply Hid, He. }
  exists rels. split; [exact Hrun|]. split; [apply Hnd, NoDup_nil_2|].
  intros rid. rewrite Hget.
  rewrite filter_all.
  destruct (last_with_id _ _); reflexivity.
Qed.

(** X1: when the relationships part of a part loads and every
    relationship element has an id, [read_rels] returns a dict with
    distinct keys in which an id maps to the type and target of the last
    element that carries it (missing attributes read as the empty
    string), and ids that no element carries are absent. *)
Theorem read_rels_lookup (zipf : ZipFile) (part_path : string) (root : Element) :
  load_xml zipf (rels_path_of part_path) = Ok root ->
  (forall e, e ∈ relationship_elements root -> is_Some (attrib e !! "Id")) ->
  exists rels,
    read_rels zipf part_path = Ok rels
    /\ NoDup (PyDict.keys rels)
    /\ forall rid,
         PyDict.get rels rid
         = rel_of_element <$> last_with_id (relationship_elements root) rid.
Proof. apply load_rels_returns. Qed.

Lemma read_rels_lookup_witness :
  exists rels,
    read_rels Fixtures.parts "xl/drawings/drawing3.xml" = Ok rels
    /\ PyDict.get rels "rId2"
       = Some (mkRel (Fixtures.rel_type "diagramLayout") "../diagrams/layout1.xml").
Proof.
  destruct (read_rels_lookup Fixtures.parts "xl/drawings/drawing3.xml"
              (Fixtures.relationships
                 [("rId1", Fixtures.rel_type "diagramData", "../diagrams/data1.xml");
                  ("rId2", Fixtures.rel_type "diagramLayout", "../diagrams/layout1.xml")]))
    as (rels & Hrun & _ & Hget).
  - vm_compute. reflexivity.
  - intros e He. vm_compute in He.
    apply elem_of_cons in He as [->|He]; [vm_compute; eauto|].
    apply elem_of_cons in He as [->|He]; [vm_compute; eauto|].
    inversion He.
  - exists rels. split; [exact Hrun|]. rewrite Hget. vm_compute. reflexivity.
Defined.

(** X2: the failures of [read_rels]: a part without relationships part
    has no relationships, and that is not an error; a relationships part
    that does not parse raises [ParseError]; a relationship element
    without id raises [KeyError]. *)
Theorem read_rels_failures (zipf : ZipFile) (part_path : string) :
  (zipf !! rels_path_of part_path = None -> read_rels zipf part_path = Ok [])
  /\ (forall m, zipf !! rels_path_of part_path = Some m -> tree m = None ->
        read_rels zipf part_path = Raise ParseError)
  /\ (forall root e,
        load_xml zipf (rels_path_of part_path) = Ok root ->
        e ∈ relationship_elements root -> attrib e !! "Id" = None ->
        read_rels zipf part_path = Raise (KeyError "Id")).
Proof.
  unfold read_rels. fold (rels_path_of part_path). unfold load_rels, in_namelist.
  split; [|split].
  - intros ->. rewrite bool_decide_eq_false_2; [reflexivity|].
    intros [? ?]. discriminate.
  - intros m Hm Ht. rewrite bool_decide_eq_true_2 by (rewrite Hm; eauto).
    unfold load_xml, zip_open, fromstring. rewrite Hm. simpl. rewrite Ht. reflexivity.
  - intros root e Hroot He Hid.
    assert (is_Some (zipf !! rels_path_of part_path)) as Hin.
    { unfold load_xml, zip_open in Hroot.
      destruct (zipf !! rels_path_of part_path); [eauto|discriminate]. }
    rewrite bool_decide_eq_true_2 by exact Hin. rewrite Hroot, bind_Ok.
    exact (build_dict_raises (fun _ => true) rel_of_element _ [] e He eq_refl Hid).
Qed.

Lemma startswith_name (n t : string) (a : ascii) :
  Py.contains "/" n = false -> a <> "/"%char ->
  Py.startswith (n +:+ String a t) "/" = false.
Proof.
  intros Hn Ha. destruct n as [|b n].
  - apply startswith_sep_false, Ha.
  - apply startswith_app_without; [exact Hn|discriminate].
Qed.

Lemma rels_path_sibling (d n : string) :
  d <> "" -> Py.endswith d "/" = false -> Py.contains "/" n = false ->
  rels_path_of (d +:+ String "/" n) = d +:+ "/_rels/" +:+ n +:+ ".rels".
Proof.
  intros Hd Hend Hn. unfold rels_path_of.
  rewrite (dirname_app _ _ Hd Hend Hn), (basename_app _ _ Hn).
  rewrite (join_plain_dir d "_rels" Hd Hend eq_refl).
  rewrite join_plain_dir.
  - rewrite string_app_assoc. reflexivity.
  - destruct d; [congruence|discriminate].
  - apply (endswith_app_plain d "/_rel" "s"). discriminate.
  - apply startswith_name; [exact Hn|discriminate].
Qed.

(** X3: for a part [d/n] (the directory [d] not empty and without
    trailing slash, the name [n] without slash), [read_rels] reads
    [d/_rels/n.rels]; for a part [n] at the top of the archive it reads
    [_rels/n.rels]. *)
Theorem read_rels_location (zipf : ZipFile) (d n : string) :
  Py.contains "/" n = false ->
  (d <> "" -> Py.endswith d "/" = false ->
   read_rels zipf (d +:+ "/" +:+ n) = load_rels zipf (d +:+ "/_rels/" +:+ n +:+ ".rels"))
  /\ read_rels zipf n = load_rels zipf ("_rels/" +:+ n +:+ ".rels").
Proof.
  intros Hn. split.
  - intros Hd Hend. unfold read_rels. fold (rels_path_of (d +:+ "/" +:+ n)).
    change (d +:+ "/" +:+ n) with (d +:+ String "/" n).
    rewrite rels_path_sibling by assumption. reflexivity.
  - unfold read_rels. rewrite (dirname_plain _ Hn), (basename_plain _ Hn).
    change (posixpath.join "" "_rels") with "_rels".
    rewrite join_plain_dir; [reflexivity|discriminate|reflexivity|].
    apply startswith_name; [exact Hn|discriminate].
Qed.

Lemma read_rels_location_witness :
  read_rels Fixtures.parts ("xl/drawings" +:+ "/" +:+ "drawing1.xml")
  = load_rels Fixtures.parts ("xl/drawings" +:+ "/_rels/" +:+ "drawing1.xml" +:+ ".rels").
Proof.
  apply (proj1 (read_rels_location Fixtures.parts "xl/drawings" "drawing1.xml" eq_refl));
    [discriminate|reflexivity].
Defined.

(** X4: for a sheet part directly under [xl/worksheets],
    [read_sheet_relationships] and [read_rels] read the same
    relationships part and return the same. *)
Theorem sheet_relationships_agree (zipf : ZipFile) (n : string) :
  Py.contains "/" n = false ->
  read_sheet_relationships zipf ("xl/worksheets/" +:+ n)
  = read_rels zipf ("xl/worksheets/" +:+ n).
Proof.
  intros Hn. unfold read_sheet_relationships, read_rels.
  change ("xl/worksheets/" +:+ n) with ("xl/worksheets" +:+ String "/" n).
  rewrite (dirname_app "xl/worksheets" n) by (discriminate || reflexivity || exact Hn).
  rewrite (basename_app _ _ Hn). reflexivity.
Qed.

Lemma sheet_relationships_agree_witness :
  read_sheet_relationships Fixtures.broken_drawing_book ("xl/worksheets/" +:+ "sheet2.xml")
  = read_rels Fixtures.broken_drawing_book ("xl/worksheets/" +:+ "sheet2.xml").
Proof. apply sheet_relationships_agree. reflexivity. Defined.

Lemma replace_go_absent (fuel : nat) (old new s : string) :
  (forall k, Py.startswith (Py.drop k s) old = false) ->
  Py.replace_go fuel old new s = s.
Proof.
  revert s. induction fuel as [|f IH]; intros s Habs; [reflexivity|].
  simpl. assert (H0 : Py.startswith s old = false) by exact (Habs 0). rewrite H0. destruct s as [|a s]; [reflexivity|].
  rewrite IH; [reflexivity|]. intros k. exact (Habs (S k)).
Qed.

(** X5: for a sheet part [d/n] whose directory does not contain
    [xl/worksheets], [read_sheet_relationships] looks for [d/n.rels],
    next to the sheet, and not for [d/_rels/n.rels]. *)
Theorem sheet_relationships_elsewhere (zipf : ZipFile) (d n : string) :
  d <> "" -> Py.endswith d "/" = false -> Py.contains "/" n = false ->
  (forall k, Py.startswith (Py.drop k d) "xl/worksheets" = false) ->
  read_sheet_relationships zipf (d +:+ "/" +:+ n)
  = load_rels zipf (d +:+ "/" +:+ n +:+ ".rels").
Proof.
  intros Hd Hend Hn Habs. unfold read_sheet_relationships.
  change (d +:+ "/" +:+ n) with (d +:+ String "/" n).
  rewrite (dirname_app _ _ Hd Hend Hn), (basename_app _ _ Hn).
  unfold Py.replace. rewrite (replace_go_absent _ _ _ _ Habs).
  rewrite join_plain_dir; [reflexivity|assumption..|].
  apply startswith_name; [exact Hn|discriminate].
Qed.

Lemma sheet_relationships_elsewhere_witness :
  read_sheet_relationships Fixtures.parts ("xl/chartsheets" +:+ "/" +:+ "sheet1.xml")
  = load_rels Fixtures.parts ("xl/chartsheets" +:+ "/" +:+ "sheet1.xml" +:+ ".rels").
Proof.
  apply sheet_relationships_elsewhere; [discriminate|reflexivity|reflexivity|].
  intros k. do 15 (destruct k as [|k]; [reflexivity|]). reflexivity.
Defined.

(** ** Normalised targets and the sheets of the workbook *)

Lemma normpath_written_fixed (i : nat) (comps : list string) :
  i <= 2 -> normal_comps i comps ->
  posixpath.normpath (written_path i comps) = written_path i comps.
Proof.
  intros Hi Hn. destruct comps as [|c l] eqn:Hc.
  - assert (i = 0 \/ i = 1 \/ i = 2) as [->|[->| ->]] by lia; vm_compute; reflexivity.
  - rewrite <- Hc in *.
    pose proof (written_path_nonempty i comps Hi Hn c l Hc) as Hw.
    pose proof (segments_written i comps Hi Hn c l Hc) as Hseg.
    assert (Hplain : plain_comp c).
    { destruct Hn as [Hall _]. rewrite Hc in Hall. inversion Hall; assumption. }
    destruct (join_first c l Hplain) as (a & rest & Hj & Ha & _).
    assert (Hshape : written_path i comps = posixpath.slashes i +:+ String a rest).
    { rewrite Hw, Hc, Hj. reflexivity. }
    unfold posixpath.normpath.
    assert (Py.is_empty (written_path i comps) = false) as ->.
    { rewrite Hshape.
      assert (i = 0 \/ i = 1 \/ i = 2) as [->|[->| ->]] by lia; reflexivity. }
    assert (posixpath.initial_slashes (written_path i comps) = i) as ->
      by (rewrite Hshape; apply initial_slashes_written; assumption).
    change (Py.split posixpath.sep (written_path i comps))
      with (segments (written_path i comps)).
    rewrite Hseg.
    assert (Hloop : posixpath.normpath_loop i (replicate i "" ++ comps) [] = comps).
    { pose proof (normpath_loop_skips i (replicate i "") comps [] []) as H.
      rewrite app_nil_r in H. apply H; [|constructor|exact Hn].
      apply Forall_forall. intros x Hx%elem_of_replicate. left. apply Hx. }
    rewrite Hloop. fold (written_path i comps). reflexivity.
Qed.

Lemma normalize_then_normpath (base_dir_in_zip target : string) :
  posixpath.normpath (normalize_rel_target base_dir_in_zip target)
  = normalize_rel_target base_dir_in_zip target.
Proof.
  destruct (normalize_rel_target_written base_dir_in_zip target)
    as (i & comps & Hi & Hn & ->).
  apply normpath_written_fixed; assumption.
Qed.

(** X6: the result of [normalize_rel_target] is a fixed point of
    [normpath], is never empty, and ends with a slash only when it is
    [/] or [//]. *)
Theorem normalize_rel_target_fixed (base_dir_in_zip target : string) :
  let result := normalize_rel_target base_dir_in_zip target in
  posixpath.normpath result = result
  /\ result <> ""
  /\ (Py.endswith result "/" = true -> result = "/" \/ result = "//").
Proof.
  cbv zeta.
  destruct (normalize_rel_target_written base_dir_in_zip target)
    as (i & comps & Hi & Hn & ->).
  split; [apply normpath_written_fixed; assumption|].
  destruct comps as [|c l] eqn:Hc.
  - assert (i = 0 \/ i = 1 \/ i = 2) as [->|[->| ->]] by lia;
      (split; [discriminate|]); vm_compute; intros; try discriminate; tauto.
  - rewrite <- Hc in *.
    pose proof (written_path_nonempty i comps Hi Hn c l Hc) as Hw.
    pose proof (segments_written i comps Hi Hn c l Hc) as Hseg.
    assert (Hplain : plain_comp c).
    { destruct Hn as [Hall _]. rewrite Hc in Hall. inversion Hall; assumption. }
    destruct (join_first c l Hplain) as (a & rest & Hj & Ha & _).
    split.
    + rewrite Hw, Hc, Hj.
      assert (i = 0 \/ i = 1 \/ i = 2) as [->|[->| ->]] by lia; discriminate.
    + intros E. exfalso. apply endswith_sep in E as [s' Hs'].
      unfold segments in Hseg. rewrite Hs', split_app_sep in Hseg. simpl in Hseg.
      assert (last (replicate i "" ++ comps) = Some "") as Hlast
        by (rewrite <- Hseg; apply last_snoc).
      destruct Hn as [Hall _].
      destruct comps as [|x comps' _] using rev_ind; [discriminate|].
      rewrite app_assoc, last_snoc in Hlast. injection Hlast as ->.
      apply Forall_app in Hall as [_ Hall]. inversion Hall as [|? ? (Hx & _) _]. congruence.
Qed.

(** X7: a target that starts with a slash is resolved without the base
    directory, and the result starts with a slash as well. *)
Theorem rooted_target_ignores_base (base1 base2 target : string) :
  Py.startswith target "/" = true ->
  normalize_rel_target base1 target = normalize_rel_target base2 target
  /\ Py.startswith (normalize_rel_target base1 target) "/" = true.
Proof.
  intros Ht.
  assert (Hjoin : forall b, posixpath.join b target = target)
    by (intros b; unfold posixpath.join; rewrite Ht; reflexivity).
  unfold normalize_rel_target. rewrite !Hjoin. split; [reflexivity|].
  destruct target as [|a t]; [discriminate|].
  rewrite startswith_cons in Ht. apply andb_true_iff in Ht as [Ha _].
  apply Ascii.eqb_eq in Ha. subst a.
  unfold posixpath.normpath.
  change (Py.is_empty (String "/" t)) with false. cbv iota.
  set (i := posixpath.initial_slashes (String "/" t)).
  set (comps := posixpath.normpath_loop i (Py.split posixpath.sep (String "/" t)) []).
  assert (Hi : i = 1 \/ i = 2).
  { subst i. unfold posixpath.initial_slashes.
    assert (Py.startswith (String "/" t) "/" = true) as -> by (destruct t; reflexivity).
    destruct (_ && _); tauto. }
  assert (exists r, posixpath.slashes i +:+ Py.join "/" comps = String "/" r) as [r ->]
    by (destruct Hi as [-> | ->]; eexists; reflexivity).
  change (Py.is_empty (String "/" r)) with false. cbv iota.
  change (strip_dot_slash (String.length (String "/" r)) (String "/" r))
    with (String "/" r).
  destruct r; reflexivity.
Qed.

Lemma rooted_target_ignores_base_witness :
  normalize_rel_target "xl/drawings" "/xl/media/image1.png" = "/xl/media/image1.png".
Proof.
  destruct (rooted_target_ignores_base "xl/drawings" "" "/xl/media/image1.png" eq_refl)
    as [-> _].
  vm_compute. reflexivity.
Defined.

Lemma omap_fst_sublist {A B C} (f : A -> option (B * C)) (g : A -> B) (l : list A) :
  (forall x y, f x = Some y -> y.1 = g x) -> (omap f l).*1 `sublist_of` (g <$> l).
Proof.
  intros Hf. induction l as [|x l IH]; simpl; [constructor|].
  destruct (f x) as [y|] eqn:E; simpl.
  - rewrite (Hf _ _ E). apply sublist_skip, IH.
  - apply sublist_cons, IH.
Qed.

Lemma filter_last_with_id (use : Element -> bool) (l : list Element) (rid : string) (e : Element) :
  last_with_id (List.filter use l) rid = Some e -> use e = true /\ e ∈ l.
Proof.
  unfold last_with_id. intros H. apply last_Some in H as [l' H].
  assert (In e (List.filter (fun e0 => bool_decide (attrib e0 !! "Id" = Some rid))
                  (List.filter use l))) as Hin.
  { rewrite H. apply in_or_app. right. left. reflexivity. }
  apply filter_In in Hin as [Hin _]. apply filter_In in Hin as [Hin Hu].
  split; [exact Hu|apply list_elem_of_In, Hin].
Qed.

(** X8: when the workbook part and its relationships load and the
    worksheet relationships carry ids, [parse_workbook_sheets] returns
    the sheets in the document order of the sheet elements, skipping
    those whose relationship id is missing, empty or not the id of a
    worksheet relationship; the part of a kept sheet is the target of the
    last worksheet relationship with its id, resolved against [xl]. *)
Theorem parse_workbook_sheets_lookup (zipf : ZipFile) (workbook_root rels_root : Element) :
  load_xml zipf "xl/workbook.xml" = Ok workbook_root ->
  load_xml zipf "xl/_rels/workbook.xml.rels" = Ok rels_root ->
  (forall e, e ∈ relationship_elements rels_root -> is_worksheet_rel e = true ->
     is_Some (attrib e !! "Id")) ->
  exists sheets,
    parse_workbook_sheets zipf = Ok sheets
    /\ sheets.*1 `sublist_of`
         ((fun sheet => attr_or sheet "name" "Sheet") <$> sheet_elements workbook_root)
    /\ forall name path,
         (name, path) ∈ sheets <->
         exists sheet rid e,
           sheet ∈ sheet_elements workbook_root
           /\ name = attr_or sheet "name" "Sheet"
           /\ attrib sheet !! qn NAMESPACES.r "id" = Some rid
           /\ rid <> ""
           /\ last_with_id (List.filter is_worksheet_rel (relationship_elements rels_root)) rid
              = Some e
           /\ path = normalize_rel_target "xl" (attr_or e "Target" "").
Proof.
  intros Hwb Hrels Hid. unfold parse_workbook_sheets.
  rewrite Hwb, bind_Ok, Hrels, bind_Ok.
  destruct (build_dict_returns is_worksheet_rel
              (fun e => normalize_rel_target "xl" (attr_or e "Target" ""))
              (relationship_elements rels_root) [] Hid) as (d & Hrun & _ & Hget).
  change (ofoldM _ [] (findall_desc rels_root (qn NAMESPACES.pr "Relationship")))
    with (ofoldM (fun (d : PyDict.t string) (e : Element) =>
                    if is_worksheet_rel e
                    then rid ← attr_item e "Id";
                         Ok (PyDict.set d rid (normalize_rel_target "xl" (attr_or e "Target" "")))
                    else Ok d) [] (relationship_elements rels_root)).
  rewrite Hrun, bind_Ok. eexists. split; [reflexivity|]. split.
  - apply omap_fst_sublist. intros sheet [n p] H.
    destruct (present_in _ d) as [[? ?]|]; [|discriminate]. injection H as <- _. reflexivity.
  - intros name path. rewrite list_elem_of_omap. fold (sheet_elements workbook_root).
    split.
    + intros (sheet & Hin & H). unfold present_in in H.
      destruct (attrib sheet !! qn NAMESPACES.r "id") as [rid|] eqn:Hrid; [|discriminate].
      destruct (Py.truthy rid) eqn:Ht; [|discriminate].
      destruct (PyDict.get d rid) as [target|] eqn:Hd; [|discriminate].
      injection H as <- <-. rewrite Hget in Hd.
      destruct (last_with_id _ rid) as [e|] eqn:He; [|discriminate].
      injection Hd as <-.
      exists sheet, rid, e. repeat split; try assumption; try reflexivity.
      * apply truthy_nonempty, Ht.
      * apply normalize_then_normpath.
    + intros (sheet & rid & e & Hin & -> & Hrid & Hne & He & ->).
      exists sheet. split; [exact Hin|]. unfold present_in.
      rewrite Hrid. apply truthy_nonempty in Hne. rewrite Hne, Hget, He.
      rewrite normalize_then_normpath. reflexivity.
Qed.

Lemma parse_workbook_sheets_lookup_witness :
  exists sheets,
    parse_workbook_sheets Fixtures.broken_drawing_book = Ok sheets
    /\ sheets.*1 `sublist_of` ["First"; "Second"].
Proof.
  destruct (parse_workbook_sheets_lookup Fixtures.broken_drawing_book
              (Fixtures.workbook ["First"; "Second"])
              (Fixtures.workbook_rels ["First"; "Second"]))
    as (sheets & Hrun & Hsub & _).
  - vm_compute. reflexivity.
  - vm_compute. reflexivity.
  - intros e He _. vm_compute in He.
    apply elem_of_cons in He as [->|He]; [vm_compute; eauto|].
    apply elem_of_cons in He as [->|He]; [vm_compute; eauto|].
    inversion He.
  - exists sheets. split; [exact Hrun|]. exact Hsub.
Defined.

(** X9: the failures of [parse_workbook_sheets]: a missing workbook part
    or a missing relationships part raises [KeyError], a part that does
    not parse raises [ParseError], and a worksheet relationship without
    id raises [KeyError]; relationships of other types need no id. *)
Theorem parse_workbook_sheets_failures (zipf : ZipFile) :
  (zipf !! "xl/workbook.xml" = None ->
   parse_workbook_sheets zipf = Raise (KeyError "xl/workbook.xml"))
  /\ (forall m, zipf !! "xl/workbook.xml" = Some m -> tree m = None ->
        parse_workbook_sheets zipf = Raise ParseError)
  /\ (forall workbook_root,
        load_xml zipf "xl/workbook.xml" = Ok workbook_root ->
        zipf !! "xl/_rels/workbook.xml.rels" = None ->
        parse_workbook_sheets zipf = Raise (KeyError "xl/_rels/workbook.xml.rels"))
  /\ (forall workbook_root rels_root e,
        load_xml zipf "xl/workbook.xml" = Ok workbook_root ->
        load_xml zipf "xl/_rels/workbook.xml.rels" = Ok rels_root ->
        e ∈ relationship_elements rels_root -> is_worksheet_rel e = true ->
        attrib e !! "Id" = None ->
        parse_workbook_sheets zipf = Raise (KeyError "Id")).
Proof.
  unfold parse_workbook_sheets. split; [|split; [|split]].
  - intros H. unfold load_xml, zip_open. rewrite H. reflexivity.
  - intros m H Ht. unfold load_xml, zip_open, fromstring. rewrite H. simpl.
    rewrite Ht. reflexivity.
  - intros wb Hwb H. rewrite Hwb, bind_Ok. unfold load_xml, zip_open. rewrite H. reflexivity.
  - intros wb rr e Hwb Hrr He Hu Hid. rewrite Hwb, bind_Ok, Hrr, bind_Ok.
    change (ofoldM _ [] (findall_desc rr (qn NAMESPACES.pr "Relationship")))
      with (ofoldM (fun (d : PyDict.t string) (e : Element) =>
                      if is_worksheet_rel e
                      then rid ← attr_item e "Id";
                           Ok (PyDict.set d rid (normalize_rel_target "xl" (attr_or e "Target" "")))
                      else Ok d) [] (relationship_elements rr)).
    rewrite (build_dict_raises is_worksheet_rel _ _ [] e He Hu Hid). reflexivity.
Qed.

(** ** The forest of a data model *)

Lemma omapM_pure {A B} (f : A -> outcome B) (g : A -> B) (l : list A) :
  (forall x, x ∈ l -> f x = Ok (g x)) -> omapM f l = Ok (g <$> l).
Proof.
  induction l as [|x l IH]; intros H; [reflexivity|]. simpl.
  rewrite (H x) by left. simpl. rewrite IH by (intros; apply H; right; assumption).
  reflexivity.
Qed.

Lemma omapM_raises {A B} (f : A -> outcome B) (l : list A) (e : exn) :
  omapM f l = Raise e -> exists x, x ∈ l /\ f x = Raise e.
Proof.
  induction l as [|x l IH]; simpl; [discriminate|].
  destruct (f x) as [y|e'] eqn:Hx; simpl.
  - destruct (omapM f l) as [ys|e'] eqn:Hl; simpl; [discriminate|].
    intros [= ->]. destruct (IH eq_refl) as (x' & Hin & Hx').
    exists x'. split; [right; exact Hin|exact Hx'].
  - intros [= ->]. exists x. split; [left|exact Hx].
Qed.

Lemma filter_keep_all {A} (f : A -> bool) (l : list A) :
  (forall x, x ∈ l -> f x = true) -> List.filter f l = l.
Proof.
  induction l as [|x l IH]; intros H; [reflexivity|]. simpl.
  rewrite (H x) by left. rewrite IH by (intros; apply H; right; assumption).
  reflexivity.
Qed.

Lemma filter_NoDup {A} (f : A -> bool) (l : list A) :
  NoDup l -> NoDup (List.filter f l).
Proof.
  induction 1 as [|x l Hx _ IH]; simpl; [constructor|].
  destruct (f x); [|exact IH]. constructor; [|exact IH].
  intros Hin. apply Hx. apply list_elem_of_In in Hin. apply filter_In in Hin as [Hin _].
  apply list_elem_of_In, Hin.
Qed.

Lemma start_ids_points (root : Element) (node_id : string) :
  node_id ∈ start_ids root -> node_id ∈ points root.
Proof.
  unfold start_ids. destruct (roots_of _ _) as [|r l] eqn:E; [tauto|].
  rewrite <- E. intros H. apply roots_of_points in H as [H _]. exact H.
Qed.

Lemma build_smartart_hierarchy_start (depth : nat) (zipf : ZipFile)
    (data_model_path : string) (root : Element) :
  load_xml zipf data_model_path = Ok root ->
  build_smartart_hierarchy depth zipf data_model_path
  = omapM (build_node (read_points root) (read_connections root).1 depth) (start_ids root).
Proof. apply build_smartart_hierarchy_unfold. Qed.

(** X10: in a data model without connections every point is a root,
    in point order, with the text of the point and no children, at any
    call depth above zero. *)
Theorem no_connections_flat (zipf : ZipFile) (data_model_path : string)
    (root : Element) (depth : nat) :
  load_xml zipf data_model_path = Ok root ->
  edges root = [] ->
  0 < depth ->
  build_smartart_hierarchy depth zipf data_model_path
  = Ok ((fun node_id =>
           SmartArtNode.mk node_id
             (default "" (PyDict.get (read_points root) node_id)) [])
          <$> points root).
Proof.
  intros Hroot Hedges Hdepth.
  rewrite (build_smartart_hierarchy_start _ _ _ _ Hroot).
  assert (start_ids root = points root) as ->.
  { unfold start_ids.
    assert (roots_of (read_points root) (read_connections root).2 = points root) as ->.
    { unfold roots_of. apply filter_keep_all. intros x _.
      apply Nat.eqb_eq, indegree_zero_no_edge. intros src. rewrite Hedges.
      apply not_elem_of_nil. }
    destruct (points root); reflexivity. }
  apply omapM_pure. intros node_id _.
  destruct depth as [|d]; [lia|]. simpl.
  rewrite children_map_successors. unfold successors. rewrite Hedges. reflexivity.
Qed.

Lemma no_connections_flat_witness :
  build_smartart_hierarchy 1 (<["p" := Fixtures.xml (Fixtures.data_model ["A"; "B"] [])]> ∅) "p"
  = Ok [SmartArtNode.mk "A" "Node A" []; SmartArtNode.mk "B" "Node B" []].
Proof.
  rewrite (no_connections_flat _ "p" (Fixtures.data_model ["A"; "B"] []) 1).
  - vm_compute. reflexivity.
  - vm_compute. reflexivity.
  - vm_compute. reflexivity.
  - lia.
Defined.

Section Cycles.
Context (root : Element).

Local Abbreviation node := (build_node (read_points root) (read_connections root).1).

Lemma reaches_cycle_step (node_id : string) :
  reaches_cycle root node_id ->
  exists c, edge root node_id c /\ reaches_cycle root c.
Proof.
  intros (x & Hreach & Hcycle).
  assert (Hfirst : forall a b, tc (edge root) a b ->
            exists z, edge root a z /\ rtc (edge root) z b).
  { intros a b H. destruct H as [a b Hab|a b c Hab Hbc].
    - exists b. split; [exact Hab|apply rtc_refl].
    - exists b. split; [exact Hab|apply tc_rtc, Hbc]. }
  apply rtc_inv in Hreach as [->|(y & Hy & Hreach)].
  - destruct (Hfirst _ _ Hcycle) as (z & Hz & Hback).
    exists z. split; [exact Hz|]. exists x. split; assumption.
  - exists y. split; [exact Hy|]. exists x. split; assumption.
Qed.

Lemma build_node_cycle (depth : nat) (node_id : string) (n : SmartArtNode.t) :
  reaches_cycle root node_id -> node depth node_id <> Ok n.
Proof.
  revert node_id n. induction depth as [|d IH]; intros node_id n Hc; [discriminate|].
  simpl. destruct (omapM _ _) as [cs|] eqn:Hcs; simpl; [|discriminate].
  intros _. destruct (reaches_cycle_step _ Hc) as (c & Hedge & Hc').
  apply omapM_Forall2 in Hcs. rewrite children_map_successors in Hcs.
  apply edge_successor in Hedge.
  destruct (proj1 (list_elem_of_lookup _ _) Hedge) as [i Hi].
  destruct (Forall2_lookup_l _ _ _ _ _ Hcs Hi) as (n' & _ & Hn').
  exact (IH c n' Hc' Hn').
Qed.

Lemma build_node_recursion_error (depth : nat) (node_id : string) (e : exn) :
  node depth node_id = Raise e -> e = RecursionError.
Proof.
  revert node_id. induction depth as [|d IH]; intros node_id; simpl; [congruence|].
  destruct (omapM _ _) as [cs|e'] eqn:Hcs; simpl; [discriminate|].
  intros [= ->]. apply omapM_raises in Hcs as (c & _ & Hc). exact (IH _ Hc).
Qed.

End Cycles.

(** X11: when the builder starts from an id from which the
    connections lead into a cycle, it raises [RecursionError] at every
    call depth. *)
Theorem cycle_raises_recursion_error (zipf : ZipFile) (data_model_path : string)
    (root : Element) (start : string) (depth : nat) :
  load_xml zipf data_model_path = Ok root ->
  start ∈ start_ids root ->
  reaches_cycle root start ->
  build_smartart_hierarchy depth zipf data_model_path = Raise RecursionError.
Proof.
  intros Hroot Hstart Hcycle.
  rewrite (build_smartart_hierarchy_start _ _ _ _ Hroot).
  destruct (omapM _ (start_ids root)) as [forest|e] eqn:Hrun.
  - exfalso. apply omapM_Forall2 in Hrun.
    destruct (proj1 (list_elem_of_lookup _ _) Hstart) as [i Hi].
    destruct (Forall2_lookup_l _ _ _ _ _ Hrun Hi) as (n & _ & Hn).
    exact (build_node_cycle root depth start n Hcycle Hn).
  - apply omapM_raises in Hrun as (x & _ & Hx).
    rewrite (build_node_recursion_error root _ _ _ Hx). reflexivity.
Qed.

Lemma cycle_raises_recursion_error_witness :
  build_smartart_hierarchy 1000 Fixtures.diagrams "xl/diagrams/data2.xml"
  = Raise RecursionError.
Proof.
  apply (cycle_raises_recursion_error _ _ Fixtures.self_loop "A").
  - vm_compute. reflexivity.
  - vm_compute. left.
  - exists "A". split; [apply rtc_refl|]. apply tc_once. vm_compute. left.
Defined.

Lemma read_points_keys (root : Element) :
  NoDup (points root) /\ Forall (fun node_id => node_id <> "") (points root).
Proof.
  unfold points, read_points.
  assert (H : forall l (d : PyDict.t string),
            NoDup (PyDict.keys d) -> Forall (fun k => k <> "") (PyDict.keys d) ->
            let d' := foldl (fun id_to_text pt =>
                               let model_id := attr_or pt "modelId" "" in
                               if Py.truthy model_id
                               then PyDict.set id_to_text model_id (point_text pt)
                               else id_to_text) d l in
            NoDup (PyDict.keys d') /\ Forall (fun k => k <> "") (PyDict.keys d')).
  { induction l as [|pt l IH]; intros d Hnd Hne; [split; assumption|].
    simpl. destruct (Py.truthy (attr_or pt "modelId" "")) eqn:Ht; [|apply IH; assumption].
    apply IH; [apply pydict_keys_set_NoDup, Hnd|].
    apply Forall_forall. intros k Hk. apply pydict_keys_set in Hk as [->|Hk].
    - apply truthy_nonempty, Ht.
    - rewrite Forall_forall in Hne. exact (Hne k Hk). }
  apply (H _ []); [apply NoDup_nil_2|constructor].
Qed.

(** X12: in a forest that the builder returns, the roots are the start
    ids in order: distinct, not empty, and points of the model; and every
    node at every level carries the text of the point with its id (the
    empty string when no point has that id) and, as children, the
    destinations of the connections that leave its id, in connection
    order. *)
Theorem forest_follows_connections (zipf : ZipFile) (data_model_path : string)
    (root : Element) (depth : nat) (forest : list SmartArtNode.t) :
  load_xml zipf data_model_path = Ok root ->
  build_smartart_hierarchy depth zipf data_model_path = Ok forest ->
  SmartArtNode.id <$> forest = start_ids root
  /\ NoDup (SmartArtNode.id <$> forest)
  /\ (forall n, n ∈ forest -> SmartArtNode.id n <> "" /\ SmartArtNode.id n ∈ points root)
  /\ forall n m, n ∈ forest -> m ∈ all_nodes n ->
       SmartArtNode.text m
       = default "" (PyDict.get (read_points root) (SmartArtNode.id m))
       /\ SmartArtNode.id <$> SmartArtNode.children m
          = successors root (SmartArtNode.id m).
Proof.
  intros Hroot Hrun. rewrite (build_smartart_hierarchy_start _ _ _ _ Hroot) in Hrun.
  apply omapM_Forall2 in Hrun.
  pose proof (build_forest_ids root depth _ _ Hrun) as Hids.
  destruct (read_points_keys root) as [Hnd Hne].
  assert (Hstart : forall x, x ∈ start_ids root -> x ∈ points root)
    by apply start_ids_points.
  split; [exact Hids|]. split; [|split].
  - rewrite Hids. unfold start_ids.
    destruct (roots_of _ _) as [|r l] eqn:E; [exact Hnd|].
    rewrite <- E. unfold roots_of. apply filter_NoDup. exact Hnd.
  - intros n Hn.
    assert (SmartArtNode.id n ∈ points root) as Hp.
    { apply Hstart. rewrite <- Hids. apply list_elem_of_fmap. eauto. }
    split; [|exact Hp]. rewrite Forall_forall in Hne. exact (Hne _ Hp).
  - intros n m Hn Hm.
    destruct (proj1 (list_elem_of_lookup _ _) Hn) as [i Hi].
    destruct (Forall2_lookup_r _ _ _ _ _ Hrun Hi) as (x & _ & Hx).
    pose proof (build_node_facts root depth x n Hx) as Hall.
    rewrite Forall_forall in Hall. exact (Hall m Hm).
Qed.

Lemma forest_follows_connections_witness :
  SmartArtNode.id <$>
    [SmartArtNode.mk "A" "Node A"
       [SmartArtNode.mk "B" "Node B" []; SmartArtNode.mk "C" "Node C" []]]
  = start_ids Fixtures.tree3.
Proof.
  apply (forest_follows_connections Fixtures.diagrams "xl/diagrams/data3.xml"
           Fixtures.tree3 2).
  - vm_compute. reflexivity.
  - vm_compute. reflexivity.
Defined.

(** ** What a drawing writes and returns *)

Lemma lstrip_all_without (p : ascii -> bool) (c : ascii) (s : string) :
  Py.lstrip_by p s = "" -> p c = false -> Py.contains c s = false.
Proof.
  intros Hs Hc. induction s as [|a s IH]; [reflexivity|]. simpl in *.
  destruct (p a) eqn:Ha; [|discriminate].
  rewrite (IH Hs), orb_false_r. apply Ascii.eqb_neq. intros ->. congruence.
Qed.

Lemma sub_runs_chars (keep : ascii -> bool) (repl : string) (in_run : bool)
    (s : string) (c : ascii) :
  Py.contains c (Py.sub_runs keep repl in_run s) = true ->
  keep c = true \/ Py.contains c repl = true.
Proof.
  revert in_run. induction s as [|a s IH]; intros in_run; simpl; [discriminate|].
  destruct (keep a) eqn:Ha.
  - simpl. intros [H|H]%orb_true_iff; [|exact (IH _ H)].
    apply Ascii.eqb_eq in H. subst a. left. exact Ha.
  - destruct in_run; [apply IH|].
    rewrite contains_app. intros [H|H]%orb_true_iff; [right; exact H|exact (IH _ H)].
Qed.

Lemma safe_sheet_without_sep (sheet_name : string) :
  Py.contains "/" (safe_sheet_of sheet_name) = false.
Proof.
  destruct (Py.contains "/" (safe_sheet_of sheet_name)) eqn:E; [|reflexivity].
  apply sub_runs_chars in E as [E|E]; discriminate.
Qed.

Lemma image_ext_without_sep (part_in_zip : string) :
  Py.contains "/" (image_ext part_in_zip) = false.
Proof.
  unfold image_ext, posixpath.splitext_ext.
  destruct (_ <? _) eqn:Hlt; [|reflexivity].
  destruct (Py.is_empty (Py.lstrip_by _ _)); [reflexivity|].
  apply Nat.ltb_lt in Hlt.
  assert (Py.contains "/" (Py.drop (Py.rfind_succ "." part_in_zip - 1) part_in_zip) = false)
    as Hd by (apply drop_without; unfold posixpath.sep in Hlt; lia).
  destruct (Py.truthy _); [exact Hd|reflexivity].
Qed.

Lemma image_out_name_without_sep (sheet_name : string) (counter : nat) (part : string) :
  Py.contains "/" (image_out_name sheet_name counter part) = false.
Proof.
  unfold image_out_name. rewrite !contains_app.
  rewrite safe_sheet_without_sep, image_ext_without_sep.
  rewrite (lstrip_all_without Py.is_digit "/" _ (str_of_nat_digits counter) eq_refl).
  reflexivity.
Qed.

Lemma basename_join (dir file_name : string) :
  Py.contains "/" file_name = false ->
  posixpath.basename (posixpath.join dir file_name) = file_name.
Proof.
  intros Hn.
  assert (Hrel : Py.startswith file_name "/" = false).
  { destruct file_name as [|a r]; [reflexivity|]. simpl in Hn.
    apply orb_false_elim in Hn as [Ha _]. apply startswith_sep_false.
    apply Ascii.eqb_neq. exact Ha. }
  rewrite (join_relative _ _ Hrel).
  destruct (Py.is_empty dir) eqn:He; simpl.
  - destruct dir; [|discriminate]. apply basename_plain, Hn.
  - destruct (Py.endswith dir "/") eqn:Hend.
    + apply endswith_char in Hend as [d' ->]. rewrite string_app_assoc.
      apply basename_app, Hn.
    + rewrite string_app_assoc. apply basename_app, Hn.
Qed.

(** X13: the name under which an image is saved never contains a
    slash, whatever the sheet name and the media part: the file lies
    directly in the images directory, and its base name is
    [<safe sheet>_img_<counter><ext>]. *)
Theorem saved_image_in_images_dir (output_images_dir sheet_name part : string)
    (counter : nat) :
  let out_name := image_out_name sheet_name counter part in
  Py.contains "/" out_name = false
  /\ posixpath.basename (posixpath.join output_images_dir out_name) = out_name
  /\ in_images_dir output_images_dir (posixpath.join output_images_dir out_name).
Proof.
  cbv zeta. pose proof (image_out_name_without_sep sheet_name counter part) as H.
  split; [exact H|]. split; [apply basename_join, H|].
  eexists. split; [exact H|reflexivity].
Qed.

Section Numbering.
Context (cwd : string) (zipf : ZipFile) (rels : PyDict.t rel) (base_dir_in_zip : string).
Context (output_images_dir sheet_name : string).

Local Abbreviation saved := (saved_images zipf rels base_dir_in_zip).
Local Abbreviation copy := (copy_image zipf output_images_dir sheet_name).

Lemma saved_images_counters (n : nat) (l : list Element) :
  (fun w => w.1.1) <$> saved n l = seq (S n) (length (saved n l)).
Proof.
  revert n. induction l as [|a l IH]; intros n; simpl; [reflexivity|].
  destruct (picture_part zipf rels base_dir_in_zip a); [|apply IH].
  simpl. rewrite IH. reflexivity.
Qed.

Lemma saved_images_lookup (l : list Element) (i : nat) (w : nat * string * Element) :
  saved 0 l !! i = Some w -> w.1.1 = S i.
Proof.
  intros H.
  assert (((fun w => w.1.1) <$> saved 0 l) !! i = Some w.1.1) as Hc
    by (rewrite list_lookup_fmap, H; reflexivity).
  rewrite saved_images_counters in Hc. apply lookup_seq in Hc as [-> _]. reflexivity.
Qed.

(** No image of a drawing is overwritten by a later image of the same
    drawing. *)
Lemma copy_images_lookup (l : list Element) (i : nat) (w : nat * string * Element) (fs : FS) :
  saved 0 l !! i = Some w ->
  exists m, zipf !! w.1.2 = Some m
    /\ foldl copy fs (saved 0 l) !! image_path output_images_dir sheet_name w
       = Some (Binary (content m)).
Proof.
  intros Hi.
  destruct (saved_images_member zipf rels base_dir_in_zip 0 l w) as [m Hm];
    [apply list_elem_of_lookup; eauto|].
  exists m. split; [exact Hm|].
  rewrite <- (take_drop_middle _ _ _ Hi), foldl_app. simpl.
  rewrite (copy_images_other zipf output_images_dir sheet_name).
  - unfold copy_image at 1. rewrite Hm. apply lookup_insert_eq.
  - intros w' Hw' Heq. apply image_path_inj in Heq.
    apply list_elem_of_lookup in Hw' as [j Hj]. rewrite lookup_drop in Hj.
    apply saved_images_lookup in Hj. apply saved_images_lookup in Hi. lia.
Qed.

Lemma copy_images_frame (ws : list (nat * string * Element)) (fs : FS) (path : string) :
  ~ in_images_dir output_images_dir path -> foldl copy fs ws !! path = fs !! path.
Proof.
  intros Hout. apply copy_images_other. intros w _ Heq. apply Hout.
  exists (image_out_name sheet_name w.1.1 w.1.2).
  split; [apply image_out_name_without_sep|symmetry; exact Heq].
Qed.

End Numbering.

Lemma extract_returned (cwd : string) (zipf : ZipFile)
    (drawing_path output_images_dir sheet_name : string) (fs fs' : FS)
    (r : list ImageInfo.t * list ShapeText.t * list smartart_ref) :
  extract_images_and_shapes cwd zipf drawing_path output_images_dir sheet_name fs
    = (Ok r, fs') ->
  exists drawing_root rels,
    load_xml zipf drawing_path = Ok drawing_root
    /\ read_rels zipf drawing_path = Ok rels.
Proof.
  unfold extract_images_and_shapes.
  destruct (load_xml zipf drawing_path) as [root|e]; [|discriminate].
  destruct (read_rels zipf drawing_path) as [rels|e]; [|discriminate]. eauto.
Qed.

(** X14: the images of one drawing are numbered 1, 2, ... in the order
    of their anchors, whatever anchors are skipped in between, and no
    image overwrites another of the same drawing: when the call returns,
    the file of the image at position [i] has the counter [i + 1] in its
    name and holds the bytes of its media part. *)
Theorem images_numbered (cwd : string) (zipf : ZipFile)
    (drawing_path output_images_dir sheet_name : string) (fs fs' : FS)
    (images : list ImageInfo.t) (shapes : list ShapeText.t) (refs : list smartart_ref) :
  extract_images_and_shapes cwd zipf drawing_path output_images_dir sheet_name fs
    = (Ok (images, shapes, refs), fs') ->
  forall i im, images !! i = Some im ->
    ImageInfo.sheet_name im = sheet_name
    /\ exists media,
         zipf !! ImageInfo.original_part im = Some media
         /\ fs' !! posixpath.join output_images_dir
                     (image_out_name sheet_name (S i) (ImageInfo.original_part im))
            = Some (Binary (content media)).
Proof.
  intros Hrun. destruct (extract_returned _ _ _ _ _ _ _ _ Hrun) as (root & rels & Hroot & Hrels).
  rewrite (extract_images_and_shapes_spec _ _ _ _ _ _ _ _ Hroot Hrels) in Hrun.
  cbv zeta in Hrun. injection Hrun as <- <- <- <-.
  intros i im Hi. rewrite list_lookup_fmap in Hi.
  destruct (saved_images _ _ _ 0 _ !! i) as [w|] eqn:Hw; [|discriminate].
  injection Hi as <-. split; [reflexivity|].
  destruct (copy_images_lookup zipf rels (posixpath.dirname drawing_path)
              output_images_dir sheet_name (iter_anchors root) i w fs Hw)
    as (m & Hm & Hfile).
  exists m. split; [exact Hm|]. simpl.
  rewrite <- (saved_images_lookup _ _ _ _ _ _ Hw). exact Hfile.
Qed.

Lemma images_numbered_witness :
  (extract_images_and_shapes "/" Fixtures.parts "xl/drawings/drawing1.xml"
     "/out/images" "Sales" ∅).2
    !! posixpath.join "/out/images" (image_out_name "Sales" 1 "xl/media/image1.png")
  = Some (Binary Fixtures.png1).
Proof.
  destruct (images_numbered "/" Fixtures.parts "xl/drawings/drawing1.xml"
              "/out/images" "Sales" ∅
              (extract_images_and_shapes "/" Fixtures.parts "xl/drawings/drawing1.xml"
                 "/out/images" "Sales" ∅).2
              [ImageInfo.mk "Sales" "images/Sales_img_1.png" "xl/media/image1.png"
                 (Anchor.mk 1 0 2 0)] [] [] ltac:(vm_compute; reflexivity) 0
              (ImageInfo.mk "Sales" "images/Sales_img_1.png" "xl/media/image1.png"
                 (Anchor.mk 1 0 2 0)) eq_refl)
    as (_ & media & Hmedia & Hfile).
  simpl ImageInfo.original_part in *. rewrite Hfile.
  vm_compute in Hmedia. injection Hmedia as <-. reflexivity.
Defined.

Lemma extract_frame (cwd : string) (zipf : ZipFile)
    (drawing_path output_images_dir sheet_name : string) :
  only_writes (in_images_dir output_images_dir)
    (extract_images_and_shapes cwd zipf drawing_path output_images_dir sheet_name).
Proof.
  intros fs o fs' Hrun path Hout.
  destruct (load_xml zipf drawing_path) as [root|e] eqn:Hroot.
  - destruct (read_rels zipf drawing_path) as [rels|e] eqn:Hrels.
    + rewrite (extract_images_and_shapes_spec _ _ _ _ _ _ _ _ Hroot Hrels) in Hrun.
      cbv zeta in Hrun. injection Hrun as _ <-.
      apply copy_images_frame, Hout.
    + unfold extract_images_and_shapes in Hrun. rewrite Hroot, Hrels in Hrun.
      injection Hrun as _ <-. reflexivity.
  - unfold extract_images_and_shapes in Hrun. rewrite Hroot in Hrun.
    injection Hrun as _ <-. reflexivity.
Qed.

(** X15: whatever its outcome, [extract_images_and_shapes] changes the
    output directory only at paths that lie directly in the images
    directory; and when the drawing part or its relationships part fails
    to load, it raises that error before it writes anything. *)
Theorem extract_writes_only_images (cwd : string) (zipf : ZipFile)
    (drawing_path output_images_dir sheet_name : string) :
  only_writes (in_images_dir output_images_dir)
    (extract_images_and_shapes cwd zipf drawing_path output_images_dir sheet_name)
  /\ (forall fs e,
        load_xml zipf drawing_path = Raise e ->
        extract_images_and_shapes cwd zipf drawing_path output_images_dir sheet_name fs
        = (Raise e, fs))
  /\ (forall fs drawing_root e,
        load_xml zipf drawing_path = Ok drawing_root ->
        read_rels zipf drawing_path = Raise e ->
        extract_images_and_shapes cwd zipf drawing_path output_images_dir sheet_name fs
        = (Raise e, fs)).
Proof.
  split; [apply extract_frame|]. split.
  - intros fs e Hroot. unfold extract_images_and_shapes. rewrite Hroot. reflexivity.
  - intros fs drawing_root e Hroot Hrels. unfold extract_images_and_shapes.
    rewrite Hroot, Hrels. reflexivity.
Qed.

Lemma extract_sheet_names (cwd : string) (zipf : ZipFile)
    (drawing_path output_images_dir sheet_name : string) (fs fs' : FS)
    (images : list ImageInfo.t) (shapes : list ShapeText.t) (refs : list smartart_ref) :
  extract_images_and_shapes cwd zipf drawing_path output_images_dir sheet_name fs
    = (Ok (images, shapes, refs), fs') ->
  Forall (fun im => ImageInfo.sheet_name im = sheet_name) images
  /\ Forall (fun st => ShapeText.sheet_name st = sheet_name) shapes.
Proof.
  intros Hrun.
  destruct (extract_returned _ _ _ _ _ _ _ _ Hrun) as (root & rels & Hroot & Hrels).
  rewrite (extract_images_and_shapes_spec _ _ _ _ _ _ _ _ Hroot Hrels) in Hrun.
  cbv zeta in Hrun. injection Hrun as <- <- _ _. split.
  - apply Forall_forall. intros im (w & -> & _)%list_elem_of_fmap. reflexivity.
  - apply Forall_forall. intros st (anchor & _ & Hitem)%list_elem_of_omap.
    unfold shape_item in Hitem.
    destruct (shape_body anchor) as [tx|]; [|discriminate]. simpl in Hitem.
    destruct (Py.truthy _); [|discriminate]. injection Hitem as <-. reflexivity.
Qed.

Section Strip.
Context (p : ascii -> bool).

Lemma lstrip_by_idem (s : string) : Py.lstrip_by p (Py.lstrip_by p s) = Py.lstrip_by p s.
Proof.
  induction s as [|a s IH]; [reflexivity|]. simpl.
  destruct (p a) eqn:Ha; [exact IH|]. simpl. rewrite Ha. reflexivity.
Qed.

Lemma rstrip_by_idem (s : string) : Py.rstrip_by p (Py.rstrip_by p s) = Py.rstrip_by p s.
Proof.
  induction s as [|a s IH]; [reflexivity|]. simpl.
  destruct (Py.is_empty (Py.rstrip_by p s) && p a) eqn:E; [reflexivity|].
  simpl. rewrite IH, E. reflexivity.
Qed.

Lemma rstrip_by_tail (a : ascii) (s : string) :
  Py.rstrip_by p (String a s) = String a s -> Py.rstrip_by p s = s.
Proof.
  simpl. destruct (Py.is_empty (Py.rstrip_by p s) && p a); [discriminate|].
  intros [= H]. exact H.
Qed.

Lemma lstrip_by_keeps_rstripped (s : string) :
  Py.rstrip_by p s = s -> Py.rstrip_by p (Py.lstrip_by p s) = Py.lstrip_by p s.
Proof.
  induction s as [|a s IH]; [reflexivity|]. intros H. simpl.
  destruct (p a); [|exact H]. apply IH, (rstrip_by_tail a), H.
Qed.

Lemma strip_by_idem (s : string) : Py.strip_by p (Py.strip_by p s) = Py.strip_by p s.
Proof.
  unfold Py.strip_by.
  rewrite (lstrip_by_keeps_rstripped _ (rstrip_by_idem s)). apply lstrip_by_idem.
Qed.

Lemma strip_by_rstripped (s : string) :
  Py.rstrip_by p (Py.strip_by p s) = Py.strip_by p s.
Proof. apply lstrip_by_keeps_rstripped, rstrip_by_idem. Qed.

Lemma lstrip_by_head (s t : string) (a : ascii) :
  Py.lstrip_by p s = String a t -> p a = false.
Proof.
  induction s as [|b s IH]; simpl; [discriminate|].
  destruct (p b) eqn:Hb; [exact IH|]. intros [= -> _]. exact Hb.
Qed.

Lemma rstrip_by_last (s : string) (a : ascii) :
  Py.rstrip_by p (s +:+ String a "") = s +:+ String a "" -> p a = false.
Proof.
  induction s as [|b s IH].
  - change ("" +:+ String a "") with (String a ""). simpl.
    destruct (p a); [discriminate|reflexivity].
  - rewrite string_app_cons. intros H. apply IH, (rstrip_by_tail b), H.
Qed.

End Strip.

(** X16: the text of every shape item that [extract_images_and_shapes]
    returns is not empty and has no white space at either end, and the
    item carries the sheet name. *)
Theorem shape_text_stripped (cwd : string) (zipf : ZipFile)
    (drawing_path output_images_dir sheet_name : string) (fs fs' : FS)
    (images : list ImageInfo.t) (shapes : list ShapeText.t) (refs : list smartart_ref)
    (st : ShapeText.t) :
  extract_images_and_shapes cwd zipf drawing_path output_images_dir sheet_name fs
    = (Ok (images, shapes, refs), fs') ->
  st ∈ shapes ->
  ShapeText.text st <> ""
  /\ Py.strip (ShapeText.text st) = ShapeText.text st
  /\ ShapeText.sheet_name st = sheet_name.
Proof.
  intros Hrun Hst.
  destruct (extract_returned _ _ _ _ _ _ _ _ Hrun) as (root & rels & Hroot & Hrels).
  rewrite (extract_images_and_shapes_spec _ _ _ _ _ _ _ _ Hroot Hrels) in Hrun.
  cbv zeta in Hrun. injection Hrun as _ <- _ _.
  apply list_elem_of_omap in Hst as (anchor & _ & Hitem). unfold shape_item in Hitem.
  destruct (shape_body anchor) as [tx|]; [|discriminate]. simpl in Hitem.
  destruct (Py.truthy (join_stripped (read_text_nodes tx))) eqn:Ht; [|discriminate].
  injection Hitem as <-. simpl. split; [apply truthy_nonempty, Ht|].
  split; [|reflexivity]. unfold join_stripped, Py.strip. apply strip_by_idem.
Qed.

Lemma shape_text_stripped_witness :
  Py.strip "Hello  World" = "Hello  World".
Proof.
  apply (shape_text_stripped "/" Fixtures.parts "xl/drawings/drawing2.xml"
           "/out/images" "Sheet1" ∅ ∅ [] [ShapeText.mk "Sheet1" "Hello  World" (Anchor.mk 4 0 5 0)] []
           (ShapeText.mk "Sheet1" "Hello  World" (Anchor.mk 4 0 5 0))).
  - vm_compute. reflexivity.
  - left.
Defined.

(** ** The document that [process_excel] returns *)

Section Frames.
Context (allowed : string -> Prop).

Lemma only_writes_ret {A} (a : A) : only_writes allowed (mret a).
Proof. intros fs o fs' [= _ <-] path _. reflexivity. Qed.

Lemma only_writes_lift {A} (o : outcome A) : only_writes allowed (lift o).
Proof. intros fs o' fs' [= _ <-] path _. reflexivity. Qed.

Lemma only_writes_bind {A B} (m : M A) (k : A -> M B) :
  only_writes allowed m -> (forall a, only_writes allowed (k a)) ->
  only_writes allowed (m ≫= k).
Proof.
  intros Hm Hk fs o fs' Hrun path Hout. unfold mbind, M_bind in Hrun.
  destruct (m fs) as [[a|e] fs1] eqn:Hm1.
  - rewrite (Hk a fs1 o fs' Hrun path Hout). exact (Hm fs _ fs1 Hm1 path Hout).
  - injection Hrun as _ <-. exact (Hm fs _ fs1 Hm1 path Hout).
Qed.

Lemma only_writes_foldM {A S} (f : S -> A -> M S) (l : list A) (s : S) :
  (forall s x, only_writes allowed (f s x)) -> only_writes allowed (foldM f s l).
Proof.
  intros Hf. revert s. induction l as [|x l IH]; intros s; [apply only_writes_ret|].
  apply only_writes_bind; [apply Hf|exact IH].
Qed.

End Frames.

Section ProcessLoops.
Context (cwd : string) (depth : nat) (zipf : ZipFile).
Context (cells_by_sheet : gmap string (list CellText)) (images_dir : string).

Lemma smartart_loop_app (refs : list smartart_ref) (acc : list SmartArtNode.t) :
  smartart_loop depth zipf refs acc = acc ++ smartart_loop depth zipf refs [].
Proof.
  unfold smartart_loop. revert acc.
  induction refs as [|[[anchor rid] data_model_path] refs IH]; intros acc; simpl.
  - rewrite app_nil_r. reflexivity.
  - rewrite IH. symmetry. rewrite IH. symmetry.
    destruct (build_smartart_hierarchy depth zipf data_model_path); simpl;
      [rewrite app_assoc|]; reflexivity.
Qed.

Lemma drawing_body_frame (sheet_name sheet_part : string) (acc : agg)
    (item : string * rel) :
  only_writes (in_images_dir images_dir)
    (drawing_body cwd depth zipf images_dir sheet_name sheet_part acc item).
Proof.
  unfold drawing_body.
  destruct (Py.endswith _ _); [|apply only_writes_ret].
  destruct (in_namelist _ _); [|apply only_writes_ret].
  apply only_writes_bind; [apply extract_frame|].
  intros [[ims shapes] refs]. apply only_writes_ret.
Qed.

Lemma sheet_body_frame (acc : list ImageInfo.t * list SmartArtNode.t * list SheetEntry)
    (sheet : string * string) :
  only_writes (in_images_dir images_dir)
    (sheet_body cwd depth zipf cells_by_sheet images_dir acc sheet).
Proof.
  destruct sheet as [sheet_name sheet_part], acc as [[ims arts] entries].
  unfold sheet_body.
  apply only_writes_bind; [apply only_writes_lift|]. intros s_rels.
  apply only_writes_bind; [|intros; apply only_writes_ret].
  apply only_writes_foldM. intros. apply drawing_body_frame.
Qed.

(** What the drawings of one sheet add to the loop variables. *)
Lemma drawing_loop_returns (sheet_name sheet_part : string) (l : list (string * rel))
    (acc a : agg) (fs fs' : FS) :
  foldM (drawing_body cwd depth zipf images_dir sheet_name sheet_part) acc l fs
    = (Ok a, fs') ->
  exists ims shapes arts,
    a = mkAgg (all_images acc ++ ims) (all_smartart acc ++ arts)
          (mkSheetEntry (name (sheet_entry acc)) (text_content (sheet_entry acc))
             (images (sheet_entry acc) ++ ims)
             (shapes_text (sheet_entry acc) ++ shapes)
             (smartart (sheet_entry acc) ++ arts)
             (structure_sheet_part (sheet_entry acc)))
    /\ Forall (fun im => ImageInfo.sheet_name im = sheet_name) ims
    /\ Forall (fun st => ShapeText.sheet_name st = sheet_name) shapes.
Proof.
  revert acc fs. induction l as [|item l IH]; intros acc fs.
  - intros [= <- _]. exists [], [], []. rewrite !app_nil_r.
    destruct acc as [i s [n t im sh sm p]]. repeat split; constructor.
  - rewrite foldM_cons.
    destruct (drawing_body cwd depth zipf images_dir sheet_name sheet_part acc item fs)
      as [[a1|e] fs1] eqn:Hbody; [|discriminate].
    intros Hrest. apply IH in Hrest as (ims2 & shapes2 & arts2 & -> & Hi2 & Hs2).
    assert (exists ims shapes arts,
              a1 = mkAgg (all_images acc ++ ims) (all_smartart acc ++ arts)
                     (mkSheetEntry (name (sheet_entry acc)) (text_content (sheet_entry acc))
                        (images (sheet_entry acc) ++ ims)
                        (shapes_text (sheet_entry acc) ++ shapes)
                        (smartart (sheet_entry acc) ++ arts)
                        (structure_sheet_part (sheet_entry acc)))
              /\ Forall (fun im => ImageInfo.sheet_name im = sheet_name) ims
              /\ Forall (fun st => ShapeText.sheet_name st = sheet_name) shapes)
      as (ims1 & shapes1 & arts1 & -> & Hi1 & Hs1).
    { unfold drawing_body in Hbody.
      assert (Hsame : forall fs0, (Ok a1, fs1) = (Ok acc, fs0) -> exists ims shapes arts,
                a1 = mkAgg (all_images acc ++ ims) (all_smartart acc ++ arts)
                       (mkSheetEntry (name (sheet_entry acc)) (text_content (sheet_entry acc))
                          (images (sheet_entry acc) ++ ims)
                          (shapes_text (sheet_entry acc) ++ shapes)
                          (smartart (sheet_entry acc) ++ arts)
                          (structure_sheet_part (sheet_entry acc)))
                /\ Forall (fun im => ImageInfo.sheet_name im = sheet_name) ims
                /\ Forall (fun st => ShapeText.sheet_name st = sheet_name) shapes).
      { intros fs0 [= -> _]. exists [], [], []. rewrite !app_nil_r.
        destruct acc as [i s [n t im sh sm p]]. repeat split; constructor. }
      destruct (Py.endswith _ _); [|exact (Hsame _ (eq_sym Hbody))].
      destruct (in_namelist _ _); [|exact (Hsame _ (eq_sym Hbody))].
      unfold mbind, M_bind in Hbody.
      destruct (extract_images_and_shapes _ _ _ _ _ _) as [[[[ims shapes] refs]|e] fs0]
        eqn:Hex; [|discriminate].
      injection Hbody as <- _.
      destruct (extract_sheet_names _ _ _ _ _ _ _ _ _ _ Hex) as [Hi Hs].
      exists ims, shapes, (smartart_loop depth zipf refs []).
      rewrite (smartart_loop_app refs (all_smartart acc)),
        (smartart_loop_app refs (smartart (sheet_entry acc))).
      repeat split; assumption. }
    exists (ims1 ++ ims2), (shapes1 ++ shapes2), (arts1 ++ arts2). simpl.
    rewrite !app_assoc. repeat split; apply Forall_app; split; assumption.
Qed.

Lemma sheet_body_returns (ims0 ims : list ImageInfo.t) (arts0 arts : list SmartArtNode.t)
    (entries0 entries : list SheetEntry) (sheet : string * string) (fs fs' : FS) :
  sheet_body cwd depth zipf cells_by_sheet images_dir (ims0, arts0, entries0) sheet fs
    = (Ok (ims, arts, entries), fs') ->
  exists entry,
    entries = entries0 ++ [entry]
    /\ ims = ims0 ++ images entry
    /\ arts = arts0 ++ smartart entry
    /\ entry_of cells_by_sheet sheet entry.
Proof.
  destruct sheet as [sheet_name sheet_part]. unfold sheet_body, mbind, M_bind, lift.
  destruct (read_sheet_relationships zipf sheet_part) as [s_rels|e]; [|discriminate].
  destruct (foldM _ _ _ fs) as [[a|e] fs1] eqn:Hloop; [|discriminate].
  intros [= <- <- <- _].
  apply drawing_loop_returns in Hloop as (ims1 & shapes1 & arts1 & -> & Hi & Hs).
  simpl. eexists. split; [reflexivity|]. simpl.
  repeat split; assumption.
Qed.

Lemma sheet_loop_returns (sheets : list (string * string))
    (ims0 ims : list ImageInfo.t) (arts0 arts : list SmartArtNode.t)
    (entries0 entries : list SheetEntry) (fs fs' : FS) :
  foldM (sheet_body cwd depth zipf cells_by_sheet images_dir) (ims0, arts0, entries0)
    sheets fs = (Ok (ims, arts, entries), fs') ->
  exists new,
    entries = entries0 ++ new
    /\ ims = ims0 ++ flat_map images new
    /\ arts = arts0 ++ flat_map smartart new
    /\ Forall2 (entry_of cells_by_sheet) sheets new.
Proof.
  revert ims0 arts0 entries0 fs. induction sheets as [|sheet sheets IH];
    intros ims0 arts0 entries0 fs.
  - intros [= <- <- <- _]. exists []. rewrite !app_nil_r. repeat split. constructor.
  - rewrite foldM_cons.
    destruct (sheet_body _ _ _ _ _ _ sheet fs) as [[[[ims1 arts1] entries1]|e] fs1]
      eqn:Hbody; [|discriminate].
    apply sheet_body_returns in Hbody as (entry & -> & -> & -> & Hentry).
    intros Hrest. apply IH in Hrest as (new & -> & -> & -> & Hnew).
    exists (entry :: new). simpl. rewrite <- !app_assoc.
    repeat split. constructor; assumption.
Qed.

End ProcessLoops.

Lemma process_excel_returned (cwd : string) (depth : nat) (now : string)
    (cells_by_sheet : gmap string (list CellText)) (zipf : ZipFile)
    (input_path output_dir : string) (fs fs' : FS) (doc : Result) :
  process_excel cwd depth now cells_by_sheet zipf input_path output_dir fs = (Ok doc, fs') ->
  exists entries,
    doc = mkResult (flat_map images entries) (flat_map smartart entries)
            (mkMetadata (posixpath.basename input_path) now (discovered_sheets zipf).*1)
            entries
    /\ Forall2 (entry_of cells_by_sheet) (discovered_sheets zipf) entries.
Proof.
  unfold process_excel. fold (discovered_sheets zipf). unfold mbind, M_bind.
  destruct (foldM _ _ _ fs) as [[[[ims arts] entries]|e] fs1] eqn:Hloop; [|discriminate].
  intros [= <- _].
  apply sheet_loop_returns in Hloop as (new & -> & -> & -> & Hnew).
  exists new. split; [reflexivity|exact Hnew].
Qed.

(** X17: a document that [process_excel] returns has one entry for each
    sheet it went through, in that order; the entry carries the sheet's
    name and part, the cell texts recorded under that name (none when the
    name is absent), and only images and shape texts that bear the
    sheet's name.  The metadata list the same sheet names and the base
    name of the input path. *)
Theorem process_excel_entries (cwd : string) (depth : nat) (now : string)
    (cells_by_sheet : gmap string (list CellText)) (zipf : ZipFile)
    (input_path output_dir : string) (fs fs' : FS) (doc : Result) :
  process_excel cwd depth now cells_by_sheet zipf input_path output_dir fs = (Ok doc, fs') ->
  Forall2 (entry_of cells_by_sheet) (discovered_sheets zipf) (sheets doc)
  /\ sheet_names (metadata doc) = name <$> sheets doc
  /\ filename (metadata doc) = posixpath.basename input_path
  /\ created (metadata doc) = now.
Proof.
  intros (entries & -> & Hentries)%process_excel_returned. simpl.
  split; [exact Hentries|]. split; [|split; reflexivity].
  induction Hentries as [|sheet entry sheets entries (Hname & _) _ IH]; [reflexivity|].
  rewrite !fmap_cons. f_equal; [symmetry; exact Hname|exact IH].
Qed.

Lemma process_excel_entries_witness :
  exists doc,
    (process_excel "/" 10 "2024-01-01T00:00:00" ∅ (Fixtures.two_drawings_book ".png")
       "/in/book.xlsx" "/out" ∅).1 = Ok doc
    /\ sheet_names (metadata doc) = name <$> sheets doc.
Proof.
  destruct (process_excel "/" 10 "2024-01-01T00:00:00" ∅ (Fixtures.two_drawings_book ".png")
              "/in/book.xlsx" "/out" ∅) as [[doc|e] fs'] eqn:Hrun;
    [|vm_compute in Hrun; discriminate].
  exists doc. split; [reflexivity|].
  exact (proj1 (proj2 (process_excel_entries _ _ _ _ _ _ _ _ _ _ Hrun))).
Defined.

(** X18: the document-level lists are the per-sheet lists put end to
    end: [images] of the document is the concatenation of the [images]
    of its sheet entries in sheet order, and likewise [smartart] (where a
    diagram whose data model fails to load contributes nothing to either
    list). *)
Theorem process_excel_rollups (cwd : string) (depth : nat) (now : string)
    (cells_by_sheet : gmap string (list CellText)) (zipf : ZipFile)
    (input_path output_dir : string) (fs fs' : FS) (doc : Result) :
  process_excel cwd depth now cells_by_sheet zipf input_path output_dir fs = (Ok doc, fs') ->
  result_images doc = flat_map images (sheets doc)
  /\ result_smartart doc = flat_map smartart (sheets doc).
Proof.
  intros (entries & -> & _)%process_excel_returned. split; reflexivity.
Qed.

Lemma process_excel_rollups_witness :
  exists doc,
    (process_excel "/" 10 "2024-01-01T00:00:00" ∅ (Fixtures.two_drawings_book ".png")
       "/in/book.xlsx" "/out" ∅).1 = Ok doc
    /\ result_images doc = flat_map images (sheets doc).
Proof.
  destruct (process_excel "/" 10 "2024-01-01T00:00:00" ∅ (Fixtures.two_drawings_book ".png")
              "/in/book.xlsx" "/out" ∅) as [[doc|e] fs'] eqn:Hrun;
    [|vm_compute in Hrun; discriminate].
  exists doc. split; [reflexivity|].
  exact (proj1 (process_excel_rollups _ _ _ _ _ _ _ _ _ _ Hrun)).
Defined.

(** X19: when the workbook cannot be read, whatever the reason, and the
    archive has no relationships part for [xl/worksheets/sheet1.xml],
    [process_excel] does not fail: it returns a document with the single
    sheet [Sheet1], without image, shape text or diagram, and writes
    nothing. *)
Theorem unreadable_workbook_default_sheet (cwd : string) (depth : nat) (now : string)
    (cells_by_sheet : gmap string (list CellText)) (zipf : ZipFile)
    (input_path output_dir : string) (fs : FS) (e : exn) :
  parse_workbook_sheets zipf = Raise e ->
  zipf !! "xl/worksheets/_rels/sheet1.xml.rels" = None ->
  process_excel cwd depth now cells_by_sheet zipf input_path output_dir fs
  = (Ok (mkResult [] []
           (mkMetadata (posixpath.basename input_path) now ["Sheet1"])
           [mkSheetEntry "Sheet1" (default [] (cells_by_sheet !! "Sheet1")) [] [] []
              "xl/worksheets/sheet1.xml"]),
     fs).
Proof.
  intros Hparse Hrels. unfold process_excel. rewrite Hparse.
  unfold foldM, sheet_body, read_sheet_relationships.
  assert (posixpath.join
            (Py.replace (posixpath.dirname "xl/worksheets/sheet1.xml")
               "xl/worksheets" "xl/worksheets/_rels")
            (posixpath.basename "xl/worksheets/sheet1.xml" +:+ ".rels")
          = "xl/worksheets/_rels/sheet1.xml.rels") as -> by (vm_compute; reflexivity).
  unfold load_rels, in_namelist. rewrite Hrels.
  rewrite bool_decide_eq_false_2 by (intros [? ?]; discriminate).
  reflexivity.
Qed.

Lemma unreadable_workbook_default_sheet_witness :
  (process_excel "/" 10 "2024-01-01T00:00:00" ∅ ∅ "/in/book.xlsx" "/out" ∅).2 = ∅.
Proof.
  rewrite (unreadable_workbook_default_sheet "/" 10 "2024-01-01T00:00:00" ∅ ∅
             "/in/book.xlsx" "/out" ∅ (KeyError "xl/workbook.xml"));
    reflexivity.
Defined.

Lemma process_excel_frame (cwd : string) (depth : nat) (now : string)
    (cells_by_sheet : gmap string (list CellText)) (zipf : ZipFile)
    (input_path output_dir : string) :
  only_writes (in_images_dir (posixpath.join output_dir "images"))
    (process_excel cwd depth now cells_by_sheet zipf input_path output_dir).
Proof.
  unfold process_excel. cbv zeta.
  apply only_writes_bind.
  - apply only_writes_foldM. intros. apply sheet_body_frame.
  - intros [[ims arts] entries]. apply only_writes_ret.
Qed.

Lemma top_level_not_image (output_dir file_name : string) :
  Py.contains "/" file_name = false ->
  ~ in_images_dir (posixpath.join output_dir "images") (posixpath.join output_dir file_name).
Proof.
  intros Hfile (image_name & Himage & Heq).
  assert (Hrel : forall n, Py.contains "/" n = false -> Py.startswith n "/" = false).
  { intros [|a r] Hn; [reflexivity|]. simpl in Hn.
    apply orb_false_elim in Hn as [Ha _]. apply startswith_sep_false.
    apply Ascii.eqb_neq. exact Ha. }
  rewrite (join_relative output_dir file_name (Hrel _ Hfile)) in Heq.
  rewrite (join_relative output_dir "images" eq_refl) in Heq.
  set (prefix := if Py.is_empty output_dir || Py.endswith output_dir "/"
                 then output_dir else output_dir +:+ "/") in Heq.
  rewrite join_plain_dir in Heq.
  - rewrite string_app_assoc in Heq. apply String.app_inj in Heq.
    rewrite Heq in Hfile. rewrite contains_app in Hfile. discriminate.
  - destruct prefix; discriminate.
  - exact (endswith_app_plain prefix "image" "s" ltac:(discriminate)).
  - apply Hrel, Himage.
Qed.

(** X20: whatever its outcome, [process_excel] changes the output
    directory only at paths that lie directly in its [images]
    directory. *)
Theorem process_excel_writes_only_images (cwd : string) (depth : nat) (now : string)
    (cells_by_sheet : gmap string (list CellText)) (zipf : ZipFile)
    (input_path output_dir : string) (fs fs' : FS) (o : outcome Result) (path : string) :
  process_excel cwd depth now cells_by_sheet zipf input_path output_dir fs = (o, fs') ->
  ~ in_images_dir (posixpath.join output_dir "images") path ->
  fs' !! path = fs !! path.
Proof. intros Hrun Hout. exact (process_excel_frame _ _ _ _ _ _ _ fs o fs' Hrun path Hout). Qed.

Lemma process_excel_writes_only_images_witness :
  (process_excel "/" 10 "2024-01-01T00:00:00" ∅ (Fixtures.two_drawings_book ".png")
     "/in/book.xlsx" "/out" ∅).2 !! "/out/extracted_data.json" = None.
Proof.
  rewrite (process_excel_writes_only_images "/" 10 "2024-01-01T00:00:00" ∅
             (Fixtures.two_drawings_book ".png") "/in/book.xlsx" "/out" ∅
             (process_excel "/" 10 "2024-01-01T00:00:00" ∅
                (Fixtures.two_drawings_book ".png") "/in/book.xlsx" "/out" ∅).2
             (process_excel "/" 10 "2024-01-01T00:00:00" ∅
                (Fixtures.two_drawings_book ".png") "/in/book.xlsx" "/out" ∅).1
             "/out/extracted_data.json").
  - reflexivity.
  - vm_compute. reflexivity.
  - exact (top_level_not_image "/out" "extracted_data.json" eq_refl).
Defined.

(** X21: [main] returns 2 without writing anything when the input path
    is not a file.  Otherwise it writes the two documents only after
    [process_excel] has returned: when [process_excel] raises, [main]
    raises the same exception and neither [extracted_data.json] nor
    [converted.md] has been created or changed; and when [main] returns
    0, the input path was a file, [extracted_data.json] holds the
    document that [process_excel] returned and [converted.md] its
    Markdown rendering.  No other exit code is returned. *)
Theorem main_documents (cwd : string) (depth : nat) (now_iso now_fmt : string)
    (cells_by_sheet : gmap string (list CellText)) (zipf : ZipFile)
    (input_path output_dir : string) (fs : FS) :
  main_checked false cwd depth now_iso now_fmt cells_by_sheet zipf input_path output_dir fs
  = (Ok 2%Z, fs)
  /\ (forall e fs1,
        process_excel cwd depth now_iso cells_by_sheet zipf input_path output_dir fs
        = (Raise e, fs1) ->
        main_checked true cwd depth now_iso now_fmt cells_by_sheet zipf input_path
          output_dir fs = (Raise e, fs1)
        /\ fs1 !! json_path output_dir = fs !! json_path output_dir
        /\ fs1 !! md_path output_dir = fs !! md_path output_dir)
  /\ (forall input_is_file code fs',
        main_checked input_is_file cwd depth now_iso now_fmt cells_by_sheet zipf
          input_path output_dir fs = (Ok code, fs') ->
        (code = 2%Z /\ input_is_file = false /\ fs' = fs)
        \/ (code = 0%Z /\ input_is_file = true
            /\ exists doc,
                 (process_excel cwd depth now_iso cells_by_sheet zipf input_path
                    output_dir fs).1 = Ok doc
                 /\ fs' !! json_path output_dir = Some (Json doc)
                 /\ fs' !! md_path output_dir
                    = Some (Text (generate_markdown now_fmt doc)))).
Proof.
  split; [reflexivity|]. split.
  - intros e fs1 Hrun. unfold main_checked, main, mbind, M_bind. rewrite Hrun.
    split; [reflexivity|].
    split; apply (process_excel_frame _ _ _ _ _ _ _ fs _ fs1 Hrun);
      apply top_level_not_image; reflexivity.
  - intros [|] code fs'; [|intros [= <- <-]; left; repeat split].
    unfold main_checked, main, mbind, M_bind, write_file, mret, M_ret.
    destruct (process_excel cwd depth now_iso cells_by_sheet zipf input_path output_dir fs)
      as [[doc|e] fs1] eqn:Hrun; [|discriminate].
    intros [= <- <-]. right. split; [reflexivity|]. split; [reflexivity|].
    exists doc. split; [reflexivity|].
    fold (json_path output_dir) (md_path output_dir).
    pose proof (json_md_paths_differ output_dir) as Hne.
    split; [rewrite lookup_insert_ne by congruence|]; apply lookup_insert_eq.
Qed.

(** ** Names and the Markdown text *)

Lemma lstrip_by_chars (p : ascii -> bool) (c : ascii) (s : string) :
  Py.contains c (Py.lstrip_by p s) = true -> Py.contains c s = true.
Proof.
  induction s as [|a s IH]; [discriminate|]. simpl.
  destruct (p a); [|exact id]. intros H. rewrite (IH H). apply orb_true_r.
Qed.

Lemma rstrip_by_chars (p : ascii -> bool) (c : ascii) (s : string) :
  Py.contains c (Py.rstrip_by p s) = true -> Py.contains c s = true.
Proof.
  induction s as [|a s IH]; [discriminate|]. simpl.
  destruct (Py.is_empty (Py.rstrip_by p s) && p a); [discriminate|]. simpl.
  intros [H|H]%orb_true_iff; [rewrite H; reflexivity|].
  rewrite (IH H). apply orb_true_r.
Qed.

Lemma rstrip_by_app_all (p : ascii -> bool) (s t : string) :
  Py.rstrip_by p t = "" -> Py.rstrip_by p (s +:+ t) = Py.rstrip_by p s.
Proof.
  intros Ht. induction s as [|a s IH]; [exact Ht|].
  rewrite string_app_cons. simpl. rewrite IH. reflexivity.
Qed.

Lemma startswith_app (p t : string) : Py.startswith (p +:+ t) p = true.
Proof.
  induction p as [|a p IH]; [destruct t; reflexivity|].
  rewrite string_app_cons, startswith_cons, Ascii.eqb_refl. exact IH.
Qed.

Lemma sub_runs_kept (keep : ascii -> bool) (repl : string) (in_run : bool) (s : string) :
  (forall c, Py.contains c s = true -> keep c = true) ->
  Py.sub_runs keep repl in_run s = s.
Proof.
  revert in_run. induction s as [|a s IH]; intros in_run Hs; [reflexivity|]. simpl.
  rewrite (Hs a) by (simpl; rewrite Ascii.eqb_refl; reflexivity).
  rewrite IH; [reflexivity|]. intros c Hc. apply Hs. simpl. rewrite Hc. apply orb_true_r.
Qed.

Lemma contains_single (c a : ascii) : Py.contains c (String a "") = true -> c = a.
Proof.
  unfold Py.contains. rewrite orb_false_r. intros H. destruct (Ascii.eqb_spec a c); congruence.
Qed.

Lemma safe_sheet_chars (sheet_name : string) (c : ascii) :
  Py.contains c (safe_sheet_of sheet_name) = true -> safe_char c = true.
Proof.
  intros [H|H]%sub_runs_chars; [exact H|].
  apply contains_single in H. subst c. reflexivity.
Qed.

(** X22: sanitising a sheet name for use in file names leaves only
    letters, digits, underscores and hyphens (of the ASCII range), and a
    name that is already sanitised is left as it is. *)
Theorem safe_sheet_idempotent (sheet_name : string) :
  (forall c, Py.contains c (safe_sheet_of sheet_name) = true -> safe_char c = true)
  /\ safe_sheet_of (safe_sheet_of sheet_name) = safe_sheet_of sheet_name.
Proof.
  split; [apply safe_sheet_chars|].
  unfold safe_sheet_of at 1. apply sub_runs_kept. apply safe_sheet_chars.
Qed.

(** X23: the anchor that [generate_markdown] derives from a sheet name
    for the table of contents consists of lower-case letters, digits and
    hyphens only, and has no hyphen at either end. *)
Theorem slug_shape (sheet_name : string) :
  (forall c, Py.contains c (slug sheet_name) = true ->
     Py.is_lower_az c || Py.is_digit c || Ascii.eqb c "-" = true)
  /\ Py.startswith (slug sheet_name) "-" = false
  /\ Py.endswith (slug sheet_name) "-" = false.
Proof.
  unfold slug, Py.strip_char.
  set (runs := Py.sub_runs _ "-" false (Py.lower sheet_name)).
  split; [|split].
  - intros c Hc. unfold Py.strip_by in Hc.
    apply lstrip_by_chars, rstrip_by_chars, sub_runs_chars in Hc as [Hc|Hc].
    + rewrite Hc. reflexivity.
    + apply contains_single in Hc. subst c. reflexivity.
  - unfold Py.strip_by.
    destruct (Py.lstrip_by _ _) as [|a t] eqn:E; [reflexivity|].
    apply lstrip_by_head in E. rewrite startswith_cons, E. reflexivity.
  - pose proof (strip_by_rstripped (Ascii.eqb "-") runs) as Hr.
    destruct (Py.strip_by (Ascii.eqb "-") runs) as [|b r] eqn:E; [reflexivity|].
    destruct (string_snoc (String b r)) as (s' & a & Hs); [discriminate|].
    rewrite Hs in Hr |- *. apply rstrip_by_last in Hr.
    rewrite endswith_snoc, Ascii.eqb_sym. exact Hr.
Qed.

(** X24: the Markdown text ends with exactly one line break, with no
    white space before it, and begins with the title line and the line
    of the clock reading. *)
Theorem generate_markdown_frame (now : string) (output_json : Result) :
  generate_markdown now output_json
  = Py.rstrip (generate_markdown now output_json) +:+ nl
  /\ Py.startswith (generate_markdown now output_json) (md_head +:+ now) = true.
Proof.
  split.
  - unfold generate_markdown. cbv zeta. unfold Py.rstrip.
    rewrite rstrip_by_app_all by reflexivity. rewrite rstrip_by_idem. reflexivity.
  - destruct (generate_markdown_split output_json) as [rest Hrest].
    specialize (Hrest now (created (metadata output_json))).
    rewrite with_created_same in Hrest. rewrite Hrest, <- string_app_assoc.
    apply startswith_app.
Qed.







(** ** The fields of an anchor *)

Lemma read_child_value (from_elem child : Element) (field t : string) :
  find from_elem (qn NAMESPACES.xdr field) = Some child ->
  text child = Some t ->
  read_child from_elem field = Ok (default 0%Z (Py.int_of_str t)).
Proof.
  intros Hchild Htext. unfold read_child, py_int. rewrite Hchild, Htext.
  destruct (Py.int_of_str t); reflexivity.
Qed.

Lemma int_of_str_capped (t : string) :
  Py.int_max_str_digits < Py.count_digits (Py.strip t) -> Py.int_of_str t = None.
Proof.
  intros H. unfold Py.int_of_str. apply Nat.ltb_lt in H. rewrite H. reflexivity.
Qed.

(** X26: the four fields of an anchor are read one by one: a field
    whose element has a text holds the integer that [int] reads from the
    text, and 0 when [int] raises, whatever the other fields hold; in
    particular a text of more than 4300 digits, the interpreter's
    default limit, gives 0. *)
Theorem anchor_field_read (anchor_elem from_pos child : Element) (field t : string) :
  field ∈ ["col"; "colOff"; "row"; "rowOff"] ->
  find anchor_elem (qn NAMESPACES.xdr "from") = Some from_pos ->
  find from_pos (qn NAMESPACES.xdr field) = Some child ->
  text child = Some t ->
  anchor_field (anchor_pos_of anchor_elem) field = default 0%Z (Py.int_of_str t)
  /\ (Py.int_max_str_digits < Py.count_digits (Py.strip t) ->
      anchor_field (anchor_pos_of anchor_elem) field = 0%Z).
Proof.
  intros Hfield Hfrom Hchild Htext.
  assert (Hread : anchor_field (anchor_pos_of anchor_elem) field
                  = default 0%Z (Py.int_of_str t)).
  { unfold anchor_pos_of, extract_anchor. rewrite Hfrom. unfold read_pos.
    set_unfold in Hfield.
    destruct Hfield as [->|[->|[->|[->|[]]]]];
      rewrite (read_child_value _ _ _ _ Hchild Htext);
      repeat match goal with
             | |- context [read_child from_pos ?f] =>
                 let z := fresh "z" in
                 destruct (read_child_returns from_pos f) as (z & -> & _)
             end;
      reflexivity. }
  split; [exact Hread|].
  intros Hcap. rewrite Hread, (int_of_str_capped t Hcap). reflexivity.
Qed.

Lemma anchor_field_read_witness :
  anchor_field (anchor_pos_of Fixtures.partial_anchor) "row" = 0%Z.
Proof.
  destruct (anchor_field_read Fixtures.partial_anchor
              (Fixtures.elem (Fixtures.xdr "from") [] None
                 [Fixtures.elem (Fixtures.xdr "col") [] (Some "3") [];
                  Fixtures.elem (Fixtures.xdr "row") [] (Some "x") [];
                  Fixtures.elem (Fixtures.xdr "rowOff") [] None []])
              (Fixtures.elem (Fixtures.xdr "row") [] (Some "x") []) "row" "x")
    as [Hread _].
  - set_solver.
  - vm_compute. reflexivity.
  - vm_compute. reflexivity.
  - reflexivity.
  - rewrite Hread. vm_compute. reflexivity.
Defined.
